(** * aiohubspace: the poll/event reconciliation engine, the fan store and
      the speed/percentage helpers, embedded and verified.

    The development follows the Python sources:
    - [aiohubspace/util.py]                  -> [Module Util]
    - [aiohubspace/device.py]                -> [Module Device]
    - [aiohubspace/v1/models/resource.py]    -> [Module Models]
    - [aiohubspace/v1/controllers/fan.py]    -> [Module FanCtl]
    - [aiohubspace/v1/__init__.py]           -> [Module Bridge]
    - [aiohubspace/v1/controllers/event.py]  -> [Module Event]

    Python exceptions are values of [Py.exn]; a call that may raise returns
    a [Py.result].  Mutable objects (the bridge, the event stream, a fan
    model held in a controller) are threaded explicitly; Python sets and
    dicts are [gset]s and [gmap]s.  The two coroutines of the event
    stream are modelled turn by turn: a turn of the reader is one pass of
    its loop given the outcome of the fetch, a turn of the consumer
    handles one queued event.  [Module Sample] holds the concrete devices
    and subscribers that the closed statements use. *)

From stdpp Require Import gmap strings list fin_maps sorting.
From Stdlib Require Import ZArith Lia.

Local Open Scope Z_scope.
Local Open Scope string_scope.
Local Open Scope list_scope.

(* ===================================================================== *)
(** ** Python runtime notions shared by all modules                       *)
(* ===================================================================== *)

Module Py.

(** The exception classes that the modelled code can raise or catch. *)
Inductive exn : Type :=
| ValueError
| KeyError
| IndexError
| AttributeError
| TypeError
| RuntimeError
| ClientError          (* aiohttp.client_exceptions.ClientError *)
| TimeoutError         (* asyncio.TimeoutError *)
| OtherException (name : string).

Inductive result (A : Type) : Type :=
| Ok (a : A)
| Raise (e : exn).
Arguments Ok {A} a.
Arguments Raise {A} e.

Definition raised {A} (r : result A) : Prop :=
  match r with Ok _ => False | Raise _ => True end.

Definition bind {A B} (r : result A) (k : A -> result B) : result B :=
  match r with
  | Ok a => k a
  | Raise e => Raise e
  end.

(** A JSON scalar as it arrives in a state's [value] field
    (typed [Any] in [HubspaceState]). *)
Inductive value : Type :=
| VNone
| VBool (b : bool)
| VInt (z : Z)
| VStr (s : string).

#[global] Instance value_eq_dec : EqDecision value.
Proof. solve_decision. Defined.

#[global] Instance exn_eq_dec : EqDecision exn.
Proof. solve_decision. Defined.

(** Python's [==] on those scalars: [bool] is a subclass of [int], so
    [True == 1] and [False == 0]; a [str] only equals a [str]. *)
Definition bool_as_int (b : bool) : Z := if b then 1 else 0.

Definition eqv (a b : value) : bool :=
  match a, b with
  | VNone, VNone => true
  | VBool x, VBool y => Bool.eqb x y
  | VInt x, VInt y => Z.eqb x y
  | VBool x, VInt y | VInt y, VBool x => Z.eqb (bool_as_int x) y
  | VStr x, VStr y => String.eqb x y
  | _, _ => false
  end.

(** [value == "literal"]. *)
Definition eq_str (v : value) (s : string) : bool := eqv v (VStr s).

End Py.

(** [x ← call; rest] sequences calls and lets an exception escape. *)
#[global] Instance result_ret : MRet Py.result := @Py.Ok.
#[global] Instance result_bind : MBind Py.result :=
  fun A B k r => Py.bind r k.

(* ===================================================================== *)
(** ** util.py                                                            *)
(* ===================================================================== *)

Module Util.
Import Py.

Section Generic.
Context {T : Type} `{EqDecision T}.

(** The [for offset, speed in enumerate(ordered_list)] loop of
    [percentage_to_ordered_list_item]; [None] when the loop falls
    through. *)
Fixpoint scan_upper_bounds (rest : list T) (offset list_len percentage : Z)
  : option T :=
  match rest with
  | [] => None
  | speed :: rest' =>
      let list_position := offset + 1 in
      let upper_bound := (list_position * 100) `div` list_len in
      if decide (percentage <= upper_bound) then Some speed
      else scan_upper_bounds rest' (offset + 1) list_len percentage
  end.

Definition percentage_to_ordered_list_item
    (ordered_list : list T) (percentage : Z) : result T :=
  let list_len := Z.of_nat (List.length ordered_list) in
  if decide (list_len = 0) then Raise ValueError
  else
    match scan_upper_bounds ordered_list 0 list_len percentage with
    | Some speed => Ok speed
    | None =>
        (* [return ordered_list[-1]] *)
        match last ordered_list with
        | Some x => Ok x
        | None => Raise IndexError
        end
    end.

(** [list.index(item)]: position of the first element equal to [item]. *)
Fixpoint index (l : list T) (item : T) : option nat :=
  match l with
  | [] => None
  | x :: l' => if decide (x = item) then Some O else S <$> index l' item
  end.

Definition ordered_list_item_to_percentage
    (ordered_list : list T) (item : T) : result Z :=
  if decide (item ∈ ordered_list) then
    let list_len := Z.of_nat (List.length ordered_list) in
    match index ordered_list item with
    | Some i =>
        let list_position := Z.of_nat i + 1 in
        Ok ((list_position * 100) `div` list_len)
    | None => Raise ValueError     (* what [list.index] raises *)
    end
  else Raise ValueError.

End Generic.

(** Python's [range(start, stop, step)] as a list: [ValueError] when
    [step] is zero, else [start + i * step] for [i] below the length
    that [range] computes. *)
Definition range_length (start stop step : Z) : Z :=
  if Z.ltb 0 step then
    if Z.ltb start stop then (stop - start - 1) `div` step + 1 else 0
  else
    if Z.ltb stop start then (start - stop - 1) `div` (- step) + 1 else 0.

Definition range (start stop step : Z) : result (list Z) :=
  if Z.eqb step 0 then Raise ValueError
  else
    Ok (map (fun i : nat => start + Z.of_nat i * step)
            (seq 0 (Z.to_nat (range_length start stop step)))).

(** [range_vals["range"]], with its three integer entries. *)
Record RangeVals : Type := {
  range_min : Z;
  range_max : Z;
  range_step : Z;
}.

Definition process_range (range_vals : RangeVals) : result (list Z) :=
  let range_min := range_min range_vals in
  let range_max := range_max range_vals in
  let range_step := range_step range_vals in
  supported_range ←
    (if Z.eqb range_min range_max then Ok [range_max]
     else range range_min range_max range_step);
  if decide (range_max ∉ supported_range)
  then Ok (supported_range ++ [range_max])
  else Ok supported_range.

(** *** Vocabulary for statements about the percentages *)

(** The [upper_bound] that [percentage_to_ordered_list_item] computes
    at position [i] (counted from 0) of a list of [list_len] items. *)
Definition upper_bound (list_len : Z) (i : nat) : Z :=
  ((Z.of_nat i + 1) * 100) `div` list_len.

(** The position [min (list_len - 1) (ceil (percentage * list_len / 100) - 1)],
    and 0 when that is negative. *)
Definition bucket (list_len percentage : Z) : nat :=
  Z.to_nat (Z.min (list_len - 1) ((percentage * list_len + 99) `div` 100 - 1)).

End Util.

(* ===================================================================== *)
(** ** device.py                                                          *)
(* ===================================================================== *)

Module Device.
Import Py.

(** [@dataclass HubspaceState]. *)
Record HubspaceState : Type := {
  functionClass : string;
  value : Py.value;
  lastUpdateTime : option Z;
  functionInstance : option string;
}.

(** One entry of [description.functions]: a dict of which the code
    reads [functionClass], [functionInstance] and the [name] of each
    entry of [values]. *)
Record FunctionValue : Type := { name : string }.

Record HubspaceFunction : Type := {
  fn_functionClass : option string;
  fn_functionInstance : option string;
  fn_values : list FunctionValue;
}.

(** [@dataclass HubspaceDevice].  [model] is tested for truthiness
    ([not self.model]), so an absent model is kept apart from a name. *)
Record HubspaceDevice : Type := {
  id : string;
  device_id : string;
  model : option string;
  device_class : string;
  default_name : string;
  default_image : string;
  friendly_name : string;
  functions : list HubspaceFunction;
  states : list HubspaceState;
  children : list string;
  manufacturerName : option string;
}.

Definition set_model (m : string) (d : HubspaceDevice) : HubspaceDevice :=
  {| id := id d; device_id := device_id d; model := Some m;
     device_class := device_class d; default_name := default_name d;
     default_image := default_image d; friendly_name := friendly_name d;
     functions := functions d; states := states d; children := children d;
     manufacturerName := manufacturerName d |}.

Definition set_device_class (c : string) (d : HubspaceDevice) : HubspaceDevice :=
  {| id := id d; device_id := device_id d; model := model d;
     device_class := c; default_name := default_name d;
     default_image := default_image d; friendly_name := friendly_name d;
     functions := functions d; states := states d; children := children d;
     manufacturerName := manufacturerName d |}.

Definition set_manufacturerName (m : string) (d : HubspaceDevice) : HubspaceDevice :=
  {| id := id d; device_id := device_id d; model := model d;
     device_class := device_class d; default_name := default_name d;
     default_image := default_image d; friendly_name := friendly_name d;
     functions := functions d; states := states d; children := children d;
     manufacturerName := Some m |}.

(** [not self.model]: [None] and the empty string are falsy. *)
Definition no_model (d : HubspaceDevice) : bool :=
  match model d with
  | None => true
  | Some m => String.eqb m ""
  end.

Definition model_is (d : HubspaceDevice) (m : string) : bool :=
  match model d with
  | None => false
  | Some m' => String.eqb m' m
  end.

(** [HubspaceDevice.__post_init__]: three statements in sequence, the
    last one an [if]/[elif] chain. *)
Definition __post_init__ (self : HubspaceDevice) : HubspaceDevice :=
  (* Dimmer Switch fix *)
  let self :=
    if String.eqb (device_class self) "switch"
       && existsb (fun state => String.eqb (functionClass state) "brightness")
                  (states self)
    then set_device_class "light" self else self in
  (* Fix exhaust fans *)
  let self :=
    if String.eqb (device_class self) "exhaust-fan"
       && String.eqb (default_image self) "fan-exhaust-icon"
    then set_model "BF1112" self else self in
  (* Fix fans *)
  if String.eqb (device_class self) "fan"
     || String.eqb (device_class self) "ceiling-fan"
  then
    if no_model self
       && String.eqb (default_image self) "ceiling-fan-snyder-park-icon"
    then set_model "Driskol" self
    else if no_model self
            && String.eqb (default_image self) "ceiling-fan-vinings-icon"
    then set_model "Vinwood" self
    else if model_is self "TBD"
            && String.eqb (default_image self) "ceiling-fan-chandra-icon"
    then set_model "Zandra" self
    else if model_is self "TBD"
            && String.eqb (default_image self)
                          "ceiling-fan-ac-cct-dardanus-icon"
    then set_model "Nevali" self
    else if no_model self
            && String.eqb (default_image self) "ceiling-fan-slender-icon"
    then set_model "Tager" self
    else self
  (* Fix lights *)
  else if String.eqb (device_class self) "light" then
    if String.eqb (default_image self)
                  "a19-e26-color-cct-60w-smd-frosted-icon"
    then set_model "12A19060WRGBWH2" self
    else if String.eqb (default_image self) "slide-dimmer-icon"
    then set_model "HPDA110NWBP" self
    else self
  (* Fix locks *)
  else if String.eqb (device_class self) "lock" then self
  (* Fix switches *)
  else if String.eqb (device_class self) "switch" then
    if String.eqb (default_image self) "smart-switch-icon"
       && model_is self "TBD"
    then set_model "HPSA11CWB" self else self
  (* Fix valves *)
  else if String.eqb (device_class self) "valve" then self
  (* Fix glass doors - Treat as a switch *)
  else if String.eqb (device_class self) "glass-door" then
    set_manufacturerName "Feather River Doors" (set_device_class "switch" self)
  else self.

(** The JSON object of one device as the service returns it; the keys
    [get_hs_device] reads, under their JSON names. *)
Record RawDevice : Type := {
  raw_id : string;
  raw_deviceId : string;
  raw_friendlyName : string;
  raw_children : list string;
  raw_defaultImage : string;             (* description.defaultImage *)
  raw_functions : list HubspaceFunction; (* description.functions *)
  raw_model : option string;             (* description.device.model *)
  raw_deviceClass : string;              (* description.device.deviceClass *)
  raw_defaultName : string;              (* description.device.defaultName *)
  raw_manufacturerName : option string;  (* description.device.manufacturerName *)
  raw_state_values : list HubspaceState; (* state.values *)
}.

Definition get_hs_device (hs_device : RawDevice) : HubspaceDevice :=
  let processed_states :=
    map (fun state =>
           {| functionClass := functionClass state;
              value := value state;
              lastUpdateTime := lastUpdateTime state;
              functionInstance := functionInstance state |})
        (raw_state_values hs_device) in
  __post_init__
    {| id := raw_id hs_device;
       device_id := raw_deviceId hs_device;
       model := raw_model hs_device;
       device_class := raw_deviceClass hs_device;
       default_name := raw_defaultName hs_device;
       default_image := raw_defaultImage hs_device;
       friendly_name := raw_friendlyName hs_device;
       functions := raw_functions hs_device;
       states := processed_states;
       children := raw_children hs_device;
       manufacturerName := raw_manufacturerName hs_device |}.

(** [get_function_from_device]: the first function whose class and
    instance both match; Python's [None] when there is none. *)
Fixpoint find_function (funcs : list HubspaceFunction)
    (function_class : string) (function_instance : option string)
  : option HubspaceFunction :=
  match funcs with
  | [] => None
  | func :: rest =>
      if negb (bool_decide (fn_functionClass func = Some function_class))
      then find_function rest function_class function_instance
      else if negb (bool_decide (fn_functionInstance func = function_instance))
      then find_function rest function_class function_instance
      else Some func
  end.

Definition get_function_from_device (hs_device : HubspaceDevice)
    (function_class : string) (function_instance : option string)
  : option HubspaceFunction :=
  find_function (functions hs_device) function_class function_instance.

(** *** Vocabulary for statements about devices *)

(** A function that [get_function_from_device] does not pass over. *)
Definition function_matches (function_class : string)
    (function_instance : option string) (func : HubspaceFunction) : Prop :=
  fn_functionClass func = Some function_class
  /\ fn_functionInstance func = function_instance.

(** [any(state.functionClass == "brightness" for state in self.states)]. *)
Definition has_brightness (d : HubspaceDevice) : bool :=
  existsb (fun state => String.eqb (functionClass state) "brightness")
          (states d).

End Device.

(* ===================================================================== *)
(** ** v1/models (resource.py and the fan features)                       *)
(* ===================================================================== *)

Module Models.

(** [@dataclass DeviceInformation] of [models/resource.py]. *)
Record DeviceInformation : Type := {
  di_device_class : option string;
  di_default_image : option string;
  di_default_name : option string;
  di_manufacturer : option string;
  di_model : option string;
  di_name : option string;
  di_parent_id : option string;
}.

(** The feature objects that [fan.py] builds, with the keyword
    arguments it passes. *)
Record OnFeature : Type := { on : bool }.
Record SpeedFeature : Type := { speed : Z; speeds : list string }.
Record DirectionFeature : Type := { forward : bool }.
Record PresetFeature : Type := {
  enabled : bool;
  func_class : string;
  func_instance : option string;
}.

(** The [Fan] model as [FanController.initialize_elem] constructs it:
    the positional [functions] argument and the keyword arguments.
    [available] holds whatever the [available] state carried. *)
Record Fan : Type := {
  fan_functions : list Device.HubspaceFunction;
  fan_id : string;
  fan_available : Py.value;
  fan_device_information : DeviceInformation;
  fan_on : option OnFeature;
  fan_speed : option SpeedFeature;
  fan_direction : option DirectionFeature;
  fan_preset : option PresetFeature;
}.

End Models.

(** [ResourceTypes] of [models/resource.py]: an [Enum] whose
    [_missing_] hook answers [UNKNOWN]. *)
Module ResourceTypes.

Inductive t : Type :=
| DEVICE | HOME | ROOM | FAN | LANDSCAPE_TRANSFORMER | LIGHT | LOCK
| POWER_OUTLET | SWITCH | UNKNOWN | WATER_TIMER.

Definition value (m : t) : string :=
  match m with
  | DEVICE => "metadevice.device"
  | HOME => "metadata.home"
  | ROOM => "metadata.room"
  | FAN => "fan"
  | LANDSCAPE_TRANSFORMER => "landscape-transformer"
  | LIGHT => "light"
  | LOCK => "lock"
  | POWER_OUTLET => "power-outlet"
  | SWITCH => "switch"
  | UNKNOWN => "unknown"
  | WATER_TIMER => "water-timer"
  end.

(** The members in definition order. *)
Definition members : list t :=
  [DEVICE; HOME; ROOM; FAN; LANDSCAPE_TRANSFORMER; LIGHT; LOCK;
   POWER_OUTLET; SWITCH; UNKNOWN; WATER_TIMER].

(** [ResourceTypes(value)]: the member with that value; when there is
    none, what [_missing_] returns. *)
Definition of_value (v : string) : t :=
  match List.find (fun m => String.eqb (value m) v) members with
  | Some m => m
  | None => UNKNOWN
  end.

End ResourceTypes.

(* ===================================================================== *)
(** ** v1/controllers/fan.py                                              *)
(* ===================================================================== *)

Module FanCtl.
Import Py Device Models.

Definition KNOWN_PRESETS : list string := ["comfort-breeze"].

(** [functionInstance in KNOWN_PRESETS]. *)
Definition in_known_presets (function_instance : option string) : bool :=
  match function_instance with
  | Some i => bool_decide (i ∈ KNOWN_PRESETS)
  | None => false
  end.

(** [str.endswith]. *)
Definition endswith (s suffix : string) : bool :=
  let n := String.length s in
  let m := String.length suffix in
  (m <=? n)%nat && String.eqb (String.substring (n - m) m s) suffix.

(** [sorted] on strings: code-point order. *)
Definition str_le (x y : string) : Prop := String.leb x y = true.

#[global] Instance str_le_dec (x y : string) : Decision (str_le x y).
Proof. unfold str_le. apply _. Defined.

Definition sorted (l : list string) : list string := merge_sort str_le l.

(** The speed names a function offers: the [tmp_speed] set of
    [initialize_elem], then [list(sorted(tmp_speed))]. *)
Definition speed_names (func : HubspaceFunction) : list string :=
  let tmp_speed : gset string :=
    list_to_set
      (filter (fun nm => endswith nm "-000" = false)
              (map name (fn_values func))) in
  sorted (elements tmp_speed).

(** The local variables of [initialize_elem]. *)
Record Locals : Type := {
  l_available : Py.value;
  l_on : option OnFeature;
  l_speed : option SpeedFeature;
  l_direction : option DirectionFeature;
  l_preset : option PresetFeature;
}.

Definition locals0 : Locals :=
  {| l_available := VBool false; l_on := None; l_speed := None;
     l_direction := None; l_preset := None |}.

(** One iteration of [for state in hs_device.states] in
    [initialize_elem]. *)
Definition init_state (hs_device : HubspaceDevice) (v : Locals)
    (state : HubspaceState) : result Locals :=
  if String.eqb (functionClass state) "power" then
    Ok {| l_available := l_available v;
          l_on := Some {| on := eq_str (value state) "on" |};
          l_speed := l_speed v; l_direction := l_direction v;
          l_preset := l_preset v |}
  else if String.eqb (functionClass state) "fan-speed" then
    match get_function_from_device hs_device (functionClass state)
                                   (functionInstance state) with
    | None => Raise TypeError          (* [speeds["values"]] on [None] *)
    | Some func =>
        let speeds := speed_names func in
        percentage ←
          Util.ordered_list_item_to_percentage (VStr <$> speeds) (value state);
        Ok {| l_available := l_available v; l_on := l_on v;
              l_speed := Some {| speed := percentage; speeds := speeds |};
              l_direction := l_direction v; l_preset := l_preset v |}
    end
  else if String.eqb (functionClass state) "fan-reverse" then
    Ok {| l_available := l_available v; l_on := l_on v;
          l_speed := l_speed v;
          l_direction := Some {| forward := eq_str (value state) "forward" |};
          l_preset := l_preset v |}
  else if String.eqb (functionClass state) "toggle"
          && in_known_presets (functionInstance state) then
    Ok {| l_available := l_available v; l_on := l_on v;
          l_speed := l_speed v; l_direction := l_direction v;
          l_preset :=
            Some {| enabled := eq_str (value state) "enabled";
                    func_class := functionClass state;
                    func_instance := functionInstance state |} |}
  else if String.eqb (functionClass state) "available" then
    Ok {| l_available := value state; l_on := l_on v;
          l_speed := l_speed v; l_direction := l_direction v;
          l_preset := l_preset v |}
  else Ok v.

Fixpoint init_states (hs_device : HubspaceDevice) (v : Locals)
    (sts : list HubspaceState) : result Locals :=
  match sts with
  | [] => Ok v
  | state :: rest =>
      v' ← init_state hs_device v state;
      init_states hs_device v' rest
  end.

(** The [Fan(...)] expression of [initialize_elem]. *)
Definition build_fan (hs_device : HubspaceDevice) (v : Locals) : Fan :=
  {| fan_functions := functions hs_device;
     fan_id := id hs_device;
     fan_available := l_available v;
     fan_device_information :=
       {| di_device_class := Some (device_class hs_device);
          di_default_image := Some (default_image hs_device);
          di_default_name := Some (default_name hs_device);
          di_manufacturer := manufacturerName hs_device;
          di_model := model hs_device;
          di_name := Some (friendly_name hs_device);
          di_parent_id := Some (device_id hs_device) |};
     fan_on := l_on v;
     fan_speed := l_speed v;
     fan_direction := l_direction v;
     fan_preset := l_preset v |}.

(** [FanController.initialize_elem]: [_items] is the controller's dict,
    keyed by device id.  An exception leaves [_items] as it was. *)
Definition initialize_elem (_items : gmap string Fan)
    (hs_device : HubspaceDevice) : gmap string Fan * result Fan :=
  match init_states hs_device locals0 (states hs_device) with
  | Raise e => (_items, Raise e)
  | Ok v =>
      let _items := <[id hs_device := build_fan hs_device v]> _items in
      match _items !! id hs_device with
      | Some fan => (_items, Ok fan)
      | None => (_items, Raise KeyError)
      end
  end.

Definition set_on (b : bool) (f : Fan) : Fan :=
  {| fan_functions := fan_functions f; fan_id := fan_id f;
     fan_available := fan_available f;
     fan_device_information := fan_device_information f;
     fan_on := Some {| on := b |};
     fan_speed := fan_speed f; fan_direction := fan_direction f;
     fan_preset := fan_preset f |}.

Definition set_speed (sp : SpeedFeature) (z : Z) (f : Fan) : Fan :=
  {| fan_functions := fan_functions f; fan_id := fan_id f;
     fan_available := fan_available f;
     fan_device_information := fan_device_information f;
     fan_on := fan_on f;
     fan_speed := Some {| speed := z; speeds := speeds sp |};
     fan_direction := fan_direction f; fan_preset := fan_preset f |}.

Definition set_forward (b : bool) (f : Fan) : Fan :=
  {| fan_functions := fan_functions f; fan_id := fan_id f;
     fan_available := fan_available f;
     fan_device_information := fan_device_information f;
     fan_on := fan_on f; fan_speed := fan_speed f;
     fan_direction := Some {| forward := b |};
     fan_preset := fan_preset f |}.

Definition set_enabled (p : PresetFeature) (b : bool) (f : Fan) : Fan :=
  {| fan_functions := fan_functions f; fan_id := fan_id f;
     fan_available := fan_available f;
     fan_device_information := fan_device_information f;
     fan_on := fan_on f; fan_speed := fan_speed f;
     fan_direction := fan_direction f;
     fan_preset := Some {| enabled := b; func_class := func_class p;
                           func_instance := func_instance p |} |}.

Definition set_available (a : Py.value) (f : Fan) : Fan :=
  {| fan_functions := fan_functions f; fan_id := fan_id f;
     fan_available := a;
     fan_device_information := fan_device_information f;
     fan_on := fan_on f; fan_speed := fan_speed f;
     fan_direction := fan_direction f; fan_preset := fan_preset f |}.

(** One iteration of [for state in hs_device.states] in [update_elem]:
    [cur_item] is mutated in place and [updated_keys] grows.  Reading
    an attribute of a feature that is [None] raises [AttributeError];
    in every branch the raise comes before the mutation. *)
Definition update_state (cur_item : Fan) (updated_keys : gset string)
    (state : HubspaceState) : result (Fan * gset string) :=
  if String.eqb (functionClass state) "power" then
    let new_val := eq_str (value state) "on" in
    match fan_on cur_item with
    | None => Raise AttributeError
    | Some f =>
        if negb (Bool.eqb (on f) new_val)
        then Ok (set_on new_val cur_item, updated_keys ∪ {[ "on" ]})
        else Ok (cur_item, updated_keys)
    end
  else if String.eqb (functionClass state) "fan-speed" then
    match fan_speed cur_item with
    | None => Raise AttributeError
    | Some f =>
        new_val ←
          Util.ordered_list_item_to_percentage (VStr <$> speeds f) (value state);
        if negb (Z.eqb (speed f) new_val)
        then Ok (set_speed f new_val cur_item, updated_keys ∪ {[ "speed" ]})
        else Ok (cur_item, updated_keys)
    end
  else if String.eqb (functionClass state) "fan-reverse" then
    let new_val := eq_str (value state) "forward" in
    match fan_direction cur_item with
    | None => Raise AttributeError
    | Some f =>
        if negb (Bool.eqb (forward f) new_val)
        then Ok (set_forward new_val cur_item, updated_keys ∪ {[ "direction" ]})
        else Ok (cur_item, updated_keys)
    end
  else if String.eqb (functionClass state) "toggle"
          && in_known_presets (functionInstance state) then
    let new_val := eq_str (value state) "enabled" in
    match fan_preset cur_item with
    | None => Raise AttributeError
    | Some f =>
        if negb (Bool.eqb (enabled f) new_val)
        then Ok (set_enabled f new_val cur_item, updated_keys ∪ {[ "preset" ]})
        else Ok (cur_item, updated_keys)
    end
  else if String.eqb (functionClass state) "available" then
    if negb (eqv (fan_available cur_item) (value state))
    then Ok (set_available (value state) cur_item,
             updated_keys ∪ {[ "available" ]})
    else Ok (cur_item, updated_keys)
  else Ok (cur_item, updated_keys).

(** The whole loop.  The model reached so far is returned also when a
    state raises: the mutations already made stay in the store. *)
Fixpoint update_states (cur_item : Fan) (updated_keys : gset string)
    (sts : list HubspaceState) : Fan * result (gset string) :=
  match sts with
  | [] => (cur_item, Ok updated_keys)
  | state :: rest =>
      match update_state cur_item updated_keys state with
      | Ok (cur_item', updated_keys') =>
          update_states cur_item' updated_keys' rest
      | Raise e => (cur_item, Raise e)
      end
  end.

(** Modelled from the spec: [BaseResourcesController.get_device] is in
    [controllers/base.py], which is not among the sources; "get fails
    with NotFound when id is absent". *)
Definition get_device (_items : gmap string Fan) (device_id : string)
  : result Fan :=
  match _items !! device_id with
  | Some item => Ok item
  | None => Raise (OtherException "DeviceNotFound")
  end.

(** [FanController.update_elem]. *)
Definition update_elem (_items : gmap string Fan)
    (hs_device : HubspaceDevice) : gmap string Fan * result (gset string) :=
  match get_device _items (id hs_device) with
  | Raise e => (_items, Raise e)
  | Ok cur_item =>
      let '(cur_item', r) := update_states cur_item ∅ (states hs_device) in
      (<[id hs_device := cur_item']> _items, r)
  end.

(** *** Vocabulary for statements about [update_elem] *)

(** The function classes that [update_elem] reads; every other state
    is ignored. *)
Definition tracked (state : HubspaceState) : bool :=
  String.eqb (functionClass state) "power"
  || String.eqb (functionClass state) "fan-speed"
  || String.eqb (functionClass state) "fan-reverse"
  || (String.eqb (functionClass state) "toggle"
      && in_known_presets (functionInstance state))
  || String.eqb (functionClass state) "available".

(** The feature a state addresses and the value it decodes to, given
    the speed names the model knows. *)
Definition decoded (cur_item : Fan) (state : HubspaceState)
  : option (string * Py.value) :=
  if String.eqb (functionClass state) "power" then
    Some ("on", VBool (eq_str (value state) "on"))
  else if String.eqb (functionClass state) "fan-speed" then
    match fan_speed cur_item with
    | Some f =>
        match Util.ordered_list_item_to_percentage
                (VStr <$> speeds f) (value state) with
        | Ok p => Some ("speed", VInt p)
        | Raise _ => None
        end
    | None => None
    end
  else if String.eqb (functionClass state) "fan-reverse" then
    Some ("direction", VBool (eq_str (value state) "forward"))
  else if String.eqb (functionClass state) "toggle"
          && in_known_presets (functionInstance state) then
    Some ("preset", VBool (eq_str (value state) "enabled"))
  else if String.eqb (functionClass state) "available" then
    Some ("available", value state)
  else None.

(** What the model holds for a feature name. *)
Definition current (cur_item : Fan) (feature : string) : option Py.value :=
  if String.eqb feature "on" then VBool ∘ on <$> fan_on cur_item
  else if String.eqb feature "speed" then VInt ∘ speed <$> fan_speed cur_item
  else if String.eqb feature "direction" then
    VBool ∘ forward <$> fan_direction cur_item
  else if String.eqb feature "preset" then
    VBool ∘ enabled <$> fan_preset cur_item
  else if String.eqb feature "available" then Some (fan_available cur_item)
  else None.

(** The name of the feature whose decoded value differs (Python's
    [!=]) from what the model holds, if the state has one. *)
Definition changed (cur_item : Fan) (state : HubspaceState) : option string :=
  match decoded cur_item state with
  | Some (feature, new_val) =>
      match current cur_item feature with
      | Some old_val => if eqv old_val new_val then None else Some feature
      | None => None
      end
  | None => None
  end.

Definition changed_keys (cur_item : Fan) (sts : list HubspaceState)
  : gset string :=
  list_to_set (omap (changed cur_item) sts).

(** A state the model can take: it is ignored, or it decodes and the
    model has the feature it addresses. *)
Definition accepts (cur_item : Fan) (state : HubspaceState) : Prop :=
  tracked state = true ->
  exists feature new_val,
    decoded cur_item state = Some (feature, new_val)
    /\ is_Some (current cur_item feature).

(** *** Vocabulary for statements about [initialize_elem] *)

(** The last state of a snapshot that satisfies [P]. *)
Definition last_state (P : HubspaceState -> bool) (sts : list HubspaceState)
  : option HubspaceState :=
  last (filter (fun st => P st = true) sts).

Definition is_class (c : string) (st : HubspaceState) : bool :=
  String.eqb (functionClass st) c.

Definition is_preset (st : HubspaceState) : bool :=
  String.eqb (functionClass st) "toggle"
  && in_known_presets (functionInstance st).

(** The field a state sets when it satisfies [P], the one already there
    otherwise. *)
Definition pick {A} (P : HubspaceState -> bool) (new : HubspaceState -> A)
    (st : HubspaceState) (old : A) : A :=
  if P st then new st else old.

(** The speed feature that a [fan-speed] state of the device gives. *)
Definition speed_of (hs_device : HubspaceDevice) (st : HubspaceState)
  : option SpeedFeature :=
  match get_function_from_device hs_device (functionClass st)
                                 (functionInstance st) with
  | Some func =>
      match Util.ordered_list_item_to_percentage
              (VStr <$> speed_names func) (value st) with
      | Ok p => Some {| speed := p; speeds := speed_names func |}
      | Raise _ => None
      end
  | None => None
  end.

(** A snapshot on which [initialize_elem] does not raise: each of its
    [fan-speed] states has its function among the device's functions,
    and a value among the names that function offers. *)
Definition initializable (hs_device : HubspaceDevice) : Prop :=
  forall st, st ∈ states hs_device -> functionClass st = "fan-speed" ->
    exists func,
      get_function_from_device hs_device (functionClass st)
                               (functionInstance st) = Some func
      /\ value st ∈ VStr <$> speed_names func.

(** Every model of the store sits under its own id. *)
Definition keyed_by_id (_items : gmap string Fan) : Prop :=
  forall k m, _items !! k = Some m -> fan_id m = k.

(** *** Vocabulary for statements about both loops *)

(** The feature that a state addresses in [initialize_elem] and in
    [update_elem]: the same chain of tests on the function class. *)
Definition feature_of (state : HubspaceState) : option string :=
  if String.eqb (functionClass state) "power" then Some "on"
  else if String.eqb (functionClass state) "fan-speed" then Some "speed"
  else if String.eqb (functionClass state) "fan-reverse" then Some "direction"
  else if String.eqb (functionClass state) "toggle"
          && in_known_presets (functionInstance state) then Some "preset"
  else if String.eqb (functionClass state) "available" then Some "available"
  else None.

(** A snapshot that reports every feature at most once. *)
Definition reported_once (sts : list HubspaceState) : Prop :=
  forall st st', st ∈ sts -> st' ∈ sts ->
    is_Some (feature_of st) -> feature_of st = feature_of st' -> st = st'.

(** A snapshot whose states agree, for a model, on every feature they
    address. *)
Definition agree_for (cur_item : Fan) (sts : list HubspaceState) : Prop :=
  forall st st' feature v v', st ∈ sts -> st' ∈ sts ->
    decoded cur_item st = Some (feature, v) ->
    decoded cur_item st' = Some (feature, v') -> v = v'.

(** *** The claims about the two loops, as they are stated *)

(** "[update_elem] returns the empty set when the snapshot's tracked
    values decode equal to the current model, and otherwise exactly the
    set of feature names whose decoded value differs." *)
Definition reports_differences (_items : gmap string Fan)
    (hs_device : HubspaceDevice) : Prop :=
  forall cur_item, _items !! id hs_device = Some cur_item ->
    (update_elem _items hs_device).2
    = Ok (changed_keys cur_item (states hs_device)).

(** "When a fan's speed state changes from speed-4-25 (25%) to
    speed-4-75 (75%) between polls, [update_elem] returns {speed} and
    the model's speed percentage becomes 75": [before] and [after] are
    the two snapshots, the model is the one [initialize_elem] built
    from the first. *)
Definition speed_scenario (before after : HubspaceDevice) : Prop :=
  let _items := (initialize_elem ∅ before).1 in
  speed <$> (_items !! id before ≫= fan_speed) = Some 25
  /\ (update_elem _items after).2 = Ok {[ "speed" ]}
  /\ speed <$> ((update_elem _items after).1 !! id after ≫= fan_speed)
     = Some 75.

(** "Calling [initialize_elem] twice with snapshots bearing the same id
    leaves the store with the model for that id whose fields are those
    built from the second call's input": the model that
    [initialize_elem] builds from the second snapshot is the one the
    store holds after the two calls. *)
Definition second_call_decides (_items : gmap string Fan)
    (first second : HubspaceDevice) : Prop :=
  exists m2,
    (initialize_elem (initialize_elem _items first).1 second).1 !! id second
    = Some m2
    /\ (initialize_elem ∅ second).2 = Ok m2.

End FanCtl.

(** The methods of [FanController] that send a new state.  [FanPut]
    (models/fan.py) is the object handed to [self.update]: every field
    starts as [None] and [set_state] assigns the ones it sends. *)
Module FanController.
Import Py Device Models.

Record FanPut : Type := {
  put_on : option OnFeature;
  put_speed : option SpeedFeature;
  put_direction : option DirectionFeature;
  put_preset : option PresetFeature;
}.

Definition FanPut0 : FanPut :=
  {| put_on := None; put_speed := None; put_direction := None;
     put_preset := None |}.

Definition with_on (f : OnFeature) (u : FanPut) : FanPut :=
  {| put_on := Some f; put_speed := put_speed u;
     put_direction := put_direction u; put_preset := put_preset u |}.

Definition with_speed (f : SpeedFeature) (u : FanPut) : FanPut :=
  {| put_on := put_on u; put_speed := Some f;
     put_direction := put_direction u; put_preset := put_preset u |}.

Definition with_direction (f : DirectionFeature) (u : FanPut) : FanPut :=
  {| put_on := put_on u; put_speed := put_speed u;
     put_direction := Some f; put_preset := put_preset u |}.

Definition with_preset (f : PresetFeature) (u : FanPut) : FanPut :=
  {| put_on := put_on u; put_speed := put_speed u;
     put_direction := put_direction u; put_preset := Some f |}.

(** [set_state], up to its last statement: the result is the
    [update_obj] that it passes to [self.update(device_id, obj_in=...)]
    (controllers/base.py). *)
Definition set_state (_items : gmap string Fan) (device_id : string)
    (on : option bool) (speed : option Z) (forward : option bool)
    (preset : option bool) : result FanPut :=
  let update_obj := FanPut0 in
  cur_item ← FanCtl.get_device _items device_id;
  let update_obj :=
    match on with
    | Some on => with_on {| Models.on := on |} update_obj
    | None => update_obj
    end in
  let update_obj :=
    match speed, fan_speed cur_item with
    | Some speed, Some cur_speed =>
        if Z.eqb speed 0
        then with_on {| Models.on := false |} update_obj
        else with_speed {| Models.speed := speed;
                           speeds := speeds cur_speed |} update_obj
    | _, _ => update_obj
    end in
  let update_obj :=
    match preset, fan_preset cur_item with
    | Some preset, Some cur_preset =>
        with_preset {| enabled := preset;
                       func_class := func_class cur_preset;
                       func_instance := func_instance cur_preset |} update_obj
    | _, _ => update_obj
    end in
  let update_obj :=
    match forward, fan_direction cur_item with
    | Some forward, Some _ =>
        with_direction {| Models.forward := forward |} update_obj
    | _, _ => update_obj
    end in
  Ok update_obj.

Definition turn_on (_items : gmap string Fan) (device_id : string)
  : result FanPut :=
  set_state _items device_id (Some true) None None None.

Definition turn_off (_items : gmap string Fan) (device_id : string)
  : result FanPut :=
  set_state _items device_id (Some false) None None None.

Definition set_speed (_items : gmap string Fan) (device_id : string)
    (speed : Z) : result FanPut :=
  set_state _items device_id (Some true) (Some speed) None None.

Definition set_preset (_items : gmap string Fan) (device_id : string)
    (preset : bool) : result FanPut :=
  set_state _items device_id (Some true) None None (Some preset).

End FanController.

(* ===================================================================== *)
(** ** v1/controllers/light.py: set_state                                 *)
(* ===================================================================== *)

(** The feature objects and the [Light] model (models/features.py,
    models/light.py) hold what [light.py] passes to their constructors
    and reads back in [set_state]. *)
Module LightController.
Import Py.

Record OnFeature : Type := {
  on : bool;
  func_class : option string;
  func_instance : option string;
}.

Record ColorTemperatureFeature : Type := {
  temperature : Z;
  supported : list Z;
  prefix : string;
}.

Record DimmingFeature : Type := {
  brightness : Z;
  dim_supported : list Z;
}.

Record ColorFeature : Type := { red : Z; green : Z; blue : Z }.

Record ColorModeFeature : Type := { mode : string }.

Record EffectFeature : Type := {
  effect : string;
  effects : gmap string (gset string);
}.

Record Light : Type := {
  light_on : option OnFeature;
  light_color_temperature : option ColorTemperatureFeature;
  light_dimming : option DimmingFeature;
  light_color : option ColorFeature;
  light_color_mode : option ColorModeFeature;
  light_effect : option EffectFeature;
}.

(** [LightPut()]: every field starts as [None]. *)
Record LightPut : Type := {
  put_on : option OnFeature;
  put_color_temperature : option ColorTemperatureFeature;
  put_dimming : option DimmingFeature;
  put_color : option ColorFeature;
  put_color_mode : option ColorModeFeature;
  put_effect : option EffectFeature;
}.

(** [min(iterable, key=key)]: the first item whose key is the least;
    [ValueError] on an empty iterable. *)
Fixpoint min_from (key : Z -> Z) (best : Z) (rest : list Z) : Z :=
  match rest with
  | [] => best
  | x :: rest' =>
      if Z.ltb (key x) (key best) then min_from key x rest'
      else min_from key best rest'
  end.

Definition min_by (key : Z -> Z) (l : list Z) : result Z :=
  match l with
  | [] => Raise ValueError
  | x :: rest => Ok (min_from key x rest)
  end.

(** Modelled from the spec, as for the fans: [get_device] is in
    [controllers/base.py]. *)
Definition get_device (_items : gmap string Light) (device_id : string)
  : result Light :=
  match _items !! device_id with
  | Some item => Ok item
  | None => Raise (OtherException "DeviceNotFound")
  end.

(** [set_state], up to its last statement: the result is the
    [update_obj] that it passes to [self.update]. *)
Definition set_state (_items : gmap string Light) (device_id : string)
    (on : option bool) (temperature brightness : option Z)
    (color_mode : option string) (color : option (Z * Z * Z))
    (effect : option string) : result LightPut :=
  cur_item ← get_device _items device_id;
  put_on ←
    match on with
    | Some on =>
        match light_on cur_item with
        | Some cur_on =>
            Ok (Some {| LightController.on := on;
                        func_class := func_class cur_on;
                        func_instance := func_instance cur_on |})
        | None => Raise AttributeError     (* [cur_item.on.func_class] *)
        end
    | None => Ok None
    end;
  put_color_temperature ←
    match temperature, light_color_temperature cur_item with
    | Some temperature, Some cur_temp =>
        adjusted_temp ←
          min_by (fun x => Z.abs (x - temperature)) (supported cur_temp);
        Ok (Some {| LightController.temperature := adjusted_temp;
                    supported := supported cur_temp;
                    prefix := prefix cur_temp |})
    | _, _ => Ok None
    end;
  let put_dimming :=
    match brightness, light_dimming cur_item with
    | Some brightness, Some cur_dimming =>
        Some {| LightController.brightness := brightness;
                dim_supported := dim_supported cur_dimming |}
    | _, _ => None
    end in
  let put_color :=
    match color, light_color cur_item with
    | Some (r, g, b), Some _ => Some {| red := r; green := g; blue := b |}
    | _, _ => None
    end in
  let put_color_mode :=
    match color_mode, light_color_mode cur_item with
    | Some color_mode, Some _ => Some {| mode := color_mode |}
    | _, _ => None
    end in
  let put_effect :=
    match effect, light_effect cur_item with
    | Some effect, Some cur_effect =>
        Some {| LightController.effect := effect;
                effects := effects cur_effect |}
    | _, _ => None
    end in
  Ok {| LightController.put_on := put_on;
        LightController.put_color_temperature := put_color_temperature;
        LightController.put_dimming := put_dimming;
        LightController.put_color := put_color;
        LightController.put_color_mode := put_color_mode;
        LightController.put_effect := put_effect |}.

(** [set_color_temperature]. *)
Definition set_color_temperature (_items : gmap string Light)
    (device_id : string) (temperature : Z) : result LightPut :=
  set_state _items device_id (Some true) (Some temperature) None
            (Some "white") None None.

End LightController.

(* ===================================================================== *)
(** ** v1/__init__.py: the bridge's tracking tables                       *)
(* ===================================================================== *)

Module Bridge.
Import Py.

(** What the bridge reads of a controller: its class attributes,
    whether it is initialized, and the ids of the devices it holds. *)
Record Controller : Type := {
  ITEM_CLS : string;
  ITEM_TYPES : list string;      (* the [.value] of each resource type *)
  initialized : bool;
  items : list string;           (* [device.id for device in controller.items] *)
}.

Record HubSpaceBridgeV1 : Type := {
  _known_devs : gset string;
  _known_dev_classes : gmap string (list string);
  _controllers : list Controller;
}.

Definition set_known_devs (s : gset string) (self : HubSpaceBridgeV1)
  : HubSpaceBridgeV1 :=
  {| _known_devs := s;
     _known_dev_classes := _known_dev_classes self;
     _controllers := _controllers self |}.

Definition set_known_dev_classes (m : gmap string (list string))
    (self : HubSpaceBridgeV1) : HubSpaceBridgeV1 :=
  {| _known_devs := _known_devs self;
     _known_dev_classes := m;
     _controllers := _controllers self |}.

(** Property [controllers]: the initialized ones. *)
Definition controllers (self : HubSpaceBridgeV1) : list Controller :=
  filter (fun controller => initialized controller = true) (_controllers self).

(** Property [tracked_devices]: fills [_known_devs] from the
    controllers when it is empty, and returns the set object itself. *)
Definition tracked_devices (self : HubSpaceBridgeV1)
  : HubSpaceBridgeV1 * gset string :=
  if decide (_known_devs self = ∅) then
    let filled : gset string :=
      foldl (fun acc controller => acc ∪ list_to_set (items controller))
            (_known_devs self) (controllers self) in
    (set_known_devs filled self, filled)
  else (self, _known_devs self).

(** Property [device_classes]: the cached dict, filled on first use. *)
Definition device_classes (self : HubSpaceBridgeV1)
  : HubSpaceBridgeV1 * gmap string (list string) :=
  if decide (_known_dev_classes self = ∅) then
    let filled :=
      foldl (fun acc controller =>
               <[ITEM_CLS controller := ITEM_TYPES controller]> acc)
            (_known_dev_classes self) (controllers self) in
    (set_known_dev_classes filled self, filled)
  else (self, _known_dev_classes self).

(** Property [tracked_device_classes]. *)
Definition tracked_device_classes (self : HubSpaceBridgeV1)
  : HubSpaceBridgeV1 * gset string :=
  let '(self, classes) := device_classes self in
  (self,
   map_fold (fun _ tracked_dc dev_classes => dev_classes ∪ list_to_set tracked_dc)
            ∅ classes).

Definition add_device (device_id : string) (self : HubSpaceBridgeV1)
  : HubSpaceBridgeV1 :=
  set_known_devs (_known_devs self ∪ {[ device_id ]}) self.

(** [set.remove] raises [KeyError] on an absent element. *)
Definition remove_device (device_id : string) (self : HubSpaceBridgeV1)
  : result HubSpaceBridgeV1 :=
  if decide (device_id ∈ _known_devs self)
  then Ok (set_known_devs (_known_devs self ∖ {[ device_id ]}) self)
  else Raise KeyError.

(** The registry as the engine reads it: what [tracked_devices]
    returns; and the classes it tracks. *)
Definition registry (self : HubSpaceBridgeV1) : gset string :=
  (tracked_devices self).2.

Definition tracked_classes (self : HubSpaceBridgeV1) : gset string :=
  (tracked_device_classes self).2.

(** *** request *)

(** How [request] ends, besides returning: the two exceptions it raises
    itself. *)
Definition HTTPForbidden : exn := OtherException "HTTPForbidden".
Definition ExceededMaximumRetries : exn :=
  OtherException "ExceededMaximumRetries".

(** What [request] has done when it ends: the number of requests sent
    ([retries]) and the time spent in [asyncio.sleep], counted in
    quarters of a second ([0.25 * retries] seconds is [retries]
    quarters). *)
Record Attempts : Type := {
  retries : nat;
  slept : Z;
}.

(** The [while retries < MAX_RETRIES] loop of [request].  [status]
    gives the status of the response to the n-th request sent (counted
    from 1); [remaining] is [MAX_RETRIES - retries], the number of turns
    the loop condition still allows.  A returned response is
    represented by its status. *)
Fixpoint request_loop (status : nat -> Z) (remaining : nat) (a : Attempts)
  : Attempts * result Z :=
  match remaining with
  | O => (a, Raise ExceededMaximumRetries)
  | S remaining' =>
      let retries := S (retries a) in
      let slept :=
        if (1 <? retries)%nat then slept a + Z.of_nat retries else slept a in
      let a := {| retries := retries; slept := slept |} in
      let resp := status retries in
      if bool_decide (resp ∈ [429; 503]) then request_loop status remaining' a
      else if Z.eqb resp 403 then (a, Raise HTTPForbidden)
      else (a, Ok resp)
  end.

Definition request (MAX_RETRIES : nat) (status : nat -> Z)
  : Attempts * result Z :=
  request_loop status MAX_RETRIES {| retries := 0; slept := 0 |}.

(** The statuses that make [request] try again. *)
Definition retried (status : Z) : Prop := status ∈ [429; 503].

End Bridge.

(* ===================================================================== *)
(** ** v1/controllers/event.py                                            *)
(* ===================================================================== *)

Module EventStreamStatus.
Inductive t : Type := CONNECTING | CONNECTED | DISCONNECTED.

#[global] Instance eq_dec : EqDecision t.
Proof. solve_decision. Defined.
End EventStreamStatus.

Module EventType.
Inductive t : Type :=
| RESOURCE_ADDED
| RESOURCE_UPDATED
| RESOURCE_DELETED
| CONNECTED
| DISCONNECTED
| RECONNECTED.

#[global] Instance eq_dec : EqDecision t.
Proof. solve_decision. Defined.

(** The connection events, as opposed to the resource events. *)
Definition is_connection_event (e : t) : bool :=
  match e with
  | CONNECTED | DISCONNECTED | RECONNECTED => true
  | _ => false
  end.
End EventType.

Module Event.
Import Py Device Bridge.

(** [TypedDict HubSpaceEvent]; [device] is [NotRequired]. *)
Record HubSpaceEvent : Type := {
  type : EventType.t;
  ev_device_id : string;
  device : option HubspaceDevice;
}.

(** A subscriber callback: Python compares callables by identity
    ([cb_id]); [is_coroutine] is [iscoroutinefunction(callback)];
    [cb_call] says how a synchronous call ends: it returns ([None]) or
    raises.  Callbacks are taken not to touch the stream itself. *)
Record Callback : Type := {
  cb_id : nat;
  is_coroutine : bool;
  cb_call : EventType.t -> option HubSpaceEvent -> option exn;
}.

(** [EventSubscriptionType]. *)
Record Subscription : Type := {
  callback : Callback;
  event_filter : option (list EventType.t);
  resource_filter : option (list string);
}.

Record EventStream : Type := {
  _bridge : HubSpaceBridgeV1;
  _event_queue : list HubSpaceEvent;       (* asyncio.Queue, FIFO *)
  _status : EventStreamStatus.t;
  _subscribers : list Subscription;
  _polling_interval : Z;
}.

(** [EventStream.__init__]. *)
Definition __init__ (bridge : HubSpaceBridgeV1) (polling_interval : Z)
  : EventStream :=
  {| _bridge := bridge; _event_queue := [];
     _status := EventStreamStatus.DISCONNECTED;
     _subscribers := []; _polling_interval := polling_interval |}.

Definition set_bridge (b : HubSpaceBridgeV1) (self : EventStream) : EventStream :=
  {| _bridge := b; _event_queue := _event_queue self;
     _status := _status self; _subscribers := _subscribers self;
     _polling_interval := _polling_interval self |}.

Definition set_event_queue (q : list HubSpaceEvent) (self : EventStream)
  : EventStream :=
  {| _bridge := _bridge self; _event_queue := q;
     _status := _status self; _subscribers := _subscribers self;
     _polling_interval := _polling_interval self |}.

Definition set_status (s : EventStreamStatus.t) (self : EventStream)
  : EventStream :=
  {| _bridge := _bridge self; _event_queue := _event_queue self;
     _status := s; _subscribers := _subscribers self;
     _polling_interval := _polling_interval self |}.

Definition set_subscribers (l : list Subscription) (self : EventStream)
  : EventStream :=
  {| _bridge := _bridge self; _event_queue := _event_queue self;
     _status := _status self; _subscribers := l;
     _polling_interval := _polling_interval self |}.

(** Property [connected]. *)
Definition connected (self : EventStream) : bool :=
  bool_decide (_status self = EventStreamStatus.CONNECTED).

(** [put_nowait] on the unbounded queue. *)
Definition put_nowait (ev : HubSpaceEvent) (self : EventStream) : EventStream :=
  set_event_queue (_event_queue self ++ [ev]) self.

(** *** subscribe *)

(** The [event_filter] argument: [None], one [EventType], or a tuple. *)
Inductive EventFilterArg : Type :=
| NoFilter
| OneType (e : EventType.t)
| Types (es : list EventType.t).

Definition subscribe (self : EventStream) (cb : Callback)
    (event_filter_arg : EventFilterArg) (resource_filter_arg : option (list string))
  : EventStream * Subscription :=
  let event_filter :=
    match event_filter_arg with
    | NoFilter => None
    | Types es => Some es
    | OneType e => Some [e]
    end in
  let subscription :=
    {| callback := cb; event_filter := event_filter;
       resource_filter := resource_filter_arg |} in
  (set_subscribers (_subscribers self ++ [subscription]) self, subscription).

(** Equality of two subscription tuples. *)
Definition same_subscription (a b : Subscription) : bool :=
  Nat.eqb (cb_id (callback a)) (cb_id (callback b))
  && bool_decide (event_filter a = event_filter b)
  && bool_decide (resource_filter a = resource_filter b).

(** [list.remove]: drops the first equal element, [ValueError] if none. *)
Fixpoint remove_first (sub : Subscription) (l : list Subscription)
  : option (list Subscription) :=
  match l with
  | [] => None
  | x :: rest =>
      if same_subscription x sub then Some rest
      else cons x <$> remove_first sub rest
  end.

(** The closure [unsubscribe] returned by [subscribe]. *)
Definition unsubscribe (sub : Subscription) (self : EventStream)
  : result EventStream :=
  match remove_first sub (_subscribers self) with
  | Some l => Ok (set_subscribers l self)
  | None => Raise ValueError
  end.

(** *** emit *)

(** What [emit] does with a subscriber it does not skip. *)
Inductive Invocation : Type :=
| Called (cb : nat) (event_type : EventType.t) (data : option HubSpaceEvent)
| TaskCreated (cb : nat) (event_type : EventType.t) (data : option HubSpaceEvent).

(** The first [continue]: [event_filter is not None and event_type not
    in event_filter]. *)
Definition skipped_by_event_filter (sub : Subscription)
    (event_type : EventType.t) : bool :=
  match event_filter sub with
  | Some f => bool_decide (event_type ∉ f)
  | None => false
  end.

(** The second [continue]: [data] given, a resource filter, a device in
    the event (present and truthy), and its class not in the filter. *)
Definition skipped_by_resource_filter (sub : Subscription)
    (data : option HubSpaceEvent) : bool :=
  match data with
  | Some d =>
      match resource_filter sub with
      | Some rf =>
          match device d with
          | Some dev => bool_decide (device_class dev ∉ rf)
          | None => false
          end
      | None => false
      end
  | None => false
  end.

(** The loop of [emit] over [self._subscribers].  The result lists the
    invocations made, in order, and the exception that left [emit], if
    any: a synchronous callback that raises ends the loop, since the
    call is not guarded; a coroutine callback is only scheduled. *)
Fixpoint emit_loop (subs : list Subscription) (event_type : EventType.t)
    (data : option HubSpaceEvent) : list Invocation * option exn :=
  match subs with
  | [] => ([], None)
  | sub :: rest =>
      if skipped_by_event_filter sub event_type then
        emit_loop rest event_type data
      else if skipped_by_resource_filter sub data then
        emit_loop rest event_type data
      else if is_coroutine (callback sub) then
        let '(calls, r) := emit_loop rest event_type data in
        (TaskCreated (cb_id (callback sub)) event_type data :: calls, r)
      else
        match cb_call (callback sub) event_type data with
        | Some e => ([Called (cb_id (callback sub)) event_type data], Some e)
        | None =>
            let '(calls, r) := emit_loop rest event_type data in
            (Called (cb_id (callback sub)) event_type data :: calls, r)
        end
  end.

Definition emit (self : EventStream) (event_type : EventType.t)
    (data : option HubSpaceEvent) : list Invocation * option exn :=
  emit_loop (_subscribers self) event_type data.

(** *** __event_reader *)

(** How [await self._bridge.fetch_data()] ends. *)
Inductive FetchOutcome : Type :=
| Fetched (data : list RawDevice)
| FetchRaised (err : exn).

(** [except (ClientError, asyncio.TimeoutError)]. *)
Definition caught_as_transient (err : exn) : bool :=
  match err with
  | ClientError | TimeoutError => true
  | _ => false
  end.

(** The state of the [try] body's loop. *)
Record Classified : Type := {
  c_stream : EventStream;
  processed_ids : list string;
  skipped_ids : list string;
}.

(** One iteration of [for dev in data]. *)
Definition classify_one (acc : Classified) (dev : RawDevice) : Classified :=
  let self := c_stream acc in
  let hs_dev := get_hs_device dev in
  let '(bridge, tracked) := tracked_devices (_bridge self) in
  let '(event_type, bridge) :=
    if decide (id hs_dev ∉ tracked)
    then (EventType.RESOURCE_ADDED, add_device (id hs_dev) bridge)
    else (EventType.RESOURCE_UPDATED, bridge) in
  let '(bridge, classes) := tracked_device_classes bridge in
  let self := set_bridge bridge self in
  if decide (device_class hs_dev ∉ classes) then
    {| c_stream := self;
       processed_ids := processed_ids acc;
       skipped_ids := skipped_ids acc ++ [id hs_dev] |}
  else
    {| c_stream :=
         put_nowait {| type := event_type; ev_device_id := id hs_dev;
                       device := Some hs_dev |} self;
       processed_ids := processed_ids acc ++ [id hs_dev];
       skipped_ids := skipped_ids acc |}.

Definition classify (self : EventStream) (data : list RawDevice) : Classified :=
  foldl classify_one
        {| c_stream := self; processed_ids := []; skipped_ids := [] |} data.

(** The [else] clause: [for dev_id in self._bridge.tracked_devices]
    with [remove_device] in the body.  The loop iterates over the set
    it removes from.  CPython's set iterator records the size of the
    set when it is created and, at every step, raises [RuntimeError]
    ("Set changed size during iteration") when the size differs.
    [order] is what is left of the iteration order and [used] the
    recorded size. *)
Fixpoint find_missing (order : list string) (used : nat) (seen : list string)
    (self : EventStream) : EventStream * option exn :=
  if decide (size (_known_devs (_bridge self)) ≠ used) then
    (self, Some RuntimeError)
  else
    match order with
    | [] => (self, None)
    | dev_id :: rest =>
        if decide (dev_id ∉ seen) then
          let self :=
            put_nowait {| type := EventType.RESOURCE_DELETED;
                          ev_device_id := dev_id; device := None |} self in
          match remove_device dev_id (_bridge self) with
          | Raise e => (self, Some e)
          | Ok bridge => find_missing rest used seen (set_bridge bridge self)
          end
        else find_missing rest used seen self
    end.

(** One turn of the [while True] loop, up to the [asyncio.sleep]: the
    stream afterwards, and the exception that left the coroutine, if
    any.  The iteration order of the set is that of [elements]. *)
Definition poll_pass (fetch : FetchOutcome) (self : EventStream)
  : EventStream * option exn :=
  match fetch with
  | FetchRaised err =>
      if caught_as_transient err
      then (set_status EventStreamStatus.DISCONNECTED self, None)
      else (self, Some err)
  | Fetched data =>
      let c := classify self data in
      let self := c_stream c in
      let '(bridge, tracked) := tracked_devices (_bridge self) in
      let self := set_bridge bridge self in
      match find_missing (elements tracked) (size tracked)
                         (processed_ids c ++ skipped_ids c) self with
      | (self, Some e) => (self, Some e)
      | (self, None) => (set_status EventStreamStatus.DISCONNECTED self, None)
      end
  end.

(** *** __event_processor *)

(** One turn of its loop: [None] while [get] waits on an empty queue. *)
Definition process_next (self : EventStream)
  : option (EventStream * list Invocation * option exn) :=
  match _event_queue self with
  | [] => None
  | event :: queue =>
      let self := set_event_queue queue self in
      let '(calls, r) := emit self (type event) (Some event) in
      Some (self, calls, r)
  end.

(** *** The two background tasks together *)

(** The stream, what subscribers have seen so far, and for each task
    the exception that ended it, if one did. *)
Record Engine : Type := {
  stream : EventStream;
  seen : list Invocation;
  reader_ended : option exn;
  processor_ended : option exn;
}.

(** [EventStream.initialize]: both tasks are created; the reader sets
    [CONNECTING] before its first turn. *)
Definition initialize (self : EventStream) : Engine :=
  {| stream := set_status EventStreamStatus.CONNECTING self;
     seen := []; reader_ended := None; processor_ended := None |}.

(** The scheduler runs a turn of the reader (with the outcome of its
    fetch) or a turn of the processor. *)
Inductive Turn : Type :=
| Poll (fetch : FetchOutcome)
| Consume.

Definition turn (g : Engine) (t : Turn) : Engine :=
  match t with
  | Poll fetch =>
      match reader_ended g with
      | Some _ => g
      | None =>
          let '(self, r) := poll_pass fetch (stream g) in
          {| stream := self; seen := seen g;
             reader_ended := r; processor_ended := processor_ended g |}
      end
  | Consume =>
      match processor_ended g with
      | Some _ => g
      | None =>
          match process_next (stream g) with
          | None => g
          | Some (self, calls, r) =>
              {| stream := self; seen := seen g ++ calls;
                 reader_ended := reader_ended g; processor_ended := r |}
          end
      end
  end.

Definition run (g : Engine) (schedule : list Turn) : Engine :=
  foldl turn g schedule.

(** *** Vocabulary for statements about a poll *)

(** The event the [else] clause enqueues for a missing id. *)
Definition deleted_event (dev_id : string) : HubSpaceEvent :=
  {| type := EventType.RESOURCE_DELETED; ev_device_id := dev_id;
     device := None |}.

(** What a stream's queue gained between two points in time. *)
Definition new_events (before after : EventStream) : list HubSpaceEvent :=
  drop (List.length (_event_queue before)) (_event_queue after).

(** The events that classify [dev_id] as [event_type]. *)
Definition events_about (event_type : EventType.t) (dev_id : string)
    (evs : list HubSpaceEvent) : list HubSpaceEvent :=
  filter (fun e => type e = event_type /\ ev_device_id e = dev_id) evs.

Definition times_classified (dev_id : string) (evs : list HubSpaceEvent) : nat :=
  (List.length (events_about EventType.RESOURCE_ADDED dev_id evs)
   + List.length (events_about EventType.RESOURCE_UPDATED dev_id evs))%nat.

(** The classification of a fetched list against a registry [R] and
    the tracked classes [C], as a function of the snapshots alone: a
    snapshot of a tracked class yields one event, [RESOURCE_ADDED]
    when its id is neither in [R] nor carried by an earlier snapshot
    and [RESOURCE_UPDATED] otherwise; any other snapshot yields none;
    every snapshot's id counts as known from then on. *)
Fixpoint expected_events (R C : gset string) (devs : list HubspaceDevice)
  : list HubSpaceEvent :=
  match devs with
  | [] => []
  | hs_dev :: rest =>
      let event_type :=
        if decide (id hs_dev ∈ R) then EventType.RESOURCE_UPDATED
        else EventType.RESOURCE_ADDED in
      (if decide (device_class hs_dev ∈ C)
       then [{| type := event_type; ev_device_id := id hs_dev;
                device := Some hs_dev |}]
       else [])
      ++ expected_events (R ∪ {[ id hs_dev ]}) C rest
  end.

(** The ids of the registry that the fetched list does not carry, in
    the order the [else] clause meets them. *)
Definition missing_ids (self : EventStream) (data : list RawDevice)
  : list string :=
  let devs := get_hs_device <$> data in
  filter (fun d => d ∉ id <$> devs)
         (elements (registry (_bridge self) ∪ list_to_set (id <$> devs))).

(** "Every id of the fetched list is classified exactly once, as Added
    when it is not in the registry and as Updated when it is." *)
Definition every_id_classified_once (self : EventStream)
    (data : list RawDevice) : Prop :=
  let evs := new_events self (poll_pass (Fetched data) self).1 in
  forall dev, dev ∈ data ->
    let dev_id := id (get_hs_device dev) in
    times_classified dev_id evs = 1%nat
    /\ (dev_id ∉ registry (_bridge self) ->
        List.length (events_about EventType.RESOURCE_ADDED dev_id evs) = 1%nat)
    /\ (dev_id ∈ registry (_bridge self) ->
        List.length (events_about EventType.RESOURCE_UPDATED dev_id evs) = 1%nat).

(** "A fetched device whose id is not in the registry and whose class
    is not tracked is never inserted into the registry." *)
Definition untracked_never_inserted (self : EventStream)
    (data : list RawDevice) : Prop :=
  forall dev, dev ∈ data ->
    let hs_dev := get_hs_device dev in
    id hs_dev ∉ registry (_bridge self) ->
    device_class hs_dev ∉ tracked_classes (_bridge self) ->
    id hs_dev ∉ _known_devs (_bridge (poll_pass (Fetched data) self).1).

(** *** Vocabulary for statements about [emit] *)

(** A subscription that neither [continue] skips. *)
Definition matches (event_type : EventType.t) (data : option HubSpaceEvent)
    (sub : Subscription) : bool :=
  negb (skipped_by_event_filter sub event_type)
  && negb (skipped_by_resource_filter sub data).

(** The invocation [emit] makes for a subscription it does not skip. *)
Definition invocation (event_type : EventType.t) (data : option HubSpaceEvent)
    (sub : Subscription) : Invocation :=
  if is_coroutine (callback sub)
  then TaskCreated (cb_id (callback sub)) event_type data
  else Called (cb_id (callback sub)) event_type data.

Definition invoked_callback (c : Invocation) : nat :=
  match c with
  | Called cb _ _ | TaskCreated cb _ _ => cb
  end.

Definition invoked_event_type (c : Invocation) : EventType.t :=
  match c with
  | Called _ e _ | TaskCreated _ e _ => e
  end.

Definition times_invoked (cb : nat) (calls : list Invocation) : nat :=
  List.length (filter (fun c => invoked_callback c = cb) calls).

(** "A callback that raises does not keep the remaining callbacks from
    running, and nothing leaves [emit]." *)
Definition emit_isolates_callbacks (subs : list Subscription)
    (event_type : EventType.t) (data : option HubSpaceEvent) : Prop :=
  emit_loop subs event_type data
  = (invocation event_type data <$> filter (fun sub => matches event_type data sub = true) subs,
     None).

(** *** Vocabulary for statements about the engine *)

Definition resource_event (e : HubSpaceEvent) : Prop :=
  EventType.is_connection_event (type e) = false.

Definition resource_invocation (c : Invocation) : Prop :=
  EventType.is_connection_event (invoked_event_type c) = false.

(** What holds of the engine at every point of every schedule. *)
Record only_resource_events (g : Engine) : Prop := {
  ore_queue : Forall resource_event (_event_queue (stream g));
  ore_seen : Forall resource_invocation (seen g);
  ore_status : _status (stream g) <> EventStreamStatus.CONNECTED;
}.

(** What [emit] makes of one queued event when no callback raises: the
    invocation of every subscription that matches it, in order. *)
Definition deliveries (subs : list Subscription) (event : HubSpaceEvent)
  : list Invocation :=
  invocation (type event) (Some event)
    <$> filter (fun sub => matches (type event) (Some event) sub = true) subs.

(** Synchronous callbacks that return on every event. *)
Definition never_raise (subs : list Subscription) : Prop :=
  forall sub event_type data,
    sub ∈ subs -> is_coroutine (callback sub) = false ->
    cb_call (callback sub) event_type data = None.

(** "[emit] invokes exactly the subscribed callbacks whose filters
    match: a callback that is skipped is not invoked, every other one
    is invoked exactly once." *)
Definition invokes_exactly_matching (subs : list Subscription)
    (event_type : EventType.t) (data : option HubSpaceEvent) : Prop :=
  forall sub, sub ∈ subs ->
    times_invoked (cb_id (callback sub)) (emit_loop subs event_type data).1
    = if matches event_type data sub then 1%nat else 0%nat.

End Event.

(* ===================================================================== *)
(** ** Sample data for the concrete statements                            *)
(* ===================================================================== *)

Module Sample.
Import Py Device Models Bridge Event.

(** A fetched device with the given id and device class and no states. *)
Definition raw (dev_id dev_class : string) : RawDevice :=
  {| raw_id := dev_id; raw_deviceId := "parent-of-" +:+ dev_id;
     raw_friendlyName := dev_id; raw_children := [];
     raw_defaultImage := ""; raw_functions := []; raw_model := None;
     raw_deviceClass := dev_class; raw_defaultName := dev_class;
     raw_manufacturerName := None; raw_state_values := [] |}.

(** A bridge whose only initialized controller tracks lights. *)
Definition lights : Controller :=
  {| ITEM_CLS := "Light"; ITEM_TYPES := ["light"]; initialized := true;
     items := [] |}.

Definition bridge (known : gset string) : HubSpaceBridgeV1 :=
  {| _known_devs := known; _known_dev_classes := ∅; _controllers := [lights] |}.

Definition stream (known : gset string) : EventStream :=
  Event.__init__ (bridge known) 30.

(** A well-behaved synchronous callback and one that raises. *)
Definition quiet (n : nat) : Callback :=
  {| cb_id := n; is_coroutine := false; cb_call := fun _ _ => None |}.

Definition faulty (n : nat) : Callback :=
  {| cb_id := n; is_coroutine := false; cb_call := fun _ _ => Some KeyError |}.

Definition unfiltered (cb : Callback) : Subscription :=
  {| callback := cb; event_filter := None; resource_filter := None |}.

(** A subscription to one device class. *)
Definition for_class (cb : Callback) (dev_class : string) : Subscription :=
  {| callback := cb; event_filter := None;
     resource_filter := Some [dev_class] |}.

(** The [RESOURCE_UPDATED] event of a fetched device, and an event that
    carries no device. *)
Definition updated (dev : RawDevice) : HubSpaceEvent :=
  {| type := EventType.RESOURCE_UPDATED; ev_device_id := raw_id dev;
     device := Some (get_hs_device dev) |}.

Definition bare (dev_id : string) : HubSpaceEvent :=
  {| type := EventType.RESOURCE_UPDATED; ev_device_id := dev_id;
     device := None |}.

(** A fan with four speeds besides "off", as the service describes it,
    reporting [power] and [fan-speed]. *)
Definition speed_function : HubspaceFunction :=
  {| fn_functionClass := Some "fan-speed";
     fn_functionInstance := Some "fan-speed";
     fn_values := [ {| name := "speed-4-000" |}; {| name := "speed-4-25" |};
                    {| name := "speed-4-50" |}; {| name := "speed-4-75" |};
                    {| name := "speed-4-99" |} ] |}.

Definition fan_snapshot (speed_value : string) : HubspaceDevice :=
  get_hs_device
    {| raw_id := "fan-1"; raw_deviceId := "parent-of-fan-1";
       raw_friendlyName := "Ceiling fan"; raw_children := [];
       raw_defaultImage := "ceiling-fan-icon";
       raw_functions := [speed_function];
       raw_model := Some "CF-4"; raw_deviceClass := "fan";
       raw_defaultName := "Fan"; raw_manufacturerName := None;
       raw_state_values :=
         [ {| functionClass := "power"; value := VStr "on";
              lastUpdateTime := None; functionInstance := Some "fan-power" |};
           {| functionClass := "fan-speed"; value := VStr speed_value;
              lastUpdateTime := None;
              functionInstance := Some "fan-speed" |} ] |}.

(** The controller's store after [initialize_elem] on the fan at its
    lowest speed. *)
Definition fan_store : gmap string Fan :=
  (FanCtl.initialize_elem ∅ (fan_snapshot "speed-4-25")).1.

(** A connection that is lost for two polls in a row and comes back,
    the consumer running after every poll. *)
Definition outage : list Turn :=
  [Poll (Fetched [raw "x" "light"]); Consume;
   Poll (FetchRaised ClientError); Consume;
   Poll (FetchRaised ClientError); Consume;
   Poll (Fetched [raw "x" "light"]); Consume].

(** The fan "fan-1" again, with the given speed function and states. *)
Definition fan_reporting (func : HubspaceFunction)
    (sts : list HubspaceState) : HubspaceDevice :=
  get_hs_device
    {| raw_id := "fan-1"; raw_deviceId := "parent-of-fan-1";
       raw_friendlyName := "Ceiling fan"; raw_children := [];
       raw_defaultImage := "ceiling-fan-icon";
       raw_functions := [func];
       raw_model := Some "CF-4"; raw_deviceClass := "fan";
       raw_defaultName := "Fan"; raw_manufacturerName := None;
       raw_state_values := sts |}.

Definition power_state : HubspaceState :=
  {| functionClass := "power"; value := VStr "on";
     lastUpdateTime := None; functionInstance := Some "fan-power" |}.

Definition speed_state (speed_value : string) : HubspaceState :=
  {| functionClass := "fan-speed"; value := VStr speed_value;
     lastUpdateTime := None; functionInstance := Some "fan-speed" |}.

Definition reverse_state : HubspaceState :=
  {| functionClass := "fan-reverse"; value := VStr "forward";
     lastUpdateTime := None; functionInstance := Some "fan-reverse" |}.

(** The fan of [fan_snapshot], now reporting its direction as well. *)
Definition reversing_fan : HubspaceDevice :=
  fan_reporting speed_function
                [power_state; speed_state "speed-4-25"; reverse_state].

(** A fan whose four speeds are named without padding: 25, 50, 75 and
    100. *)
Definition unpadded_speed_function : HubspaceFunction :=
  {| fn_functionClass := Some "fan-speed";
     fn_functionInstance := Some "fan-speed";
     fn_values := [ {| name := "speed-4-000" |}; {| name := "speed-4-25" |};
                    {| name := "speed-4-50" |}; {| name := "speed-4-75" |};
                    {| name := "speed-4-100" |} ] |}.

Definition unpadded_fan (speed_value : string) : HubspaceDevice :=
  fan_reporting unpadded_speed_function
                [power_state; speed_state speed_value].

End Sample.

(* ===================================================================== *)
(** * Properties                                                          *)
(* ===================================================================== *)

(** ** util.py: positions and percentages *)

Section UtilFacts.
Import Py Util.
Context {T : Type} `{EqDecision T}.
Implicit Types (l : list T) (x : T).

Lemma index_first l x i :
  index l x = Some i ->
  l !! i = Some x /\ forall j, (j < i)%nat -> l !! j <> Some x.
Proof.
  revert i. induction l as [|y l IH]; intros i Hi; simpl in Hi; [done|].
  destruct (decide (y = x)) as [->|Hne].
  - injection Hi as <-. split; [done|]. intros j Hj. lia.
  - destruct (index l x) as [i'|] eqn:E; simpl in Hi; [|done].
    injection Hi as <-. destruct (IH i' eq_refl) as [Hl Hf].
    split; [done|]. intros [|j] Hj; simpl.
    + intros [= ->]. done.
    + apply Hf. lia.
Qed.

Lemma index_of_elem l x : x ∈ l -> is_Some (index l x).
Proof.
  induction 1 as [x l|x y l _ IH]; simpl.
  - rewrite decide_True by done. eauto.
  - destruct (decide (y = x)); [eauto|]. destruct IH as [i ->]. simpl. eauto.
Qed.

Lemma index_not_elem l x : x ∉ l -> index l x = None.
Proof.
  intros Hx. destruct (index l x) as [i|] eqn:E; [|done].
  apply index_first in E as [E _]. exfalso. apply Hx.
  by eapply list_elem_of_lookup_2.
Qed.

(** The upper bounds grow strictly along a list of at most 100 items. *)
Lemma upper_bound_strict (n i j : Z) :
  0 < n <= 100 -> 0 <= j < i ->
  ((j + 1) * 100) `div` n < ((i + 1) * 100) `div` n.
Proof.
  intros Hn Hji.
  assert (((j + 1) * 100 + 1 * n) `div` n <= ((i + 1) * 100) `div` n) as Hle
    by (apply Z.div_le_mono; lia).
  rewrite Z.div_add in Hle by lia. lia.
Qed.

(** The scan returns the item at position [k] of what is left when the
    percentage exceeds every earlier bound and not the one at [k]. *)
Lemma scan_upper_bounds_hit (rest : list T) :
  forall (offset n p : Z) (k : nat) x,
    rest !! k = Some x ->
    p <= ((offset + Z.of_nat k + 1) * 100) `div` n ->
    (forall j : nat, (j < k)%nat ->
                     ((offset + Z.of_nat j + 1) * 100) `div` n < p) ->
    scan_upper_bounds rest offset n p = Some x.
Proof.
  induction rest as [|y rest IH]; intros offset n p k x Hk Hle Hlt; [done|].
  simpl. destruct k as [|k]; simpl in Hk.
  - injection Hk as ->. rewrite decide_True; [done|].
    replace (offset + 1) with (offset + Z.of_nat 0 + 1) by lia. done.
  - rewrite decide_False.
    + apply (IH (offset + 1) n p k x Hk).
      * replace (offset + 1 + Z.of_nat k + 1)
          with (offset + Z.of_nat (S k) + 1) by lia. done.
      * intros j Hj.
        replace (offset + 1 + Z.of_nat j + 1)
          with (offset + Z.of_nat (S j) + 1) by lia.
        apply Hlt. lia.
    + specialize (Hlt O ltac:(lia)).
      replace (offset + Z.of_nat 0 + 1) with (offset + 1) in Hlt by lia. lia.
Qed.

Lemma to_percentage_raises l x :
  x ∉ l -> ordered_list_item_to_percentage l x = Raise ValueError.
Proof.
  intros Hx. unfold ordered_list_item_to_percentage.
  by rewrite decide_False.
Qed.

Lemma to_percentage_returns l x :
  x ∈ l ->
  exists i : nat,
    index l x = Some i /\
    ordered_list_item_to_percentage l x
    = Ok (((Z.of_nat i + 1) * 100) `div` Z.of_nat (List.length l)).
Proof.
  intros Hx. destruct (index_of_elem l x Hx) as [i Hi]. exists i.
  split; [done|]. unfold ordered_list_item_to_percentage.
  rewrite decide_True by done. by rewrite Hi.
Qed.

End UtilFacts.

Section RoundTrip.
Import Py Util.
Context {T : Type} `{EqDecision T}.

(** C9: for a list of at most 100 items and an item [x] occurring in
    it, encoding [x] as a percentage and decoding that percentage
    both return, and the decoding gives back [x]. *)
Theorem percentage_round_trip (l : list T) (x : T) :
  (List.length l <= 100)%nat -> x ∈ l ->
  exists p : Z,
    ordered_list_item_to_percentage l x = Ok p
    /\ percentage_to_ordered_list_item l p = Ok x.
Proof.
  intros Hlen Hx.
  destruct (to_percentage_returns l x Hx) as (i & Hi & Hp).
  destruct (index_first l x i Hi) as [Hl Hfirst].
  pose proof (lookup_lt_Some _ _ _ Hl) as Hlt.
  eexists. split; [exact Hp|].
  unfold percentage_to_ordered_list_item.
  rewrite decide_False by lia.
  erewrite (scan_upper_bounds_hit l 0 _ _ i x Hl); [done| |].
  - replace (0 + Z.of_nat i + 1) with (Z.of_nat i + 1) by lia. lia.
  - intros j Hj. replace (0 + Z.of_nat j + 1) with (Z.of_nat j + 1) by lia.
    apply upper_bound_strict; lia.
Qed.
End RoundTrip.

Lemma percentage_round_trip_witness :
  (List.length ["low"; "medium"; "high"; "very_high"] <= 100)%nat
  /\ "high" ∈ ["low"; "medium"; "high"; "very_high"]
  /\ exists p : Z,
      Util.ordered_list_item_to_percentage ["low"; "medium"; "high"; "very_high"] "high" = Py.Ok p
      /\ Util.percentage_to_ordered_list_item ["low"; "medium"; "high"; "very_high"] p = Py.Ok "high".
Proof.
  assert (Hlen : (List.length ["low"; "medium"; "high"; "very_high"] <= 100)%nat)
    by (simpl; lia).
  assert (Hin : "high" ∈ ["low"; "medium"; "high"; "very_high"])
    by (apply (bool_decide_unpack _); vm_compute; exact I).
  split; [exact Hlen|]. split; [exact Hin|].
  exact (percentage_round_trip _ _ Hlen Hin).
Defined.

(** ** fan.py: one state at a time *)

Section FanFacts.
Import Py Device Models FanCtl.
Implicit Types (cur : Fan) (st : HubspaceState) (keys : gset string).

Lemma eqv_refl (v : Py.value) : eqv v v = true.
Proof.
  destruct v; simpl; auto using Z.eqb_refl, String.eqb_refl.
  by destruct b.
Qed.

(** The setters change one feature and leave what states decode to. *)
Lemma current_set_on b cur m :
  current (set_on b cur) m
  = if String.eqb m "on" then Some (VBool b) else current cur m.
Proof. unfold current. simpl. by destruct (String.eqb m "on"). Qed.

Lemma current_set_speed f z cur m :
  current (set_speed f z cur) m
  = if String.eqb m "speed" then Some (VInt z) else current cur m.
Proof.
  unfold current. simpl.
  destruct (String.eqb m "speed") eqn:E; [|done].
  apply String.eqb_eq in E. by subst.
Qed.

Lemma current_set_forward b cur m :
  current (set_forward b cur) m
  = if String.eqb m "direction" then Some (VBool b) else current cur m.
Proof.
  unfold current. simpl.
  destruct (String.eqb m "direction") eqn:E; [|done].
  apply String.eqb_eq in E. by subst.
Qed.

Lemma current_set_enabled p b cur m :
  current (set_enabled p b cur) m
  = if String.eqb m "preset" then Some (VBool b) else current cur m.
Proof.
  unfold current. simpl.
  destruct (String.eqb m "preset") eqn:E; [|done].
  apply String.eqb_eq in E. by subst.
Qed.

Lemma current_set_available a cur m :
  current (set_available a cur) m
  = if String.eqb m "available" then Some a else current cur m.
Proof.
  unfold current. simpl.
  destruct (String.eqb m "available") eqn:E; [|done].
  apply String.eqb_eq in E. by subst.
Qed.

Lemma decoded_same_speeds cur cur' st :
  speeds <$> fan_speed cur' = speeds <$> fan_speed cur ->
  decoded cur' st = decoded cur st.
Proof.
  intros Hs. unfold decoded.
  destruct (fan_speed cur') as [f'|], (fan_speed cur) as [f|];
    simpl in Hs; try done.
  injection Hs as ->. done.
Qed.

Lemma key_set_none keys : keys = keys ∪ list_to_set (option_list (@None string)).
Proof. simpl. by rewrite (right_id_L ∅ (∪)). Qed.

Lemma key_set_some keys (k : string) :
  keys ∪ {[ k ]} = keys ∪ list_to_set (option_list (Some k)).
Proof. simpl. by rewrite (right_id_L ∅ (∪)). Qed.

Ltac other_features m k :=
  let E := fresh in
  destruct (String.eqb m k) eqn:E;
  [apply String.eqb_eq in E; subst m; congruence | reflexivity].

(** What one iteration of the loop does with a state the model takes. *)
Lemma update_state_spec cur keys st :
  accepts cur st ->
  exists cur',
    update_state cur keys st
    = Ok (cur', keys ∪ list_to_set (option_list (changed cur st)))
    /\ (changed cur st = None -> cur' = cur)
    /\ (forall n, changed cur st = Some n ->
                  exists v, decoded cur st = Some (n, v)
                            /\ current cur' n = Some v)
    /\ (forall m, changed cur st <> Some m -> current cur' m = current cur m)
    /\ (forall st', decoded cur' st' = decoded cur st').
Proof.
  intros Hacc. unfold accepts, tracked in Hacc.
  destruct (String.eqb (functionClass st) "power") eqn:Hpower.
  { destruct Hacc as (n & v & Hd & [c Hc]); [done|].
    assert (decoded cur st = Some ("on", VBool (eq_str (value st) "on")))
      as Hdec by (unfold decoded; by rewrite Hpower).
    rewrite Hdec in Hd. injection Hd as <- <-.
    unfold current in Hc. simpl in Hc.
    destruct (fan_on cur) as [f|] eqn:Hon; [|done]. injection Hc as <-.
    unfold update_state. rewrite Hpower, Hon.
    assert (changed cur st
            = if Bool.eqb (on f) (eq_str (value st) "on")
              then None else Some "on") as ->.
    { unfold changed. rewrite Hdec. unfold current. simpl. by rewrite Hon. }
    destruct (Bool.eqb (on f) (eq_str (value st) "on")) eqn:E; simpl negb; cbv iota.
    - exists cur. split_and!; try done.
      by rewrite <- key_set_none.
    - eexists. split_and!.
      + by rewrite <- key_set_some.
      + done.
      + intros n [= <-]. eexists. split; [done|]. by rewrite current_set_on.
      + intros m Hm. rewrite current_set_on. other_features m "on".
      + intros st'. by apply decoded_same_speeds. }
  destruct (String.eqb (functionClass st) "fan-speed") eqn:Hspeed.
  { destruct Hacc as (n & v & Hd & [c Hc]); [done|].
    unfold decoded in Hd. rewrite Hpower, Hspeed in Hd.
    destruct (fan_speed cur) as [f|] eqn:Hsp; [|done].
    destruct (Util.ordered_list_item_to_percentage (VStr <$> speeds f) (value st))
      as [p|] eqn:Hp; [|done].
    injection Hd as <- <-.
    assert (decoded cur st = Some ("speed", VInt p)) as Hdec
      by (unfold decoded; by rewrite Hpower, Hspeed, Hsp, Hp).
    unfold update_state. rewrite Hpower, Hspeed, Hsp, Hp.
    change (Ok p ≫= _) with
      (if negb (Z.eqb (speed f) p)
       then Ok (set_speed f p cur, keys ∪ {[ "speed" ]})
       else Ok (cur, keys)).
    assert (changed cur st
            = if Z.eqb (speed f) p then None else Some "speed") as ->.
    { unfold changed. rewrite Hdec. unfold current. simpl. by rewrite Hsp. }
    destruct (Z.eqb (speed f) p) eqn:E; simpl negb; cbv iota.
    - exists cur. split_and!; try done.
      by rewrite <- key_set_none.
    - eexists. split_and!.
      + by rewrite <- key_set_some.
      + done.
      + intros n [= <-]. eexists. split; [done|]. by rewrite current_set_speed.
      + intros m Hm. rewrite current_set_speed. other_features m "speed".
      + intros st'. apply decoded_same_speeds. simpl. by rewrite Hsp. }
  destruct (String.eqb (functionClass st) "fan-reverse") eqn:Hreverse.
  { destruct Hacc as (n & v & Hd & [c Hc]); [done|].
    assert (decoded cur st
            = Some ("direction", VBool (eq_str (value st) "forward")))
      as Hdec by (unfold decoded; by rewrite Hpower, Hspeed, Hreverse).
    rewrite Hdec in Hd. injection Hd as <- <-.
    unfold current in Hc. simpl in Hc.
    destruct (fan_direction cur) as [f|] eqn:Hdir; [|done]. injection Hc as <-.
    unfold update_state. rewrite Hpower, Hspeed, Hreverse, Hdir.
    assert (changed cur st
            = if Bool.eqb (forward f) (eq_str (value st) "forward")
              then None else Some "direction") as ->.
    { unfold changed. rewrite Hdec. unfold current. simpl. by rewrite Hdir. }
    destruct (Bool.eqb (forward f) (eq_str (value st) "forward")) eqn:E;
      simpl negb; cbv iota.
    - exists cur. split_and!; try done.
      by rewrite <- key_set_none.
    - eexists. split_and!.
      + by rewrite <- key_set_some.
      + done.
      + intros n [= <-]. eexists. split; [done|]. by rewrite current_set_forward.
      + intros m Hm. rewrite current_set_forward. other_features m "direction".
      + intros st'. by apply decoded_same_speeds. }
  destruct (String.eqb (functionClass st) "toggle"
            && in_known_presets (functionInstance st)) eqn:Htoggle.
  { destruct Hacc as (n & v & Hd & [c Hc]); [done|].
    assert (decoded cur st
            = Some ("preset", VBool (eq_str (value st) "enabled")))
      as Hdec by (unfold decoded; by rewrite Hpower, Hspeed, Hreverse, Htoggle).
    rewrite Hdec in Hd. injection Hd as <- <-.
    unfold current in Hc. simpl in Hc.
    destruct (fan_preset cur) as [f|] eqn:Hpre; [|done]. injection Hc as <-.
    unfold update_state. rewrite Hpower, Hspeed, Hreverse, Htoggle, Hpre.
    assert (changed cur st
            = if Bool.eqb (enabled f) (eq_str (value st) "enabled")
              then None else Some "preset") as ->.
    { unfold changed. rewrite Hdec. unfold current. simpl. by rewrite Hpre. }
    destruct (Bool.eqb (enabled f) (eq_str (value st) "enabled")) eqn:E;
      simpl negb; cbv iota.
    - exists cur. split_and!; try done.
      by rewrite <- key_set_none.
    - eexists. split_and!.
      + by rewrite <- key_set_some.
      + done.
      + intros n [= <-]. eexists. split; [done|]. by rewrite current_set_enabled.
      + intros m Hm. rewrite current_set_enabled. other_features m "preset".
      + intros st'. by apply decoded_same_speeds. }
  destruct (String.eqb (functionClass st) "available") eqn:Havail.
  { assert (decoded cur st = Some ("available", value st))
      as Hdec
        by (unfold decoded; by rewrite Hpower, Hspeed, Hreverse, Htoggle, Havail).
    unfold update_state. rewrite Hpower, Hspeed, Hreverse, Htoggle, Havail.
    assert (changed cur st
            = if eqv (fan_available cur) (value st)
              then None else Some "available") as ->.
    { unfold changed. rewrite Hdec. by unfold current. }
    destruct (eqv (fan_available cur) (value st)) eqn:E; simpl negb; cbv iota.
    - exists cur. split_and!; try done.
      by rewrite <- key_set_none.
    - eexists. split_and!.
      + by rewrite <- key_set_some.
      + done.
      + intros n [= <-]. eexists. split; [done|]. by rewrite current_set_available.
      + intros m Hm. rewrite current_set_available. other_features m "available".
      + intros st'. by apply decoded_same_speeds. }
  exists cur.
  assert (changed cur st = None) as ->.
  { unfold changed, decoded.
    by rewrite Hpower, Hspeed, Hreverse, Htoggle, Havail. }
  unfold update_state. rewrite Hpower, Hspeed, Hreverse, Htoggle, Havail.
  split_and!; try done. by rewrite <- key_set_none.
Qed.
End FanFacts.

(** ** The bridge's lazily filled properties *)

Section BridgeFacts.
Import Py Bridge.
Implicit Types (b : HubSpaceBridgeV1) (s : gset string).

Lemma set_known_devs_same b : set_known_devs (_known_devs b) b = b.
Proof. by destruct b. Qed.

Lemma set_known_dev_classes_same b :
  set_known_dev_classes (_known_dev_classes b) b = b.
Proof. by destruct b. Qed.

(** The property hands out the set object of the bridge it leaves. *)
Lemma tracked_devices_eq b :
  tracked_devices b = (set_known_devs (registry b) b, registry b).
Proof.
  unfold registry, tracked_devices.
  destruct (decide (_known_devs b = ∅)); simpl; [done|].
  by rewrite set_known_devs_same.
Qed.

Lemma registry_nonempty b : _known_devs b <> ∅ -> registry b = _known_devs b.
Proof.
  intros Hne. unfold registry, tracked_devices. by rewrite decide_False.
Qed.

Lemma tracked_device_classes_eq b :
  tracked_device_classes b
  = (set_known_dev_classes (device_classes b).2 b, tracked_classes b).
Proof.
  unfold tracked_classes, tracked_device_classes, device_classes.
  destruct (decide (_known_dev_classes b = ∅)); simpl; [done|].
  by rewrite set_known_dev_classes_same.
Qed.

(** The classes depend on the cache and the controllers only, and
    reading them again gives the same set. *)
Lemma tracked_classes_set_known_devs s b :
  tracked_classes (set_known_devs s b) = tracked_classes b.
Proof.
  unfold tracked_classes, tracked_device_classes, device_classes. simpl.
  by destruct (decide (_known_dev_classes b = ∅)).
Qed.

Lemma device_classes_stable b :
  (device_classes (set_known_dev_classes (device_classes b).2 b)).2
  = (device_classes b).2.
Proof.
  assert ((device_classes b).2
          = if decide (_known_dev_classes b = ∅)
            then foldl (fun acc controller =>
                          <[ITEM_CLS controller := ITEM_TYPES controller]> acc)
                       ∅ (controllers b)
            else _known_dev_classes b) as Hm.
  { unfold device_classes.
    destruct (decide (_known_dev_classes b = ∅)) as [->|]; done. }
  remember (device_classes b).2 as m eqn:Em. clear Em.
  unfold device_classes. simpl.
  destruct (decide (m = ∅)) as [He|Hne]; simpl; [|done].
  unfold controllers. simpl. fold (controllers b).
  destruct (decide (_known_dev_classes b = ∅)); subst m; [|done].
  by rewrite He at 1.
Qed.

Lemma tracked_classes_stable b :
  tracked_classes (set_known_dev_classes (device_classes b).2 b)
  = tracked_classes b.
Proof.
  unfold tracked_classes. rewrite !tracked_device_classes_eq. simpl.
  unfold tracked_classes, tracked_device_classes.
  destruct (device_classes (set_known_dev_classes _ b)) as [b1 c1] eqn:E1.
  pose proof (device_classes_stable b) as Hs. rewrite E1 in Hs. simpl in Hs.
  destruct (device_classes b) as [b2 c2] eqn:E2. simpl in *. by subst.
Qed.

Lemma registry_set_known_dev_classes m b :
  registry (set_known_dev_classes m b) = registry b.
Proof.
  unfold registry, tracked_devices. simpl.
  by destruct (decide (_known_devs b = ∅)).
Qed.

Lemma registry_set_nonempty s b :
  s <> ∅ -> registry (set_known_devs s b) = s.
Proof. intros Hs. by rewrite registry_nonempty. Qed.
End BridgeFacts.

Section PollFacts.
Import Py Device Bridge Event.
Implicit Types (self : EventStream) (acc : Classified) (dev : RawDevice).

Lemma classify_one_spec acc dev :
  let self := c_stream acc in
  let hs_dev := get_hs_device dev in
  let R := registry (_bridge self) in
  let C := tracked_classes (_bridge self) in
  let acc' := classify_one acc dev in
  _known_devs (_bridge (c_stream acc')) = R ∪ {[ id hs_dev ]}
  /\ registry (_bridge (c_stream acc')) = R ∪ {[ id hs_dev ]}
  /\ tracked_classes (_bridge (c_stream acc')) = C
  /\ _event_queue (c_stream acc')
     = _event_queue self ++ expected_events R C [hs_dev]
  /\ processed_ids acc'
     = processed_ids acc
       ++ (if decide (device_class hs_dev ∈ C) then [id hs_dev] else [])
  /\ skipped_ids acc'
     = skipped_ids acc
       ++ (if decide (device_class hs_dev ∈ C) then [] else [id hs_dev])
  /\ _status (c_stream acc') = _status self
  /\ _subscribers (c_stream acc') = _subscribers self.
Proof.
  intros self hs_dev R C acc'. subst acc'. unfold classify_one.
  fold self. fold hs_dev.
  rewrite tracked_devices_eq. fold R.
  set (b2 := set_known_devs (R ∪ {[ id hs_dev ]}) (_bridge self)).
  assert ((if decide (id hs_dev ∉ R)
           then (EventType.RESOURCE_ADDED,
                 add_device (id hs_dev) (set_known_devs R (_bridge self)))
           else (EventType.RESOURCE_UPDATED, set_known_devs R (_bridge self)))
          = (if decide (id hs_dev ∈ R) then EventType.RESOURCE_UPDATED
             else EventType.RESOURCE_ADDED, b2)) as ->.
  { subst b2. destruct (decide (id hs_dev ∈ R)) as [Hin|Hout].
    - rewrite decide_False by (intros ?; done).
      f_equal. f_equal. symmetry. rewrite (comm_L (∪)).
      apply subseteq_union_1_L. by apply singleton_subseteq_l.
    - rewrite decide_True by done. done. }
  rewrite tracked_device_classes_eq.
  assert (tracked_classes b2 = C) as HC
    by (subst b2; by rewrite tracked_classes_set_known_devs).
  rewrite HC.
  assert (R ∪ {[ id hs_dev ]} <> (∅ : gset string)) as Hne.
  { intros He. apply (not_elem_of_empty (C := gset string) (id hs_dev)).
    rewrite <- He. apply elem_of_union. right. by apply elem_of_singleton. }
  destruct (decide (device_class hs_dev ∈ C)) as [Hin|Hout].
  - rewrite decide_False by (intros ?; done). simpl.
    rewrite !(decide_True (P := device_class hs_dev ∈ C)) by done.
    rewrite !(right_id_L [] (++)).
    split_and!; try done.
    + rewrite registry_set_known_dev_classes. subst b2.
      apply registry_set_nonempty. exact Hne.
    + rewrite tracked_classes_stable. exact HC.
  - rewrite decide_True by done. simpl.
    rewrite !(decide_False (P := device_class hs_dev ∈ C)) by done.
    rewrite !(right_id_L [] (++)).
    split_and!; try done.
    + rewrite registry_set_known_dev_classes. subst b2.
      apply registry_set_nonempty. exact Hne.
    + rewrite tracked_classes_stable. exact HC.
Qed.

Lemma classify_spec dev_list : forall acc,
  let self := c_stream acc in
  let devs := get_hs_device <$> dev_list in
  let R := registry (_bridge self) in
  let C := tracked_classes (_bridge self) in
  let acc' := foldl classify_one acc dev_list in
  registry (_bridge (c_stream acc')) = R ∪ list_to_set (id <$> devs)
  /\ (dev_list <> [] ->
      _known_devs (_bridge (c_stream acc')) = R ∪ list_to_set (id <$> devs))
  /\ tracked_classes (_bridge (c_stream acc')) = C
  /\ _event_queue (c_stream acc')
     = _event_queue self ++ expected_events R C devs
  /\ processed_ids acc'
     = processed_ids acc
       ++ (id <$> filter (fun d => device_class d ∈ C) devs)
  /\ skipped_ids acc'
     = skipped_ids acc
       ++ (id <$> filter (fun d => device_class d ∉ C) devs)
  /\ _status (c_stream acc') = _status self
  /\ _subscribers (c_stream acc') = _subscribers self.
Proof.
  induction dev_list as [|dev dev_list IH]; intros acc; simpl.
  - split_and!; try done; try by rewrite (right_id_L [] (++)).
    by rewrite (right_id_L ∅ (∪)).
  - destruct (classify_one_spec acc dev)
      as (Hk & Hr & Hc & Hq & Hp & Hs & Hst & Hsub).
    destruct (IH (classify_one acc dev))
      as (Hr' & Hk' & Hc' & Hq' & Hp' & Hs' & Hst' & Hsub').
    rewrite Hr, Hc in *. simpl in Hq.
    split_and!.
    + rewrite Hr'. symmetry. apply (assoc_L (∪)).
    + intros _. destruct dev_list as [|dev' dev_list'].
      * simpl. rewrite Hk. by rewrite (right_id_L ∅ (∪)).
      * rewrite Hk' by done. symmetry. apply (assoc_L (∪)).
    + done.
    + rewrite Hq', Hq. rewrite (right_id_L [] (++)).
      by rewrite <- (assoc_L (++)).
    + rewrite Hp', Hp. rewrite <- (assoc_L (++)). f_equal.
      rewrite filter_cons. by destruct (decide (device_class _ ∈ _)).
    + rewrite Hs', Hs. rewrite <- (assoc_L (++)). f_equal.
      rewrite filter_cons.
      destruct (decide (device_class (get_hs_device dev) ∈ _)).
      * by rewrite decide_False by (intros ?; done).
      * by rewrite decide_True by done.
    + by rewrite Hst'.
    + by rewrite Hsub'.
Qed.

(** Once the set has changed size the iterator raises, whatever is
    left to visit. *)
Lemma find_missing_size_changed order used seen self :
  size (_known_devs (_bridge self)) <> used ->
  find_missing order used seen self = (self, Some RuntimeError).
Proof. intros Hne. destruct order; simpl; by rewrite decide_True. Qed.

(** The [else] clause removes the first missing id it meets and then
    ends in [RuntimeError]; it completes only when nothing is
    missing. *)
Lemma find_missing_spec order : forall seen self,
  (forall d, d ∈ order -> d ∈ _known_devs (_bridge self)) ->
  find_missing order (size (_known_devs (_bridge self))) seen self
  = match filter (fun d => d ∉ seen) order with
    | [] => (self, None)
    | dev_id :: _ =>
        (set_bridge
           (set_known_devs (_known_devs (_bridge self) ∖ {[ dev_id ]})
                           (_bridge self))
           (put_nowait (deleted_event dev_id) self),
         Some RuntimeError)
    end.
Proof.
  induction order as [|d order IH]; intros seen self Hin; simpl.
  - by rewrite decide_False by (intros ?; done).
  - rewrite decide_False by (intros ?; done).
    rewrite filter_cons.
    destruct (decide (d ∉ seen)) as [Hmiss|Hseen].
    + assert (d ∈ _known_devs (_bridge self)) as Hd
        by (apply Hin; left).
      unfold remove_device. simpl. rewrite decide_True by done.
      apply find_missing_size_changed. simpl.
      rewrite size_difference by (by apply singleton_subseteq_l).
      rewrite size_singleton.
      assert (size (_known_devs (_bridge self)) <> 0%nat) as Hpos.
      { intros Hz. apply size_empty_inv in Hz.
        apply (not_elem_of_empty (C := gset string) d).
        by rewrite <- (leibniz_equiv _ _ Hz). }
      lia.
    + apply IH. intros d' Hd'. apply Hin. by right.
Qed.
End PollFacts.

(** ** One pass of the reader *)

Section PassFacts.
Import Py Device Bridge Event.
Implicit Types (self : EventStream) (data : list RawDevice).

(** The ids the [else] clause compares with are those of the fetched
    list, processed or skipped. *)
Lemma seen_ids (C : gset string) (devs : list HubspaceDevice) (i : string) :
  i ∈ (id <$> filter (fun d => device_class d ∈ C) devs)
      ++ (id <$> filter (fun d => device_class d ∉ C) devs)
  <-> i ∈ id <$> devs.
Proof.
  rewrite elem_of_app, !list_elem_of_fmap. split.
  - intros [(d & -> & Hd)|(d & -> & Hd)];
      apply list_elem_of_filter in Hd as [_ Hd]; eauto.
  - intros (d & -> & Hd).
    destruct (decide (device_class d ∈ C)); [left|right];
      exists d; (split; [done|]); by apply list_elem_of_filter.
Qed.

Lemma missing_ids_spec self data d :
  d ∈ missing_ids self data
  <-> d ∈ registry (_bridge self) /\ d ∉ id <$> (get_hs_device <$> data).
Proof.
  unfold missing_ids. rewrite list_elem_of_filter, elem_of_elements.
  rewrite elem_of_union, elem_of_list_to_set. tauto.
Qed.

(** A successful fetch, observed: the queue gains the classification
    of the fetched list and then at most one [RESOURCE_DELETED]; the
    pass reaches its [sleep] only when no id is missing. *)
Lemma poll_pass_fetched self data :
  let R := registry (_bridge self) in
  let C := tracked_classes (_bridge self) in
  let devs := get_hs_device <$> data in
  let R' := R ∪ list_to_set (id <$> devs) in
  let self' := (poll_pass (Fetched data) self).1 in
  _subscribers self' = _subscribers self
  /\ registry (_bridge (c_stream (classify self data))) = R'
  /\ match missing_ids self data with
     | [] =>
         (poll_pass (Fetched data) self).2 = None
         /\ _event_queue self' = _event_queue self ++ expected_events R C devs
         /\ _known_devs (_bridge self') = R'
         /\ _status self' = EventStreamStatus.DISCONNECTED
     | dev_id :: _ =>
         (poll_pass (Fetched data) self).2 = Some RuntimeError
         /\ _event_queue self'
            = _event_queue self ++ expected_events R C devs
              ++ [deleted_event dev_id]
         /\ _known_devs (_bridge self') = R' ∖ {[ dev_id ]}
         /\ _status self' = _status self
     end.
Proof.
  intros R C devs R' self'. subst self'.
  unfold poll_pass.
  destruct (classify_spec data
              {| c_stream := self; processed_ids := []; skipped_ids := [] |})
    as (Hr & _ & Hc & Hq & Hp & Hs & Hst & Hsub).
  simpl in Hr, Hc, Hq, Hp, Hs, Hst, Hsub.
  fold (classify self data) in Hr, Hc, Hq, Hp, Hs, Hst, Hsub.
  fold R in Hr, Hq, Hp, Hs. fold C in Hc, Hq, Hp, Hs. fold devs in Hr, Hq, Hp, Hs.
  fold R' in Hr.
  rewrite tracked_devices_eq, Hr.
  set (self1 := set_bridge _ (c_stream (classify self data))).
  assert (_known_devs (_bridge self1) = R') as Hk by done.
  pose proof (find_missing_spec (elements R')
                (processed_ids (classify self data)
                 ++ skipped_ids (classify self data)) self1) as Hfm.
  rewrite Hk in Hfm. rewrite Hfm; clear Hfm.
  2: { intros d Hd. by apply elem_of_elements in Hd. }
  rewrite Hp, Hs.
  rewrite (list_filter_iff _ (fun d => d ∉ id <$> devs)).
  2: { intros d. by rewrite seen_ids. }
  unfold missing_ids. fold devs. fold R. fold R'.
  destruct (filter (fun d => d ∉ id <$> devs) (elements R'))
    as [|dev_id rest]; simpl.
  - split_and!; try done.
  - split_and!; try done.
    unfold self1. simpl. rewrite Hq. by rewrite <- (assoc_L (++)).
Qed.
End PassFacts.

(** ** What a classification contains *)

Section ClassificationFacts.
Import Py Device Bridge Event.
Implicit Types (R C : gset string) (devs : list HubspaceDevice).

Lemma new_events_app (self self' : EventStream) (evs : list HubSpaceEvent) :
  _event_queue self' = _event_queue self ++ evs -> new_events self self' = evs.
Proof. intros Hq. unfold new_events. rewrite Hq. by rewrite drop_app_length. Qed.

(** Each expected event carries a fetched snapshot of a tracked class,
    and is an addition or an update. *)
Lemma expected_events_elem R C devs e :
  e ∈ expected_events R C devs ->
  exists d, d ∈ devs /\ device e = Some d /\ ev_device_id e = id d
            /\ device_class d ∈ C
            /\ (type e = EventType.RESOURCE_ADDED
                \/ type e = EventType.RESOURCE_UPDATED).
Proof.
  revert R. induction devs as [|d devs IH]; intros R He; simpl in He.
  - by apply elem_of_nil in He.
  - apply elem_of_app in He as [He|He].
    + destruct (decide (device_class d ∈ C)); [|by apply elem_of_nil in He].
      apply list_elem_of_singleton in He as ->. exists d. simpl.
      split_and!; try done; [left|].
      destruct (decide (id d ∈ R)); auto.
    + destruct (IH _ He) as (d' & Hd' & Hrest). exists d'.
      split; [by right|done].
Qed.

(** One event per snapshot of a tracked class, in fetch order. *)
Lemma expected_events_ids R C devs :
  ev_device_id <$> expected_events R C devs
  = id <$> filter (fun d => device_class d ∈ C) devs.
Proof.
  revert R. induction devs as [|d devs IH]; intros R; simpl; [done|].
  rewrite fmap_app, IH, filter_cons.
  by destruct (decide (device_class d ∈ C)).
Qed.

(** An id the registry holds is never classified as added. *)
Lemma expected_events_known_not_added R C devs i :
  i ∈ R -> events_about EventType.RESOURCE_ADDED i (expected_events R C devs) = [].
Proof.
  revert R. induction devs as [|d devs IH]; intros R Hi; simpl; [done|].
  unfold events_about in *. rewrite filter_app.
  rewrite IH by (apply elem_of_union; by left).
  rewrite (right_id_L [] (++)).
  destruct (decide (device_class d ∈ C)); [|done].
  rewrite filter_cons. simpl.
  destruct (decide (id d ∈ R)) as [|Hout].
  - rewrite decide_False; [done|]. by intros [? _].
  - rewrite decide_False; [done|]. intros [_ ?]. simpl in *. by subst.
Qed.

(** No id is classified as added twice. *)
Lemma expected_events_added_once R C devs i :
  (List.length (events_about EventType.RESOURCE_ADDED i (expected_events R C devs))
   <= 1)%nat.
Proof.
  revert R. induction devs as [|d devs IH]; intros R; simpl; [lia|].
  unfold events_about in *. rewrite filter_app, length_app.
  destruct (decide (device_class d ∈ C /\ id d = i /\ id d ∉ R))
    as [(Hc & Hi & Hr)|Hno].
  - pose proof (expected_events_known_not_added (R ∪ {[ id d ]}) C devs i) as Hz.
    unfold events_about in Hz. rewrite Hz.
    + rewrite decide_True by done. rewrite filter_cons. simpl.
      destruct (decide _); simpl; lia.
    + apply elem_of_union. right. by apply elem_of_singleton.
  - specialize (IH (R ∪ {[ id d ]})).
    destruct (decide (device_class d ∈ C)) as [Hc|]; simpl; [|lia].
    rewrite filter_cons. simpl.
    rewrite decide_False; [simpl; lia|].
    intros [Hty Hid]. simpl in *. apply Hno. split_and!; try done.
    intros Hin. by rewrite decide_True in Hty.
Qed.

(** A snapshot whose id the registry holds is classified as updated. *)
Lemma expected_events_known_updated R C devs e :
  e ∈ expected_events R C devs -> ev_device_id e ∈ R ->
  type e = EventType.RESOURCE_UPDATED.
Proof.
  revert R. induction devs as [|d devs IH]; intros R He Hi; simpl in He.
  - by apply elem_of_nil in He.
  - apply elem_of_app in He as [He|He].
    + destruct (decide (device_class d ∈ C)); [|by apply elem_of_nil in He].
      apply list_elem_of_singleton in He as ->. simpl in *.
      by rewrite decide_True.
    + apply (IH _ He). apply elem_of_union. by left.
Qed.

End ClassificationFacts.

(** ** The reader: what a pass does to the queue and the registry *)

Section ReaderClaims.
Import Py Device Bridge Event.
Implicit Types (self : EventStream) (data : list RawDevice).

Lemma events_about_deleted_event (event_type : EventType.t) (i : string)
    (ds : list string) :
  event_type <> EventType.RESOURCE_DELETED ->
  events_about event_type i (deleted_event <$> ds) = [].
Proof.
  intros Hne. induction ds as [|d ds IH]; [done|].
  unfold events_about in *. rewrite fmap_cons, filter_cons. simpl.
  rewrite decide_False; [done|]. intros [Hty _]. by apply Hne.
Qed.

Lemma events_about_expected_deleted R C devs (i : string) :
  events_about EventType.RESOURCE_DELETED i (expected_events R C devs) = [].
Proof.
  unfold events_about.
  destruct (filter _ _) as [|e l] eqn:E; [done|]. exfalso.
  assert (e ∈ filter (fun e => type e = EventType.RESOURCE_DELETED
                               /\ ev_device_id e = i)
                     (expected_events R C devs)) as He
    by (rewrite E; left).
  apply list_elem_of_filter in He as [[Hty _] He].
  apply expected_events_elem in He as (d & _ & _ & _ & _ & [H|H]);
    congruence.
Qed.

(** C1: when the fetch of a poll raises, the pass enqueues nothing (so
    no [RESOURCE_DELETED]) and leaves the bridge, hence the registry of
    tracked ids, as it was, whatever the registry held; the errors the
    handler catches ([ClientError], [asyncio.TimeoutError]) do not end
    the reader, any other one is raised again. *)
Theorem failed_fetch_keeps_registry self (err : exn) :
  let pass := poll_pass (FetchRaised err) self in
  _bridge pass.1 = _bridge self
  /\ registry (_bridge pass.1) = registry (_bridge self)
  /\ _event_queue pass.1 = _event_queue self
  /\ new_events self pass.1 = []
  /\ pass.2 = (if caught_as_transient err then None else Some err).
Proof.
  simpl. unfold poll_pass.
  destruct (caught_as_transient err); simpl;
    (split_and!; try done; unfold new_events; simpl; by rewrite drop_all).
Qed.

(** C2, as the code has it: the classification loop enqueues, in fetch
    order, exactly one event per fetched snapshot of a tracked class,
    [RESOURCE_ADDED] when its id is neither in the registry nor carried
    by an earlier snapshot of the list and [RESOURCE_UPDATED] otherwise
    (so no id is added twice, and a second snapshot with the same id is
    an update); snapshots of other classes enqueue nothing; and every
    id classified [RESOURCE_DELETED] was in the registry, is carried by
    no fetched snapshot, is classified so once and is gone from the
    registry. *)
Theorem poll_classification self data :
  let R := registry (_bridge self) in
  let C := tracked_classes (_bridge self) in
  let devs := get_hs_device <$> data in
  let pass := poll_pass (Fetched data) self in
  let evs := new_events self pass.1 in
  exists deleted : list string,
    evs = expected_events R C devs ++ (deleted_event <$> deleted)
    /\ ev_device_id <$> expected_events R C devs
       = id <$> filter (fun d => device_class d ∈ C) devs
    /\ (forall i,
          (List.length (events_about EventType.RESOURCE_ADDED i evs) <= 1)%nat)
    /\ (forall i, i ∈ R -> events_about EventType.RESOURCE_ADDED i evs = [])
    /\ (forall e, e ∈ expected_events R C devs -> ev_device_id e ∈ R ->
                  type e = EventType.RESOURCE_UPDATED)
    /\ NoDup deleted
    /\ (forall i, i ∈ deleted ->
          i ∈ R /\ (i ∉ id <$> devs)
          /\ (i ∉ _known_devs (_bridge pass.1))
          /\ events_about EventType.RESOURCE_DELETED i evs = [deleted_event i]).
Proof.
  intros R C devs pass evs.
  destruct (poll_pass_fetched self data) as (_ & _ & Hpass).
  fold R C devs in Hpass. fold pass in Hpass.
  assert (forall ds, evs = expected_events R C devs ++ (deleted_event <$> ds) ->
            (forall i, (List.length (events_about EventType.RESOURCE_ADDED i evs)
                        <= 1)%nat)
            /\ (forall i, i ∈ R ->
                          events_about EventType.RESOURCE_ADDED i evs = []))
    as Hadded.
  { intros ds ->. split; intros i.
    - unfold events_about. rewrite filter_app.
      fold (events_about EventType.RESOURCE_ADDED i (deleted_event <$> ds)).
      rewrite events_about_deleted_event by done.
      rewrite (right_id_L [] (++)). apply expected_events_added_once.
    - intros Hi. unfold events_about. rewrite filter_app.
      fold (events_about EventType.RESOURCE_ADDED i (deleted_event <$> ds)).
      rewrite events_about_deleted_event by done.
      rewrite (right_id_L [] (++)). by apply expected_events_known_not_added. }
  destruct (missing_ids self data) as [|d rest] eqn:Hmiss.
  - destruct Hpass as (_ & Hq & _ & _).
    apply new_events_app in Hq. fold evs in Hq.
    exists []. rewrite fmap_nil, (right_id_L [] (++)).
    destruct (Hadded []) as [H1 H2];
      [simpl; by rewrite (right_id_L [] (++))|].
    split_and!; try done.
    + apply expected_events_ids.
    + apply expected_events_known_updated.
    + constructor.
    + intros i Hi. by apply elem_of_nil in Hi.
  - destruct Hpass as (_ & Hq & Hk & _).
    apply new_events_app in Hq. fold evs in Hq.
    exists [d]. destruct (Hadded [d]) as [H1 H2]; [done|].
    split_and!; try done.
    + apply expected_events_ids.
    + apply expected_events_known_updated.
    + apply NoDup_singleton.
    + intros i Hi. apply list_elem_of_singleton in Hi as ->.
      assert (d ∈ missing_ids self data) as Hd by (rewrite Hmiss; left).
      apply missing_ids_spec in Hd as [HdR Hdn].
      split_and!; try done.
      * rewrite Hk. intros Hin. apply elem_of_difference in Hin as [_ Hin].
        apply Hin. by apply elem_of_singleton.
      * rewrite Hq. unfold events_about. rewrite filter_app.
        fold (events_about EventType.RESOURCE_DELETED d
                (expected_events R C devs)).
        rewrite events_about_expected_deleted. simpl.
        rewrite filter_cons. simpl. by rewrite decide_True.
Qed.

(** C5, as the code has it: every fetched id is put into the registry
    when it is not there, before the class is looked at, so a device of
    a class that is not tracked is skipped silently (no event carries
    it, its id goes to the skipped ids) and yet is in the registry after
    the pass; the registry afterwards holds nothing but ids it held
    before or fetched in this poll, and an id classified
    [RESOURCE_DELETED] is no longer in it. *)
Theorem fetched_ids_enter_registry self data :
  let R := registry (_bridge self) in
  let C := tracked_classes (_bridge self) in
  let devs := get_hs_device <$> data in
  let pass := poll_pass (Fetched data) self in
  let evs := new_events self pass.1 in
  registry (_bridge (c_stream (classify self data)))
  = R ∪ list_to_set (id <$> devs)
  /\ (forall d, d ∈ devs -> id d ∈ _known_devs (_bridge pass.1))
  /\ (forall d, d ∈ devs -> device_class d ∉ C ->
                id d ∈ skipped_ids (classify self data))
  /\ (forall e d, e ∈ evs -> device e = Some d -> device_class d ∈ C)
  /\ _known_devs (_bridge pass.1) ⊆ R ∪ list_to_set (id <$> devs)
  /\ (forall e, e ∈ evs -> type e = EventType.RESOURCE_DELETED ->
                ev_device_id e ∉ _known_devs (_bridge pass.1)).
Proof.
  intros R C devs pass evs.
  destruct (poll_pass_fetched self data) as (_ & Hreg & Hpass).
  fold R C devs in Hpass, Hreg. fold pass in Hpass.
  destruct (classify_spec data
              {| c_stream := self; processed_ids := []; skipped_ids := [] |})
    as (_ & _ & _ & _ & _ & Hs & _).
  simpl in Hs. fold (classify self data) in Hs. fold C devs in Hs.
  assert (forall e d, e ∈ expected_events R C devs -> device e = Some d ->
                      device_class d ∈ C) as Hexp.
  { intros e d He Hd.
    apply expected_events_elem in He as (d' & _ & Hd' & _ & Hc & _).
    congruence. }
  assert (forall e, e ∈ expected_events R C devs ->
                    type e <> EventType.RESOURCE_DELETED) as Hnd.
  { intros e He.
    apply expected_events_elem in He as (d' & _ & _ & _ & _ & [H|H]);
      congruence. }
  split; [done|].
  assert (forall d, d ∈ devs -> device_class d ∉ C ->
                    id d ∈ skipped_ids (classify self data)) as Hskip.
  { intros d Hd Hc. rewrite Hs. apply list_elem_of_fmap. exists d.
    split; [done|]. by apply list_elem_of_filter. }
  destruct (missing_ids self data) as [|m rest] eqn:Hmiss.
  - destruct Hpass as (_ & Hq & Hk & _).
    apply new_events_app in Hq. fold evs in Hq. rewrite Hq, Hk.
    split_and!; try done.
    + intros d Hd. apply elem_of_union. right.
      apply elem_of_list_to_set, list_elem_of_fmap. eauto.
    + intros e He Hty. by apply Hnd in He.
  - destruct Hpass as (_ & Hq & Hk & _).
    apply new_events_app in Hq. fold evs in Hq. rewrite Hq, Hk.
    assert (m ∈ missing_ids self data) as Hm by (rewrite Hmiss; left).
    apply missing_ids_spec in Hm as [HmR Hmn]. fold devs in Hmn.
    split_and!; try done.
    + intros d Hd. apply elem_of_difference. split.
      * apply elem_of_union. right.
        apply elem_of_list_to_set, list_elem_of_fmap. eauto.
      * intros Heq. apply elem_of_singleton in Heq. apply Hmn.
        apply list_elem_of_fmap. eauto.
    + intros e d He Hd. apply elem_of_app in He as [He|He]; [eauto|].
      apply list_elem_of_singleton in He. by subst e.
    + intros i Hi. by apply elem_of_difference in Hi as [Hi _].
    + intros e He Hty. apply elem_of_app in He as [He|He].
      * by apply Hnd in He.
      * apply list_elem_of_singleton in He. subst e. simpl.
        intros Hin. apply elem_of_difference in Hin as [_ Hin].
        apply Hin. by apply elem_of_singleton.
Qed.

End ReaderClaims.

Section ReaderExamples.
Import Py Device Bridge Event.

(** C2 as stated fails on a list that carries the same id twice: the id
    is classified twice, once [RESOURCE_ADDED] and once
    [RESOURCE_UPDATED]; and on a device of a class that is not tracked,
    which is not classified at all. *)
Lemma duplicate_id_is_classified_twice :
  ~ every_id_classified_once
      (Sample.stream ∅) [Sample.raw "a" "light"; Sample.raw "a" "light"]
  /\ ~ every_id_classified_once
        (Sample.stream ∅) [Sample.raw "t" "thermostat"].
Proof.
  split; intros H.
  - destruct (H (Sample.raw "a" "light") ltac:(left)) as [Hn _].
    vm_compute in Hn. discriminate.
  - destruct (H (Sample.raw "t" "thermostat") ltac:(left)) as [Hn _].
    vm_compute in Hn. discriminate.
Qed.

Example duplicate_id_events :
  map (fun e => (type e, ev_device_id e))
      (new_events (Sample.stream ∅)
         (poll_pass (Fetched [Sample.raw "a" "light"; Sample.raw "a" "light"])
                    (Sample.stream ∅)).1)
  = [(EventType.RESOURCE_ADDED, "a"); (EventType.RESOURCE_UPDATED, "a")].
Proof. vm_compute. reflexivity. Qed.

(** C5 as stated fails on a fetched device of a class that is not
    tracked: its id is in the registry after the pass. *)
Lemma untracked_device_is_inserted :
  ~ untracked_never_inserted (Sample.stream ∅) [Sample.raw "t" "thermostat"].
Proof.
  intros H.
  apply (H (Sample.raw "t" "thermostat") ltac:(left)).
  - apply (bool_decide_unpack _). vm_compute. exact I.
  - apply (bool_decide_unpack _). vm_compute. exact I.
  - apply (bool_decide_unpack _). vm_compute. exact I.
Qed.

(** Scenario A: an empty registry and one fetched light give one
    [RESOURCE_ADDED] and a registry of one entry. *)
Example first_poll_adds_light :
  let pass := poll_pass (Fetched [Sample.raw "l" "light"]) (Sample.stream ∅) in
  map (fun e => (type e, ev_device_id e)) (_event_queue pass.1)
  = [(EventType.RESOURCE_ADDED, "l")]
  /\ _known_devs (_bridge pass.1) = {[ "l" ]}
  /\ pass.2 = None.
Proof. vm_compute. split_and!; reflexivity. Qed.

(** The [else] clause at work on two missing ids: one of them is
    classified [RESOURCE_DELETED] and removed, then the loop over the
    shrunk set raises and the other stays in the registry. *)
Example two_missing_ids_one_deleted :
  let pass := poll_pass (Fetched []) (Sample.stream ({[ "x" ]} ∪ {[ "y" ]})) in
  List.length (_event_queue pass.1) = 1%nat
  /\ size (_known_devs (_bridge pass.1)) = 1%nat
  /\ pass.2 = Some RuntimeError.
Proof. vm_compute. split_and!; reflexivity. Qed.

End ReaderExamples.

(** ** emit *)

Section EmitFacts.
Import Py Device Bridge Event.
Implicit Types (subs : list Subscription) (sub : Subscription)
         (event_type : EventType.t) (data : option HubSpaceEvent).

Lemma filter_none {A} (P : A -> Prop) `{forall x, Decision (P x)} (l : list A) :
  (forall x, x ∈ l -> ~ P x) -> filter P l = [].
Proof.
  induction l as [|x l IH]; intros Hl; [done|].
  rewrite filter_cons, decide_False by (apply Hl; left).
  apply IH. intros y Hy. apply Hl. by right.
Qed.

(** [emit] passes on the event type it was given. *)
Lemma emit_loop_event_type subs event_type data c :
  c ∈ (emit_loop subs event_type data).1 -> invoked_event_type c = event_type.
Proof.
  induction subs as [|sub subs IH]; simpl; [by intros ?%elem_of_nil|].
  destruct (skipped_by_event_filter sub event_type); [done|].
  destruct (skipped_by_resource_filter sub data); [done|].
  destruct (is_coroutine (callback sub)).
  - destruct (emit_loop subs event_type data) as [calls r]. simpl in *.
    intros [->|Hc]%elem_of_cons; [done|auto].
  - destruct (cb_call (callback sub) event_type data).
    + simpl. by intros ->%list_elem_of_singleton.
    + destruct (emit_loop subs event_type data) as [calls r]. simpl in *.
      intros [->|Hc]%elem_of_cons; [done|auto].
Qed.

(** When no synchronous callback that is reached raises, every
    subscription that matches is invoked, in order, and no other. *)
Lemma emit_loop_matching subs event_type data :
  (forall sub, sub ∈ subs -> matches event_type data sub = true ->
               is_coroutine (callback sub) = false ->
               cb_call (callback sub) event_type data = None) ->
  emit_loop subs event_type data
  = (invocation event_type data
       <$> filter (fun sub => matches event_type data sub = true) subs,
     None).
Proof.
  induction subs as [|sub subs IH]; intros Hquiet; simpl; [done|].
  specialize (IH (fun s Hs => Hquiet s (list_elem_of_further _ _ _ Hs))).
  rewrite filter_cons, IH.
  destruct (skipped_by_event_filter sub event_type) eqn:Hef.
  { rewrite decide_False; [done|]. unfold matches. by rewrite Hef. }
  destruct (skipped_by_resource_filter sub data) eqn:Hrf.
  { rewrite decide_False; [done|]. unfold matches. by rewrite Hef, Hrf. }
  assert (matches event_type data sub = true) as Hm
    by (unfold matches; by rewrite Hef, Hrf).
  rewrite decide_True by done. rewrite fmap_cons.
  destruct (is_coroutine (callback sub)) eqn:Hco.
  - assert (invocation event_type data sub
            = TaskCreated (cb_id (callback sub)) event_type data) as ->
      by (unfold invocation; by rewrite Hco).
    done.
  - assert (invocation event_type data sub
            = Called (cb_id (callback sub)) event_type data) as ->
      by (unfold invocation; by rewrite Hco).
    rewrite Hquiet; [done|by left|done|done].
Qed.

(** A synchronous callback that raises ends [emit]: the subscriptions
    after it are not visited. *)
Lemma emit_loop_raises sub subs event_type data (e : exn) :
  matches event_type data sub = true ->
  is_coroutine (callback sub) = false ->
  cb_call (callback sub) event_type data = Some e ->
  emit_loop (sub :: subs) event_type data
  = ([Called (cb_id (callback sub)) event_type data], Some e).
Proof.
  unfold matches. intros [Hef Hrf]%andb_true_iff Hco Hcall. simpl.
  apply negb_true_iff in Hef, Hrf. by rewrite Hef, Hrf, Hco, Hcall.
Qed.

Lemma matches_spec event_type data sub :
  matches event_type data sub = true
  <-> (forall f, event_filter sub = Some f -> event_type ∈ f)
      /\ (forall d rf dev,
            data = Some d -> resource_filter sub = Some rf ->
            device d = Some dev -> device_class dev ∈ rf).
Proof.
  unfold matches, skipped_by_event_filter, skipped_by_resource_filter.
  rewrite andb_true_iff, !negb_true_iff. split.
  - intros [Hef Hrf]. split.
    + intros f Hf. rewrite Hf in Hef.
      apply bool_decide_eq_false in Hef. by apply dec_stable.
    + intros d rf dev -> Hr Hd. rewrite Hr, Hd in Hrf.
      apply bool_decide_eq_false in Hrf. by apply dec_stable.
  - intros [Hef Hrf]. split.
    + destruct (event_filter sub) as [f|]; [|done].
      apply bool_decide_eq_false. intros Hn. by apply Hn, Hef.
    + destruct data as [d|]; [|done].
      destruct (resource_filter sub) as [rf|]; [|done].
      destruct (device d) as [dev|] eqn:Hd; [|done].
      apply bool_decide_eq_false. intros Hn. by eapply Hn, Hrf.
Qed.

(** With distinct callbacks, the number of invocations of each. *)
Lemma times_invoked_matching subs event_type data sub :
  NoDup (cb_id ∘ callback <$> subs) -> sub ∈ subs ->
  times_invoked (cb_id (callback sub))
    (invocation event_type data
       <$> filter (fun s => matches event_type data s = true) subs)
  = if matches event_type data sub then 1%nat else 0%nat.
Proof.
  unfold times_invoked.
  induction subs as [|s subs IH]; intros Hnd Hin; [by apply elem_of_nil in Hin|].
  rewrite fmap_cons in Hnd. apply NoDup_cons in Hnd as [Hs Hnd].
  assert (forall s', s' ∈ subs ->
            invoked_callback (invocation event_type data s')
            = (cb_id ∘ callback) s') as Hcb
    by (intros s' _; unfold invocation; simpl;
        by destruct (is_coroutine (callback s'))).
  assert (forall s', invoked_callback (invocation event_type data s')
                     = cb_id (callback s')) as Hcb'
    by (intros s'; unfold invocation; by destruct (is_coroutine (callback s'))).
  apply elem_of_cons in Hin as [->|Hin].
  - rewrite filter_cons.
    assert (filter (fun c => invoked_callback c = cb_id (callback s))
              (invocation event_type data
                 <$> filter (fun s0 => matches event_type data s0 = true) subs)
            = []) as Hnone.
    { apply filter_none.
      intros c [s' [-> Hs']]%list_elem_of_fmap.
      apply list_elem_of_filter in Hs' as [_ Hs'].
      rewrite Hcb'. intros Heq. apply Hs.
      apply list_elem_of_fmap. exists s'. split; [simpl; congruence|done]. }
    destruct (matches event_type data s) eqn:Hm.
    + rewrite decide_True by done. rewrite fmap_cons, filter_cons.
      rewrite decide_True by apply Hcb'. simpl. by rewrite Hnone.
    + rewrite decide_False by (by intros ?). by rewrite Hnone.
  - rewrite filter_cons.
    assert (cb_id (callback s) <> cb_id (callback sub)) as Hne.
    { intros Heq. apply Hs. apply list_elem_of_fmap. exists sub.
      split; [simpl; congruence|done]. }
    destruct (decide (matches event_type data s = true)).
    + rewrite fmap_cons, filter_cons.
      rewrite decide_False by (by rewrite Hcb'). by apply IH.
    + by apply IH.
Qed.

End EmitFacts.

(** ** The two tasks together *)

Section EngineFacts.
Import Py Device Bridge Event.
Implicit Types (self : EventStream) (g : Engine).

Lemma expected_events_resource R C devs :
  Forall resource_event (expected_events R C devs).
Proof.
  apply Forall_forall. intros e He.
  apply expected_events_elem in He as (d & _ & _ & _ & _ & [H|H]);
    unfold resource_event; by rewrite H.
Qed.

(** A pass of the reader only ever enqueues resource events, and never
    sets the status to [CONNECTED]. *)
Lemma poll_pass_resource_events fetch self :
  Forall resource_event (_event_queue self) ->
  _status self <> EventStreamStatus.CONNECTED ->
  Forall resource_event (_event_queue (poll_pass fetch self).1)
  /\ _status (poll_pass fetch self).1 <> EventStreamStatus.CONNECTED
  /\ _subscribers (poll_pass fetch self).1 = _subscribers self.
Proof.
  intros Hq Hs. destruct fetch as [data|err].
  - destruct (poll_pass_fetched self data) as (Hsub & _ & Hpass).
    destruct (missing_ids self data);
      destruct Hpass as (_ & Hq' & _ & Hst); rewrite Hq', Hst;
      (split_and!; [|done|done]).
    + apply Forall_app. split; [done|apply expected_events_resource].
    + rewrite !Forall_app. split_and!; [done|apply expected_events_resource|].
      by apply Forall_singleton.
  - unfold poll_pass. by destruct (caught_as_transient err).
Qed.

Lemma turn_only_resource_events g (t : Turn) :
  only_resource_events g -> only_resource_events (turn g t).
Proof.
  intros [Hq Hseen Hst]. destruct t as [fetch|]; simpl.
  - destruct (reader_ended g); [by constructor|].
    destruct (poll_pass_resource_events fetch (stream g) Hq Hst)
      as (Hq' & Hst' & _).
    destruct (poll_pass fetch (stream g)) as [self' r]. simpl in *.
    by constructor.
  - destruct (processor_ended g); [by constructor|].
    unfold process_next.
    destruct (_event_queue (stream g)) as [|event queue] eqn:E;
      [constructor; by rewrite ?E|].
    apply Forall_cons in Hq as [He Hq].
    unfold emit. simpl.
    pose proof (emit_loop_event_type (_subscribers (stream g)) (type event)
                  (Some event)) as Hty.
    destruct (emit_loop _ _ _) as [calls r]. constructor; simpl; try done.
    apply Forall_app. split; [done|]. apply Forall_forall.
    intros c Hc. unfold resource_invocation. by rewrite (Hty c Hc).
Qed.

Lemma run_only_resource_events (schedule : list Turn) : forall g,
  only_resource_events g -> only_resource_events (run g schedule).
Proof.
  induction schedule as [|t schedule IH]; intros g Hg; [done|].
  apply IH. by apply turn_only_resource_events.
Qed.

End EngineFacts.

Section EngineClaims.
Import Py Device Bridge Event.

(** C3, on the code: the reader never calls [emit], and the consumer
    emits the resource events of the queue only, so whatever the polls
    return and however the two tasks are scheduled, subscribers see
    neither [DISCONNECTED] nor [CONNECTED] nor [RECONNECTED], and the
    status never becomes [CONNECTED].  Second part: the same on a
    connection lost for two polls and recovered. *)
Theorem connection_events_are_never_emitted :
  (forall bridge interval subs (schedule : list Turn),
     let g := run (initialize (set_subscribers subs (__init__ bridge interval)))
                  schedule in
     Forall resource_invocation (seen g) /\ connected (stream g) = false)
  /\ (let g := run (initialize
                      (set_subscribers [Sample.unfiltered (Sample.quiet 1)]
                                       (Sample.stream {[ "x" ]})))
                   Sample.outage in
      (fun c => (invoked_callback c, invoked_event_type c)) <$> seen g
      = [(1%nat, EventType.RESOURCE_UPDATED); (1%nat, EventType.RESOURCE_UPDATED)]
      /\ _status (stream g) = EventStreamStatus.DISCONNECTED
      /\ reader_ended g = None
      /\ _known_devs (_bridge (stream g)) = {[ "x" ]}).
Proof.
  split.
  - intros bridge interval subs schedule g.
    assert (only_resource_events g) as [_ Hseen Hst].
    { apply run_only_resource_events. by constructor. }
    split; [done|]. unfold connected. by apply bool_decide_eq_false.
  - vm_compute. split_and!; reflexivity.
Qed.

(** C4, on the code: [emit] calls a synchronous callback unguarded.
    With a raising callback subscribed before a quiet one, the
    exception leaves [emit], the second callback is not invoked, and
    the consumer task ends with the exception, the next event left in
    the queue. *)
Theorem raising_callback_ends_emit :
  let subs := [Sample.unfiltered (Sample.faulty 1);
               Sample.unfiltered (Sample.quiet 2)] in
  let first := Sample.bare "a" in
  let second := Sample.bare "b" in
  emit_loop subs EventType.RESOURCE_UPDATED (Some first)
  = ([Called 1 EventType.RESOURCE_UPDATED (Some first)], Some KeyError)
  /\ ~ emit_isolates_callbacks subs EventType.RESOURCE_UPDATED (Some first)
  /\ (let g := run (initialize
                      (set_event_queue [first; second]
                         (set_subscribers subs (Sample.stream ∅))))
                   [Consume; Consume] in
      seen g = [Called 1 EventType.RESOURCE_UPDATED (Some first)]
      /\ processor_ended g = Some KeyError
      /\ _event_queue (stream g) = [second]).
Proof.
  intros subs first second. split_and!.
  - reflexivity.
  - unfold emit_isolates_callbacks. vm_compute. discriminate.
  - vm_compute. split_and!; reflexivity.
Qed.

End EngineClaims.

Section EmitClaims.
Import Py Device Bridge Event.

(** Whether or not a callback raises, [emit] invokes subscriptions that
    match only, in order, each at most once. *)
Lemma emit_loop_prefix (subs : list Subscription) (event_type : EventType.t)
    (data : option HubSpaceEvent) :
  (emit_loop subs event_type data).1
  `prefix_of` invocation event_type data
                <$> filter (fun sub => matches event_type data sub = true) subs.
Proof.
  induction subs as [|sub subs IH]; simpl; [done|].
  rewrite filter_cons.
  destruct (skipped_by_event_filter sub event_type) eqn:Hef.
  { rewrite decide_False; [done|]. unfold matches. by rewrite Hef. }
  destruct (skipped_by_resource_filter sub data) eqn:Hrf.
  { rewrite decide_False; [done|]. unfold matches. by rewrite Hef, Hrf. }
  assert (matches event_type data sub = true) as Hm
    by (unfold matches; by rewrite Hef, Hrf).
  rewrite decide_True by done. rewrite fmap_cons.
  destruct (is_coroutine (callback sub)) eqn:Hco.
  - assert (invocation event_type data sub
            = TaskCreated (cb_id (callback sub)) event_type data) as ->
      by (unfold invocation; by rewrite Hco).
    destruct (emit_loop subs event_type data) as [calls r]. simpl in *.
    by apply prefix_cons.
  - assert (invocation event_type data sub
            = Called (cb_id (callback sub)) event_type data) as ->
      by (unfold invocation; by rewrite Hco).
    destruct (cb_call (callback sub) event_type data).
    + simpl. apply prefix_cons, prefix_nil.
    + destruct (emit_loop subs event_type data) as [calls r]. simpl in *.
      by apply prefix_cons.
Qed.

(** What [emit] does on every list of subscribers: it invokes
    subscriptions that match only, in registration order and never
    twice; and when no synchronous callback that it reaches raises, it
    invokes every subscription that matches, so each matching callback
    exactly once and no other.  A subscription
    matches when the event type is in its event filter (if it has one)
    and, if it has a resource filter and the event carries a device,
    the device's class is in that filter; an event without a device,
    or no event, passes every resource filter. *)
Theorem emit_invokes_matching_subscribers (self : EventStream)
    (event_type : EventType.t) (data : option HubSpaceEvent) :
  let matching :=
    filter (fun sub => matches event_type data sub = true)
           (_subscribers self) in
  (emit self event_type data).1 `prefix_of` invocation event_type data <$> matching
  /\ ((forall sub, sub ∈ _subscribers self ->
                   matches event_type data sub = true ->
                   is_coroutine (callback sub) = false ->
                   cb_call (callback sub) event_type data = None) ->
      emit self event_type data = (invocation event_type data <$> matching, None)
      /\ (NoDup (cb_id ∘ callback <$> _subscribers self) ->
          forall sub, sub ∈ _subscribers self ->
            times_invoked (cb_id (callback sub)) (emit self event_type data).1
            = if matches event_type data sub then 1%nat else 0%nat))
  /\ (forall sub,
        matches event_type data sub = true
        <-> (forall f, event_filter sub = Some f -> event_type ∈ f)
            /\ (forall d rf dev,
                  data = Some d -> resource_filter sub = Some rf ->
                  device d = Some dev -> device_class dev ∈ rf))
  /\ (forall sub,
        (data = None \/ exists d, data = Some d /\ device d = None) ->
        skipped_by_resource_filter sub data = false).
Proof.
  intros matching. split_and!.
  - apply emit_loop_prefix.
  - intros Hquiet.
    pose proof (emit_loop_matching (_subscribers self) event_type data Hquiet)
      as Hemit.
    split; [exact Hemit|].
    intros Hnd sub Hin. unfold emit. rewrite Hemit. simpl.
    by apply times_invoked_matching.
  - intros sub. apply matches_spec.
  - intros sub [->|(d & -> & Hd)]; unfold skipped_by_resource_filter; [done|].
    destruct (resource_filter sub); [|done]. by rewrite Hd.
Qed.

End EmitClaims.

Lemma emit_invokes_matching_subscribers_witness :
  let self :=
    Event.set_subscribers [Sample.for_class (Sample.quiet 1) "light";
                           Sample.for_class (Sample.quiet 2) "fan"]
                          (Sample.stream ∅) in
  let data := Some (Sample.updated (Sample.raw "l" "light")) in
  (forall sub, sub ∈ Event._subscribers self ->
               Event.matches EventType.RESOURCE_UPDATED data sub = true ->
               Event.is_coroutine (Event.callback sub) = false ->
               Event.cb_call (Event.callback sub) EventType.RESOURCE_UPDATED data
               = None)
  /\ Event.emit self EventType.RESOURCE_UPDATED data
     = ([Event.Called 1 EventType.RESOURCE_UPDATED data], None).
Proof.
  intros self data.
  assert (forall sub, sub ∈ Event._subscribers self ->
            Event.matches EventType.RESOURCE_UPDATED data sub = true ->
            Event.is_coroutine (Event.callback sub) = false ->
            Event.cb_call (Event.callback sub) EventType.RESOURCE_UPDATED data
            = None) as Hquiet.
  { intros sub Hin _ _. simpl in Hin.
    apply elem_of_cons in Hin as [->|Hin]; [reflexivity|].
    apply list_elem_of_singleton in Hin. subst sub. reflexivity. }
  split; [exact Hquiet|].
  destruct (emit_invokes_matching_subscribers self EventType.RESOURCE_UPDATED
              data) as (_ & Hcomplete & _).
  destruct (Hcomplete Hquiet) as [Hemit _].
  rewrite Hemit. vm_compute. reflexivity.
Defined.

(** Scenario D: a subscriber to lights is not invoked for a fan. *)
Example light_subscriber_skips_fan :
  Event.emit
    (Event.set_subscribers [Sample.for_class (Sample.quiet 1) "light"]
                           (Sample.stream ∅))
    EventType.RESOURCE_UPDATED (Some (Sample.updated (Sample.raw "f" "fan")))
  = ([], None).
Proof. vm_compute. reflexivity. Qed.

Section EmitStarves.
Import Py Device Bridge Event.

(** C7, on the code: a subscriber whose filters match is not invoked
    when a synchronous callback registered before it raises.  With the
    subscribers [f1; f2], both unfiltered and [f1] raising [KeyError],
    [f2] matches the event, yet [emit] invokes [f1] alone and the
    exception leaves it: [f2] is invoked zero times, not once. *)
Theorem raising_callback_starves_matching_subscriber :
  let subs := [Sample.unfiltered (Sample.faulty 1);
               Sample.unfiltered (Sample.quiet 2)] in
  let event := Sample.bare "a" in
  let self := set_subscribers subs (Sample.stream ∅) in
  matches EventType.RESOURCE_UPDATED (Some event)
          (Sample.unfiltered (Sample.quiet 2)) = true
  /\ emit self EventType.RESOURCE_UPDATED (Some event)
     = ([Called 1 EventType.RESOURCE_UPDATED (Some event)], Some KeyError)
  /\ times_invoked 2 (emit self EventType.RESOURCE_UPDATED (Some event)).1
     = 0%nat
  /\ ~ invokes_exactly_matching subs EventType.RESOURCE_UPDATED (Some event).
Proof.
  intros subs event self. split; [reflexivity|]. split; [reflexivity|].
  split; [reflexivity|].
  intros H. specialize (H (Sample.unfiltered (Sample.quiet 2))
                          ltac:(right; left)).
  by vm_compute in H.
Qed.

End EmitStarves.

(** ** fan.py: the loop of [update_elem] *)

Section FanLoopFacts.
Import Py Device Models FanCtl.
Implicit Types (cur : Fan) (st : HubspaceState) (keys : gset string)
         (sts : list HubspaceState).

Lemma changed_decoded cur st k :
  changed cur st = Some k -> exists v, decoded cur st = Some (k, v).
Proof.
  unfold changed. destruct (decoded cur st) as [[f v]|]; [|done].
  destruct (current cur f); [|done]. destruct (eqv _ _); [done|].
  intros [= <-]. eauto.
Qed.

Lemma decoded_tracked cur st p : decoded cur st = Some p -> tracked st = true.
Proof.
  unfold decoded, tracked.
  destruct (String.eqb (functionClass st) "power"); [done|].
  destruct (String.eqb (functionClass st) "fan-speed"); [done|].
  destruct (String.eqb (functionClass st) "fan-reverse"); [done|].
  destruct (String.eqb (functionClass st) "toggle"
            && in_known_presets (functionInstance st)); [done|].
  by destruct (String.eqb (functionClass st) "available").
Qed.

(** A state changes feature [k] of two models alike when they decode
    states alike and hold the same value for [k]. *)
Lemma changed_same_for cur cur' st k :
  (forall st', decoded cur' st' = decoded cur st') ->
  current cur' k = current cur k ->
  changed cur' st = Some k <-> changed cur st = Some k.
Proof.
  intros Hdec Hcur. unfold changed. rewrite Hdec.
  destruct (decoded cur st) as [[f v]|]; [|done].
  destruct (decide (f = k)) as [->|Hne]; [by rewrite Hcur|].
  split; intros H;
    [destruct (current cur' f)|destruct (current cur f)]; try done;
    destruct (eqv _ _); try done; congruence.
Qed.

Lemma elem_of_changed_keys cur sts k :
  k ∈ changed_keys cur sts <-> exists st, st ∈ sts /\ changed cur st = Some k.
Proof. unfold changed_keys. by rewrite elem_of_list_to_set, list_elem_of_omap. Qed.

Lemma changed_keys_cons cur st sts :
  changed_keys cur (st :: sts)
  = list_to_set (option_list (changed cur st)) ∪ changed_keys cur sts.
Proof.
  unfold changed_keys. simpl. destruct (changed cur st); simpl.
  - by rewrite (right_id_L ∅ (∪)).
  - by rewrite (left_id_L ∅ (∪)).
Qed.

Lemma elem_of_key_set (o : option string) (k : string) :
  k ∈ (list_to_set (option_list o) : gset string) <-> o = Some k.
Proof.
  destruct o as [k'|]; simpl.
  - rewrite (right_id_L ∅ (∪)), elem_of_singleton. split; congruence.
  - split; [by intros ?%not_elem_of_empty|done].
Qed.

(** The speed names of the model are fixed by [initialize_elem]; an
    update leaves them. *)
Lemma update_state_speeds cur keys st cur' keys' :
  update_state cur keys st = Ok (cur', keys') ->
  speeds <$> fan_speed cur' = speeds <$> fan_speed cur.
Proof.
  unfold update_state, mbind, result_bind, Py.bind. intros H.
  repeat case_match; simplify_eq; simpl; try done.
  all: by match goal with Hs : fan_speed _ = Some _ |- _ => rewrite Hs end.
Qed.

Lemma accepts_after cur cur' st :
  (forall st', decoded cur' st' = decoded cur st') ->
  (forall m, is_Some (current cur m) -> is_Some (current cur' m)) ->
  accepts cur st -> accepts cur' st.
Proof.
  intros Hdec Hcur Hacc Htr. destruct (Hacc Htr) as (f & v & Hd & Hc).
  exists f, v. rewrite Hdec. auto.
Qed.

(** The whole loop on a snapshot the model can take: it returns, the
    keys it adds are the features that some state changes with respect
    to the model the loop started from, and features outside that set
    keep their value. *)
Lemma update_states_spec sts : forall cur keys,
  (forall st, st ∈ sts -> accepts cur st) ->
  exists cur',
    update_states cur keys sts = (cur', Ok (keys ∪ changed_keys cur sts))
    /\ (forall st', decoded cur' st' = decoded cur st')
    /\ (forall m, m ∉ changed_keys cur sts -> current cur' m = current cur m)
    /\ (forall m, is_Some (current cur m) -> is_Some (current cur' m))
    /\ (changed_keys cur sts = ∅ -> cur' = cur).
Proof.
  induction sts as [|st sts IH]; intros cur keys Hacc.
  - exists cur. simpl. unfold changed_keys. simpl.
    rewrite (right_id_L ∅ (∪)). done.
  - destruct (update_state_spec cur keys st (Hacc st ltac:(left)))
      as (cur1 & Hstep & Hsame & Hset & Hother & Hdec).
    assert (forall m, is_Some (current cur m) -> is_Some (current cur1 m))
      as Hsome.
    { intros m Hm. destruct (decide (changed cur st = Some m)) as [Hc|Hc].
      - destruct (Hset m Hc) as (v & _ & ->). eauto.
      - by rewrite Hother. }
    destruct (IH cur1 (keys ∪ list_to_set (option_list (changed cur st))))
      as (cur' & Hloop & Hdec' & Hother' & Hsome' & Hsame').
    { intros st' Hst'. apply (accepts_after cur); [done|done|].
      apply Hacc. by right. }
    assert (forall k, changed cur st <> Some k ->
              (k ∈ changed_keys cur1 sts <-> k ∈ changed_keys cur sts))
      as Hkeys.
    { intros k Hk. rewrite !elem_of_changed_keys.
      split; intros (st' & Hin & Hch); exists st'; (split; [done|]);
        by apply (changed_same_for cur cur1 st' k Hdec (Hother k Hk)). }
    exists cur'. simpl. rewrite Hstep, Hloop. split_and!.
    + f_equal. f_equal. rewrite changed_keys_cons.
      rewrite <- (assoc_L (∪)). f_equal.
      apply set_eq. intros k. rewrite !elem_of_union, !elem_of_key_set.
      destruct (decide (changed cur st = Some k)) as [|Hk]; [tauto|].
      rewrite (Hkeys k Hk). tauto.
    + intros st'. by rewrite Hdec'.
    + intros m Hm. rewrite changed_keys_cons in Hm.
      apply not_elem_of_union in Hm as [Hm1 Hm2].
      rewrite elem_of_key_set in Hm1.
      rewrite Hother' by (by rewrite (Hkeys m Hm1)). by apply Hother.
    + auto.
    + intros Hempty. rewrite changed_keys_cons in Hempty.
      apply empty_union_L in Hempty as [He1 He2].
      assert (changed cur st = None) as Hnone.
      { destruct (changed cur st) as [k|] eqn:E; [|done]. exfalso.
        apply (not_elem_of_empty (C := gset string) k).
        rewrite <- He1. by apply elem_of_key_set. }
      rewrite (Hsame Hnone) in *. by apply Hsame'.
Qed.

End FanLoopFacts.

Section FanUpdateFacts.
Import Py Device Models FanCtl.
Implicit Types (cur : Fan) (st : HubspaceState) (keys : gset string)
         (sts : list HubspaceState).

Lemma update_states_speeds sts : forall cur keys cur' r,
  update_states cur keys sts = (cur', r) ->
  speeds <$> fan_speed cur' = speeds <$> fan_speed cur.
Proof.
  induction sts as [|st sts IH]; intros cur keys cur' r; simpl.
  - by intros [= <- _].
  - destruct (update_state cur keys st) as [[cur1 keys1]|e] eqn:E.
    + intros H. rewrite (IH _ _ _ _ H). by eapply update_state_speeds.
    + by intros [= <- _].
Qed.

(** A [fan-speed] state whose value the model does not know makes the
    iteration raise [ValueError]. *)
Lemma update_state_unknown_speed cur keys st f :
  fan_speed cur = Some f ->
  functionClass st = "fan-speed" ->
  value st ∉ VStr <$> speeds f ->
  update_state cur keys st = Raise ValueError.
Proof.
  intros Hf Hc Hv. unfold update_state. rewrite Hc. simpl. rewrite Hf.
  by rewrite to_percentage_raises.
Qed.

Lemma update_states_unknown_speed sts : forall cur keys f st,
  fan_speed cur = Some f ->
  st ∈ sts -> functionClass st = "fan-speed" ->
  value st ∉ VStr <$> speeds f ->
  raised (update_states cur keys sts).2.
Proof.
  induction sts as [|st0 sts IH]; intros cur keys f st Hf Hin Hc Hv.
  - by apply elem_of_nil in Hin.
  - simpl. destruct (update_state cur keys st0) as [[cur1 keys1]|e] eqn:E;
      [|done].
    apply elem_of_cons in Hin as [->|Hin].
    + by rewrite (update_state_unknown_speed cur keys st0 f) in E.
    + pose proof (update_state_speeds _ _ _ _ _ E) as Hs.
      rewrite Hf in Hs. simpl in Hs.
      destruct (fan_speed cur1) as [f1|] eqn:Hf1; [|done].
      injection Hs as Hs.
      apply (IH cur1 keys1 f1 st); try done. by rewrite Hs.
Qed.

(** When every state that addresses feature [m] decodes to [v], the
    model holds [v] for [m] after the loop, provided some state
    addresses [m] or the model held [v] already. *)
Lemma update_states_target sts m v : forall cur keys cur' r,
  (forall st, st ∈ sts -> accepts cur st) ->
  update_states cur keys sts = (cur', r) ->
  (forall st v', st ∈ sts -> decoded cur st = Some (m, v') -> v' = v) ->
  (exists st v', st ∈ sts /\ decoded cur st = Some (m, v'))
  \/ (exists w, current cur m = Some w /\ eqv w v = true) ->
  exists w, current cur' m = Some w /\ eqv w v = true.
Proof.
  induction sts as [|st sts IH]; intros cur keys cur' r Hacc Hrun Hval Hor.
  - simpl in Hrun. injection Hrun as <- _.
    destruct Hor as [(st & v' & Hin & _)|Hw]; [|done].
    by apply elem_of_nil in Hin.
  - destruct (update_state_spec cur keys st (Hacc st ltac:(left)))
      as (cur1 & Hstep & Hsame & Hset & Hother & Hdec).
    simpl in Hrun. rewrite Hstep in Hrun.
    assert (forall m', is_Some (current cur m') -> is_Some (current cur1 m'))
      as Hsome.
    { intros m' Hm. destruct (decide (changed cur st = Some m')) as [Hc|Hc].
      - destruct (Hset m' Hc) as (v0 & _ & ->). eauto.
      - by rewrite Hother. }
    apply (IH cur1 (keys ∪ list_to_set (option_list (changed cur st))) cur' r);
      [| exact Hrun | |].
    + intros st' Hst'. apply (accepts_after cur); [done|done|].
      apply Hacc. by right.
    + intros st' v' Hin. rewrite Hdec. apply Hval. by right.
    + destruct (decoded cur st) as [[f v']|] eqn:Hd.
      * destruct (decide (f = m)) as [->|Hne].
        -- right. assert (v' = v) as -> by (apply (Hval st); [left|done]).
           destruct (Hacc st ltac:(left)) as (n & v0 & Hd' & [old Hold]);
             [by eapply decoded_tracked|].
           rewrite Hd in Hd'. injection Hd' as <- <-.
           destruct (changed cur st) as [k|] eqn:Hch.
           ++ destruct (changed_decoded _ _ _ Hch) as (v1 & Hd1).
              rewrite Hd in Hd1. injection Hd1 as <- <-.
              destruct (Hset m eq_refl) as (v2 & Hd2 & Hc2).
              injection Hd2 as <-.
              exists v. split; [done|]. apply eqv_refl.
           ++ rewrite (Hsame eq_refl). exists old. split; [done|].
              unfold changed in Hch. rewrite Hd, Hold in Hch.
              by destruct (eqv old v).
        -- assert (changed cur st <> Some m) as Hch.
           { intros Hch. apply changed_decoded in Hch as (v1 & Hd1).
             congruence. }
           destruct Hor as [(st' & v1 & Hin & Hd1)|(w & Hw & Heq)].
           ++ left. apply elem_of_cons in Hin as [->|Hin]; [congruence|].
              exists st', v1. by rewrite Hdec.
           ++ right. exists w. by rewrite Hother.
      * assert (changed cur st <> Some m) as Hch.
        { intros Hch. apply changed_decoded in Hch as (v1 & Hd1).
          congruence. }
        destruct Hor as [(st' & v1 & Hin & Hd1)|(w & Hw & Heq)].
        -- left. apply elem_of_cons in Hin as [->|Hin]; [congruence|].
           exists st', v1. by rewrite Hdec.
        -- right. exists w. by rewrite Hother.
Qed.

End FanUpdateFacts.

(** ** fan.py: [update_elem] *)

Section FanUpdateClaims.
Import Py Device Models FanCtl.

Lemma eqv_int (a b : Z) : eqv (VInt a) (VInt b) = true -> a = b.
Proof. simpl. by intros ?%Z.eqb_eq. Qed.

Lemma decoded_speed_class cur st (v : Py.value) :
  decoded cur st = Some ("speed", v) -> functionClass st = "fan-speed".
Proof.
  unfold decoded. intros H.
  repeat case_match; simplify_eq. by apply String.eqb_eq.
Qed.

(** C6, as the code has it: on a snapshot the model can take,
    [update_elem] returns the set
    of the feature names for which some state decodes to a value that
    differs from the model's, so the empty set (and an unchanged model)
    when every state decodes to what the model holds; features outside
    the returned set keep their value.  In particular, for a fan whose
    model holds 25 and whose speed names place "speed-4-25" at 25% and
    "speed-4-75" at 75%, a snapshot that differs from the model in its
    [fan-speed] value only, now "speed-4-75", returns {"speed"} and
    leaves 75 in the model. *)
Theorem update_elem_change_detection :
  (forall (_items : gmap string Fan) (hs_device : HubspaceDevice) (cur : Fan),
     _items !! id hs_device = Some cur ->
     (forall st, st ∈ states hs_device -> accepts cur st) ->
     exists cur',
       update_elem _items hs_device
       = (<[id hs_device := cur']> _items,
          Ok (changed_keys cur (states hs_device)))
       /\ (forall k, k ∈ changed_keys cur (states hs_device)
                     <-> exists st, st ∈ states hs_device
                                    /\ changed cur st = Some k)
       /\ ((forall st, st ∈ states hs_device -> changed cur st = None) ->
           changed_keys cur (states hs_device) = ∅ /\ cur' = cur)
       /\ (forall m, m ∉ changed_keys cur (states hs_device) ->
                     current cur' m = current cur m))
  /\ (forall (_items : gmap string Fan) (hs_device : HubspaceDevice)
             (cur : Fan) (f : SpeedFeature),
        _items !! id hs_device = Some cur ->
        fan_speed cur = Some f -> speed f = 25 ->
        Util.ordered_list_item_to_percentage
          (VStr <$> speeds f) (VStr "speed-4-25") = Ok 25 ->
        Util.ordered_list_item_to_percentage
          (VStr <$> speeds f) (VStr "speed-4-75") = Ok 75 ->
        (exists st, st ∈ states hs_device /\ functionClass st = "fan-speed") ->
        (forall st, st ∈ states hs_device ->
           if decide (functionClass st = "fan-speed")
           then value st = VStr "speed-4-75"
           else accepts cur st /\ changed cur st = None) ->
        exists cur',
          update_elem _items hs_device
          = (<[id hs_device := cur']> _items, Ok {[ "speed" ]})
          /\ fan_speed cur' = Some {| speed := 75; speeds := speeds f |}).
Proof.
  split.
  - intros _items hs_device cur Hcur Hacc.
    destruct (update_states_spec (states hs_device) cur ∅ Hacc)
      as (cur' & Hloop & _ & Hother & _ & Hsame).
    exists cur'. unfold update_elem, get_device. rewrite Hcur, Hloop.
    rewrite (left_id_L ∅ (∪)). split_and!; try done.
    + intros k. apply elem_of_changed_keys.
    + intros Hnone.
      assert (changed_keys cur (states hs_device) = ∅) as Hempty.
      { apply set_eq. intros k. rewrite elem_of_changed_keys.
        split; [|by intros ?%not_elem_of_empty].
        intros (st & Hin & Hch). rewrite (Hnone st Hin) in Hch. done. }
      split; [done|by apply Hsame].
  - intros _items hs_device cur f Hcur Hf H25 Hp25 Hp75 (st0 & Hin0 & Hc0) Hst.
    assert (forall st, functionClass st = "fan-speed" ->
              value st = VStr "speed-4-75" ->
              decoded cur st = Some ("speed", VInt 75)) as Hdec75.
    { intros st Hc Hv. unfold decoded. by rewrite Hc, Hf, Hv, Hp75. }
    assert (current cur "speed" = Some (VInt 25)) as Hcur25.
    { unfold current. simpl. rewrite Hf. simpl. by rewrite H25. }
    assert (forall st, st ∈ states hs_device ->
              changed cur st
              = if decide (functionClass st = "fan-speed")
                then Some "speed" else None) as Hch.
    { intros st Hin. specialize (Hst st Hin).
      destruct (decide (functionClass st = "fan-speed")) as [Hc|Hc];
        [|by destruct Hst].
      unfold changed. by rewrite (Hdec75 st Hc Hst), Hcur25. }
    assert (forall st, st ∈ states hs_device -> accepts cur st) as Hacc.
    { intros st Hin. specialize (Hst st Hin).
      destruct (decide (functionClass st = "fan-speed")) as [Hc|Hc];
        [|by destruct Hst].
      intros _. exists "speed", (VInt 75).
      split; [by apply Hdec75|]. by rewrite Hcur25. }
    assert (changed_keys cur (states hs_device) = {[ "speed" ]}) as Hkeys.
    { apply set_eq. intros k.
      rewrite elem_of_changed_keys, elem_of_singleton. split.
      - intros (st & Hin & Hk). rewrite (Hch st Hin) in Hk.
        destruct (decide _); congruence.
      - intros ->. exists st0. split; [done|].
        rewrite (Hch st0 Hin0). by rewrite decide_True. }
    destruct (update_states_spec (states hs_device) cur ∅ Hacc)
      as (cur' & Hloop & _ & _ & _ & _).
    exists cur'. unfold update_elem, get_device. rewrite Hcur, Hloop.
    rewrite (left_id_L ∅ (∪)), Hkeys. split; [done|].
    destruct (update_states_target (states hs_device) "speed" (VInt 75)
                cur ∅ cur' _ Hacc Hloop) as (w & Hw & Heq).
    { intros st v' Hin Hd. specialize (Hst st Hin).
      destruct (decide (functionClass st = "fan-speed")) as [Hc|Hc].
      - rewrite (Hdec75 st Hc Hst) in Hd. congruence.
      - exfalso. apply Hc. by apply (decoded_speed_class cur st v'). }
    { left. exists st0, (VInt 75). split; [done|].
      apply Hdec75; [done|]. specialize (Hst st0 Hin0).
      by rewrite decide_True in Hst. }
    pose proof (update_states_speeds _ _ _ _ _ Hloop) as Hs.
    rewrite Hf in Hs. simpl in Hs.
    unfold current in Hw. simpl in Hw.
    destruct (fan_speed cur') as [[z l]|]; [|done].
    simpl in *. injection Hs as ->. injection Hw as <-.
    apply eqv_int in Heq. by subst.
Qed.

End FanUpdateClaims.

Lemma update_elem_change_detection_witness :
  let snapshot := Sample.fan_snapshot "speed-4-75" in
  exists (cur : Models.Fan) (f : Models.SpeedFeature),
    (Sample.fan_store !! Device.id snapshot = Some cur
     /\ Models.fan_speed cur = Some f /\ Models.speed f = 25
     /\ Util.ordered_list_item_to_percentage
          (Py.VStr <$> Models.speeds f) (Py.VStr "speed-4-25") = Py.Ok 25
     /\ Util.ordered_list_item_to_percentage
          (Py.VStr <$> Models.speeds f) (Py.VStr "speed-4-75") = Py.Ok 75
     /\ (exists st, st ∈ Device.states snapshot
                    /\ Device.functionClass st = "fan-speed")
     /\ (forall st, st ∈ Device.states snapshot ->
           if decide (Device.functionClass st = "fan-speed")
           then Device.value st = Py.VStr "speed-4-75"
           else FanCtl.accepts cur st /\ FanCtl.changed cur st = None))
    /\ exists cur',
         FanCtl.update_elem Sample.fan_store snapshot
         = (<[Device.id snapshot := cur']> Sample.fan_store,
            Py.Ok {[ "speed" ]})
         /\ Models.fan_speed cur'
            = Some {| Models.speed := 75; Models.speeds := Models.speeds f |}.
Proof.
  intros snapshot.
  destruct (Sample.fan_store !! Device.id snapshot) as [cur|] eqn:Hcur;
    [|by vm_compute in Hcur].
  destruct (Models.fan_speed cur) as [f|] eqn:Hf.
  2: { vm_compute in Hcur. injection Hcur as <-. by vm_compute in Hf. }
  assert (Models.speed f = 25
          /\ Models.speeds f
             = ["speed-4-25"; "speed-4-50"; "speed-4-75"; "speed-4-99"])
    as [H25 Hspeeds].
  { vm_compute in Hcur. injection Hcur as <-. vm_compute in Hf.
    injection Hf as <-. split; reflexivity. }
  assert (Device.states snapshot
          = [ {| Device.functionClass := "power"; Device.value := Py.VStr "on";
                 Device.lastUpdateTime := None;
                 Device.functionInstance := Some "fan-power" |};
              {| Device.functionClass := "fan-speed";
                 Device.value := Py.VStr "speed-4-75";
                 Device.lastUpdateTime := None;
                 Device.functionInstance := Some "fan-speed" |} ]) as Hstates
    by reflexivity.
  assert (Hp25 : Util.ordered_list_item_to_percentage
                   (Py.VStr <$> Models.speeds f) (Py.VStr "speed-4-25")
                 = Py.Ok 25) by (rewrite Hspeeds; vm_compute; reflexivity).
  assert (Hp75 : Util.ordered_list_item_to_percentage
                   (Py.VStr <$> Models.speeds f) (Py.VStr "speed-4-75")
                 = Py.Ok 75) by (rewrite Hspeeds; vm_compute; reflexivity).
  assert (Hex : exists st, st ∈ Device.states snapshot
                           /\ Device.functionClass st = "fan-speed").
  { rewrite Hstates. eexists. split; [right; left|reflexivity]. }
  assert (Hall : forall st, st ∈ Device.states snapshot ->
            if decide (Device.functionClass st = "fan-speed")
            then Device.value st = Py.VStr "speed-4-75"
            else FanCtl.accepts cur st /\ FanCtl.changed cur st = None).
  { rewrite Hstates. intros st Hin.
    apply elem_of_cons in Hin as [->|Hin];
      [|apply list_elem_of_singleton in Hin as ->].
    - rewrite decide_False by done.
      vm_compute in Hcur. injection Hcur as <-. split.
      + intros _. exists "on", (Py.VBool true). split; [reflexivity|].
        by eexists.
      + reflexivity.
    - by rewrite decide_True. }
  exists cur, f. split; [by split_and!|].
  destruct update_elem_change_detection as [_ Hscenario].
  exact (Hscenario Sample.fan_store snapshot cur f Hcur Hf H25 Hp25 Hp75
                   Hex Hall).
Defined.

Section FanUpdateExamples.
Import Py Device Models FanCtl.

(** The scenario of C6 on speed names that sort as they count. *)
Example padded_names_satisfy_the_scenario :
  speed_scenario (Sample.fan_snapshot "speed-4-25")
                 (Sample.fan_snapshot "speed-4-75").
Proof. unfold speed_scenario. vm_compute. split_and!; reflexivity. Qed.

(** C6 as stated fails twice.  A snapshot with a [fan-reverse] state,
    on a model built without a direction, makes [update_elem] raise
    [AttributeError] instead of returning a set.  And on a fan whose
    speeds are named speed-4-25, -50, -75 and -100, the names sort as
    strings with speed-4-100 first, so speed-4-25 is 50% and speed-4-75
    is 100%: the change from one to the other returns {speed} and
    leaves 100 in the model, not 75. *)
Lemma update_elem_change_detection_fails :
  (~ reports_differences Sample.fan_store Sample.reversing_fan
   /\ update_elem Sample.fan_store Sample.reversing_fan
      = (Sample.fan_store, Raise AttributeError))
  /\ (~ speed_scenario (Sample.unpadded_fan "speed-4-25")
                       (Sample.unpadded_fan "speed-4-75")
      /\ let _items := (initialize_elem ∅ (Sample.unpadded_fan "speed-4-25")).1 in
         speed_names Sample.unpadded_speed_function
         = ["speed-4-100"; "speed-4-25"; "speed-4-50"; "speed-4-75"]
         /\ speed <$> (_items !! "fan-1" ≫= fan_speed) = Some 50
         /\ (update_elem _items (Sample.unpadded_fan "speed-4-75")).2
            = Ok {[ "speed" ]}
         /\ speed <$> ((update_elem _items (Sample.unpadded_fan "speed-4-75")).1
                         !! "fan-1" ≫= fan_speed) = Some 100).
Proof.
  split; [split|split].
  - intros H.
    destruct (Sample.fan_store !! id Sample.reversing_fan) as [cur|] eqn:Hcur;
      [|by vm_compute in Hcur].
    specialize (H cur Hcur). vm_compute in Hcur. injection Hcur as <-.
    by vm_compute in H.
  - vm_compute. reflexivity.
  - unfold speed_scenario. intros (H25 & _). by vm_compute in H25.
  - vm_compute. split_and!; reflexivity.
Qed.

End FanUpdateExamples.

(** [initialize_elem] sorts the speed names as strings, so a name
    ending in "-100" next to unpadded "-25"... names sorts first. *)
Example speed_names_sort_as_strings :
  FanCtl.speed_names
    {| Device.fn_functionClass := Some "fan-speed";
       Device.fn_functionInstance := None;
       Device.fn_values :=
         [ {| Device.name := "speed-4-000" |}; {| Device.name := "speed-4-25" |};
           {| Device.name := "speed-4-50" |}; {| Device.name := "speed-4-75" |};
           {| Device.name := "speed-4-100" |} ] |}
  = ["speed-4-100"; "speed-4-25"; "speed-4-50"; "speed-4-75"].
Proof. vm_compute. reflexivity. Qed.

Section UnknownItemClaims.
Import Py Device Models FanCtl Util.

(** C10: [ordered_list_item_to_percentage l x] raises [ValueError]
    exactly when [x] is not an element of [l]; when [x] is in [l] it
    returns ((first index of [x] + 1) * 100) // len([l]); and so
    [update_elem] raises on a snapshot that carries a [fan-speed] value
    which is not among the speed names of the model. *)
Theorem unknown_item_raises_value_error :
  (forall (T : Type) (dec : EqDecision T) (l : list T) (x : T),
     ordered_list_item_to_percentage l x = Raise ValueError <-> x ∉ l)
  /\ (forall (T : Type) (dec : EqDecision T) (l : list T) (x : T),
        x ∈ l ->
        exists i : nat,
          index l x = Some i
          /\ l !! i = Some x
          /\ (forall j, (j < i)%nat -> l !! j <> Some x)
          /\ ordered_list_item_to_percentage l x
             = Ok (((Z.of_nat i + 1) * 100) `div` Z.of_nat (List.length l)))
  /\ (forall (_items : gmap string Fan) (hs_device : HubspaceDevice)
             (cur : Fan) (f : SpeedFeature) (st : HubspaceState),
        _items !! id hs_device = Some cur ->
        fan_speed cur = Some f ->
        st ∈ states hs_device ->
        functionClass st = "fan-speed" ->
        value st ∉ VStr <$> speeds f ->
        raised (update_elem _items hs_device).2).
Proof.
  split_and!.
  - intros T dec l x. split.
    + intros Hr Hin.
      destruct (to_percentage_returns l x Hin) as (i & _ & Hok). congruence.
    + apply to_percentage_raises.
  - intros T dec l x Hin.
    destruct (to_percentage_returns l x Hin) as (i & Hi & Hok).
    destruct (index_first l x i Hi) as [Hl Hfirst]. eauto.
  - intros _items hs_device cur f st Hcur Hf Hin Hc Hv.
    unfold update_elem, get_device. rewrite Hcur.
    pose proof (update_states_unknown_speed (states hs_device) cur ∅ f st
                  Hf Hin Hc Hv) as Hr.
    by destruct (update_states cur ∅ (states hs_device)).
Qed.

End UnknownItemClaims.

Lemma unknown_item_raises_value_error_witness :
  let snapshot := Sample.fan_snapshot "speed-4-33" in
  exists (cur : Models.Fan) (f : Models.SpeedFeature) (st : Device.HubspaceState),
    (Sample.fan_store !! Device.id snapshot = Some cur
     /\ Models.fan_speed cur = Some f
     /\ st ∈ Device.states snapshot
     /\ Device.functionClass st = "fan-speed"
     /\ Device.value st ∉ Py.VStr <$> Models.speeds f)
    /\ Py.raised (FanCtl.update_elem Sample.fan_store snapshot).2
    /\ Util.ordered_list_item_to_percentage ["low"; "medium"; "high"] "turbo"
       = Py.Raise Py.ValueError.
Proof.
  intros snapshot.
  destruct (Sample.fan_store !! Device.id snapshot) as [cur|] eqn:Hcur;
    [|by vm_compute in Hcur].
  destruct (Models.fan_speed cur) as [f|] eqn:Hf.
  2: { vm_compute in Hcur. injection Hcur as <-. by vm_compute in Hf. }
  assert (Models.speeds f
          = ["speed-4-25"; "speed-4-50"; "speed-4-75"; "speed-4-99"])
    as Hspeeds.
  { vm_compute in Hcur. injection Hcur as <-. vm_compute in Hf.
    by injection Hf as <-. }
  set (st := {| Device.functionClass := "fan-speed";
                Device.value := Py.VStr "speed-4-33";
                Device.lastUpdateTime := None;
                Device.functionInstance := Some "fan-speed" |}).
  assert (Hin : st ∈ Device.states snapshot) by (right; left).
  assert (Hv : Device.value st ∉ Py.VStr <$> Models.speeds f).
  { rewrite Hspeeds. apply (bool_decide_unpack _). vm_compute. exact I. }
  destruct unknown_item_raises_value_error as (Hiff & _ & Hupdate).
  exists cur, f, st. split; [by split_and!|]. split.
  - exact (Hupdate Sample.fan_store snapshot cur f st Hcur Hf Hin eq_refl Hv).
  - apply Hiff. apply (bool_decide_unpack _). vm_compute. exact I.
Defined.

(** ** fan.py: [initialize_elem] *)

Section FanInitFacts.
Import Py Device Models FanCtl.
Implicit Types (d : HubspaceDevice) (st : HubspaceState) (v : Locals)
         (sts : list HubspaceState).

(** One iteration of the loop of [initialize_elem], field by field. *)
Lemma init_state_fields d v st v' :
  init_state d v st = Ok v' ->
  l_on v'
  = pick (is_class "power")
         (fun st => Some {| on := eq_str (value st) "on" |}) st (l_on v)
  /\ l_speed v' = pick (is_class "fan-speed") (speed_of d) st (l_speed v)
  /\ l_direction v'
     = pick (is_class "fan-reverse")
            (fun st => Some {| forward := eq_str (value st) "forward" |})
            st (l_direction v)
  /\ l_preset v'
     = pick is_preset
            (fun st => Some {| enabled := eq_str (value st) "enabled";
                               func_class := functionClass st;
                               func_instance := functionInstance st |})
            st (l_preset v)
  /\ l_available v' = pick (is_class "available") value st (l_available v).
Proof.
  unfold init_state, pick, is_class, is_preset, speed_of.
  destruct (String.eqb (functionClass st) "power") eqn:Hpower.
  { apply String.eqb_eq in Hpower. rewrite Hpower. simpl.
    by intros [= <-]. }
  destruct (String.eqb (functionClass st) "fan-speed") eqn:Hspeed.
  { apply String.eqb_eq in Hspeed. rewrite Hspeed. simpl.
    destruct (get_function_from_device d "fan-speed" (functionInstance st))
      as [func|]; [|done].
    destruct (Util.ordered_list_item_to_percentage _ _) as [p|e]; [|done].
    by intros [= <-]. }
  destruct (String.eqb (functionClass st) "fan-reverse") eqn:Hreverse.
  { apply String.eqb_eq in Hreverse. rewrite Hreverse. simpl.
    by intros [= <-]. }
  destruct (String.eqb (functionClass st) "toggle"
            && in_known_presets (functionInstance st)) eqn:Htoggle.
  { apply andb_true_iff in Htoggle as [Htoggle _].
    apply String.eqb_eq in Htoggle. rewrite Htoggle. simpl.
    by intros [= <-]. }
  destruct (String.eqb (functionClass st) "available") eqn:Havail.
  { by intros [= <-]. }
  by intros [= <-].
Qed.

Lemma init_state_returns d v st :
  (functionClass st = "fan-speed" ->
   exists func,
     get_function_from_device d (functionClass st) (functionInstance st)
     = Some func
     /\ value st ∈ VStr <$> speed_names func) ->
  exists v', init_state d v st = Ok v'.
Proof.
  intros Hsp. unfold init_state.
  destruct (String.eqb (functionClass st) "power"); [eauto|].
  destruct (String.eqb (functionClass st) "fan-speed") eqn:Hspeed.
  { apply String.eqb_eq in Hspeed. destruct (Hsp Hspeed) as (func & -> & Hin).
    destruct (to_percentage_returns _ _ Hin) as (i & _ & ->). simpl. eauto. }
  destruct (String.eqb (functionClass st) "fan-reverse"); [eauto|].
  destruct (String.eqb (functionClass st) "toggle"
            && in_known_presets (functionInstance st)); [eauto|].
  destruct (String.eqb (functionClass st) "available"); eauto.
Qed.

Lemma init_states_returns d sts : forall v,
  (forall st, st ∈ sts -> functionClass st = "fan-speed" ->
     exists func,
       get_function_from_device d (functionClass st) (functionInstance st)
       = Some func
       /\ value st ∈ VStr <$> speed_names func) ->
  exists v', init_states d v sts = Ok v'.
Proof.
  induction sts as [|st sts IH]; intros v Hsp; simpl; [eauto|].
  destruct (init_state_returns d v st (Hsp st ltac:(left))) as (v1 & ->).
  simpl. apply IH. intros st' Hin. apply Hsp. by right.
Qed.

(** After the loop a field holds what the last state of its class
    gave, or its initial value when the snapshot has no such state. *)
Lemma fold_pick {A} (P : HubspaceState -> bool) (new : HubspaceState -> A)
    (field : Locals -> A) d sts : forall v v',
  (forall v0 st v1, init_state d v0 st = Ok v1 ->
                    field v1 = pick P new st (field v0)) ->
  init_states d v sts = Ok v' ->
  field v' = from_option new (field v) (last_state P sts).
Proof.
  unfold last_state.
  induction sts as [|st sts IH]; intros v v' Hstep; simpl.
  - by intros [= <-].
  - destruct (init_state d v st) as [v1|e] eqn:E; [|done]. simpl.
    intros Hrest. rewrite (IH v1 v' Hstep Hrest).
    rewrite filter_cons. rewrite (Hstep _ _ _ E). unfold pick.
    destruct (P st) eqn:HP.
    + rewrite decide_True by done. rewrite last_cons.
      by destruct (last (filter _ sts)).
    + by rewrite decide_False by done.
Qed.

End FanInitFacts.

Section FanInitClaims.
Import Py Device Models FanCtl.

(** What [initialize_elem] does on a snapshot it can take: it stores,
    under the device id, a model that depends on the snapshot only. *)
Lemma initialize_elem_returns (hs_device : HubspaceDevice) :
  initializable hs_device ->
  exists v,
    init_states hs_device locals0 (states hs_device) = Ok v
    /\ forall _items : gmap string Fan,
         initialize_elem _items hs_device
         = (<[id hs_device := build_fan hs_device v]> _items,
            Ok (build_fan hs_device v)).
Proof.
  intros Hinit.
  destruct (init_states_returns hs_device (states hs_device) locals0 Hinit)
    as (v & Hv).
  exists v. split; [done|]. intros _items.
  unfold initialize_elem. rewrite Hv. by rewrite lookup_insert_eq.
Qed.

(** The first call stores a model under the id or leaves the store. *)
Lemma initialize_elem_store (_items : gmap string Fan)
    (hs_device : HubspaceDevice) :
  (raised (initialize_elem _items hs_device).2
   /\ (initialize_elem _items hs_device).1 = _items)
  \/ exists m, initialize_elem _items hs_device
               = (<[id hs_device := m]> _items, Ok m).
Proof.
  unfold initialize_elem.
  destruct (init_states hs_device locals0 (states hs_device)) as [v|e]; simpl.
  - right. exists (build_fan hs_device v). by rewrite lookup_insert_eq.
  - by left.
Qed.

(** C8, as the code has it: two calls of [initialize_elem] on snapshots
    with the same id, the second of which the controller can take,
    leave under that id the model built from the second snapshot alone:
    whatever the first call stored is overwritten, the other entries of
    the store are untouched, and in a store keyed by device id no other
    entry carries that id.  The fields of the model are those of the
    second snapshot: its identity and description, and for every
    feature what the last state of that class in the snapshot decodes
    to.  A call that raises leaves the store as it was. *)
Theorem initialize_elem_overwrites (_items : gmap string Fan)
    (first second : HubspaceDevice) :
  id first = id second ->
  initializable second ->
  exists m2 : Fan,
    initialize_elem (initialize_elem _items first).1 second
    = (<[id second := m2]> _items, Ok m2)
    /\ second_call_decides _items first second
    /\ (initializable first ->
        exists m1, initialize_elem _items first
                   = (<[id first := m1]> _items, Ok m1))
    /\ (<[id second := m2]> _items) !! id second = Some m2
    /\ (forall k, k <> id second ->
                  (<[id second := m2]> _items) !! k = _items !! k)
    /\ (forall any : gmap string Fan,
          initialize_elem any second = (<[id second := m2]> any, Ok m2))
    /\ (forall (any : gmap string Fan) (hs_device : HubspaceDevice),
          raised (initialize_elem any hs_device).2 ->
          (initialize_elem any hs_device).1 = any)
    /\ (keyed_by_id _items ->
        keyed_by_id (<[id second := m2]> _items)
        /\ forall k m, (<[id second := m2]> _items) !! k = Some m ->
                       fan_id m = id second -> k = id second /\ m = m2)
    /\ fan_id m2 = id second
    /\ fan_functions m2 = functions second
    /\ fan_device_information m2
       = {| di_device_class := Some (device_class second);
            di_default_image := Some (default_image second);
            di_default_name := Some (default_name second);
            di_manufacturer := manufacturerName second;
            di_model := model second;
            di_name := Some (friendly_name second);
            di_parent_id := Some (device_id second) |}
    /\ fan_on m2
       = (fun st => {| on := eq_str (value st) "on" |})
           <$> last_state (is_class "power") (states second)
    /\ fan_speed m2
       = last_state (is_class "fan-speed") (states second) ≫= speed_of second
    /\ fan_direction m2
       = (fun st => {| forward := eq_str (value st) "forward" |})
           <$> last_state (is_class "fan-reverse") (states second)
    /\ fan_preset m2
       = (fun st => {| enabled := eq_str (value st) "enabled";
                       func_class := functionClass st;
                       func_instance := functionInstance st |})
           <$> last_state is_preset (states second)
    /\ fan_available m2
       = from_option value (VBool false)
                     (last_state (is_class "available") (states second)).
Proof.
  intros Hid Hsecond.
  destruct (initialize_elem_returns second Hsecond) as (v2 & Hv2 & Hcall2).
  exists (build_fan second v2).
  assert (forall (A : Type) (P : HubspaceState -> bool)
                 (new : HubspaceState -> A) (field : Locals -> A),
            (forall v0 st v', init_state second v0 st = Ok v' ->
                              field v' = pick P new st (field v0)) ->
            field v2
            = from_option new (field locals0) (last_state P (states second)))
    as Hfield.
  { intros A P new field Hstep.
    by apply (fold_pick P new field second (states second) locals0 v2). }
  assert (initialize_elem (initialize_elem _items first).1 second
          = (<[id second := build_fan second v2]> _items,
             Ok (build_fan second v2))) as Htwice.
  { rewrite Hcall2.
    destruct (initialize_elem_store _items first) as [[_ ->]|[m1 ->]];
      [done|]. simpl. by rewrite Hid, insert_insert_eq. }
  split_and!; try done.
  - exists (build_fan second v2). rewrite Htwice, Hcall2. simpl.
    by rewrite lookup_insert_eq.
  - intros Hfirst.
    destruct (initialize_elem_returns first Hfirst) as (v1 & _ & Hcall1).
    eauto.
  - apply lookup_insert_eq.
  - intros k Hk. by apply lookup_insert_ne.
  - intros any hs_device Hraised.
    destruct (initialize_elem_store any hs_device) as [[_ ->]|[m Hm]];
      [done|]. by rewrite Hm in Hraised.
  - intros Hkeyed.
    assert (keyed_by_id (<[id second := build_fan second v2]> _items)) as Hk.
    { intros k m Hm. destruct (decide (k = id second)) as [->|Hne].
      - rewrite lookup_insert_eq in Hm. by injection Hm as <-.
      - rewrite lookup_insert_ne in Hm by done. by apply Hkeyed. }
    split; [done|]. intros k m Hm Hfan.
    assert (k = id second) as -> by (by rewrite <- (Hk k m Hm)).
    split; [done|]. rewrite lookup_insert_eq in Hm. by injection Hm as <-.
  - simpl.
    rewrite (Hfield _ (is_class "power")
               (fun st => Some {| on := eq_str (value st) "on" |}) l_on).
    + simpl. by destruct (last_state _ _).
    + intros v0 st v' H. by apply (init_state_fields second v0 st v').
  - simpl. rewrite (Hfield _ (is_class "fan-speed") (speed_of second) l_speed).
    + simpl. by destruct (last_state _ _).
    + intros v0 st v' H. by apply (init_state_fields second v0 st v').
  - simpl.
    rewrite (Hfield _ (is_class "fan-reverse")
               (fun st => Some {| forward := eq_str (value st) "forward" |})
               l_direction).
    + simpl. by destruct (last_state _ _).
    + intros v0 st v' H. by apply (init_state_fields second v0 st v').
  - simpl.
    rewrite (Hfield _ is_preset
               (fun st => Some {| enabled := eq_str (value st) "enabled";
                                  func_class := functionClass st;
                                  func_instance := functionInstance st |})
               l_preset).
    + simpl. by destruct (last_state _ _).
    + intros v0 st v' H. by apply (init_state_fields second v0 st v').
  - simpl. rewrite (Hfield _ (is_class "available") value l_available).
    + done.
    + intros v0 st v' H. by apply (init_state_fields second v0 st v').
Qed.

End FanInitClaims.

Lemma sample_fan_initializable (speed_value : string) :
  Py.VStr speed_value ∈ Py.VStr <$> FanCtl.speed_names Sample.speed_function ->
  FanCtl.initializable (Sample.fan_snapshot speed_value).
Proof.
  intros Hin st Hst Hclass.
  change (Device.states (Sample.fan_snapshot speed_value))
    with [ {| Device.functionClass := "power"; Device.value := Py.VStr "on";
              Device.lastUpdateTime := None;
              Device.functionInstance := Some "fan-power" |};
           {| Device.functionClass := "fan-speed";
              Device.value := Py.VStr speed_value;
              Device.lastUpdateTime := None;
              Device.functionInstance := Some "fan-speed" |} ] in Hst.
  apply elem_of_cons in Hst as [->|Hst]; [done|].
  apply list_elem_of_singleton in Hst as ->.
  exists Sample.speed_function. split; [reflexivity|exact Hin].
Qed.

Lemma initialize_elem_overwrites_witness :
  let first := Sample.fan_snapshot "speed-4-25" in
  let second := Sample.fan_snapshot "speed-4-75" in
  Device.id first = Device.id second
  /\ FanCtl.initializable second
  /\ exists m2 : Models.Fan,
       FanCtl.initialize_elem (FanCtl.initialize_elem ∅ first).1 second
       = (<[Device.id second := m2]> ∅, Py.Ok m2)
       /\ Models.fan_speed m2
          = Some {| Models.speed := 75;
                    Models.speeds := ["speed-4-25"; "speed-4-50";
                                      "speed-4-75"; "speed-4-99"] |}.
Proof.
  intros first second.
  assert (Hid : Device.id first = Device.id second) by reflexivity.
  assert (H2 : FanCtl.initializable second).
  { apply sample_fan_initializable.
    apply (bool_decide_unpack _). vm_compute. exact I. }
  split; [exact Hid|]. split; [exact H2|].
  destruct (initialize_elem_overwrites ∅ first second Hid H2)
    as (m2 & Hc2 & _ & _ & _ & _ & _ & _ & _ & _ & _ & _ & _ & Hspeed & _).
  exists m2. split; [exact Hc2|].
  rewrite Hspeed. vm_compute. reflexivity.
Defined.

Section FanInitExamples.
Import Py Device Models FanCtl.

(** C8 as stated fails when the second call raises.  The fan reports
    the speed speed-4-000, a name of its own function that
    [initialize_elem] leaves out of the speed names: the second call
    raises [ValueError] and the store keeps the model of the first
    call, so what it holds depends on the first snapshot (25 or 75),
    not on the second. *)
Lemma second_initialize_keeps_first_model :
  let first := Sample.fan_snapshot "speed-4-25" in
  let other := Sample.fan_snapshot "speed-4-75" in
  let second := Sample.fan_snapshot "speed-4-000" in
  id first = id second
  /\ ~ second_call_decides ∅ first second
  /\ initialize_elem (initialize_elem ∅ first).1 second
     = ((initialize_elem ∅ first).1, Raise ValueError)
  /\ speed <$> ((initialize_elem (initialize_elem ∅ first).1 second).1
                  !! id second ≫= fan_speed) = Some 25
  /\ speed <$> ((initialize_elem (initialize_elem ∅ other).1 second).1
                  !! id second ≫= fan_speed) = Some 75.
Proof.
  intros first other second. split; [reflexivity|]. split; [|split; [|split]].
  - intros (m2 & _ & H). by vm_compute in H.
  - vm_compute. reflexivity.
  - vm_compute. reflexivity.
  - vm_compute. reflexivity.
Qed.

End FanInitExamples.

(* ===================================================================== *)
(** * Further properties of the code                                      *)
(* ===================================================================== *)

(** ** util.py: decoding a percentage *)

Section PercentageFacts.
Import Py Util.
Context {T : Type} `{EqDecision T}.
Implicit Types (l : list T) (x : T).

(** What the scan of the upper bounds finds. *)
Lemma scan_upper_bounds_spec (rest : list T) :
  forall (offset : nat) (n p : Z),
    match scan_upper_bounds rest (Z.of_nat offset) n p with
    | Some x =>
        exists k : nat,
          rest !! k = Some x
          /\ p <= upper_bound n (offset + k)
          /\ forall j : nat, (j < k)%nat -> upper_bound n (offset + j) < p
    | None =>
        forall j : nat, (j < List.length rest)%nat ->
                        upper_bound n (offset + j) < p
    end.
Proof.
  induction rest as [|y rest IH]; intros offset n p; simpl.
  - intros j Hj. lia.
  - case_decide as Hle.
    + exists O. split; [done|]. unfold upper_bound. split.
      * replace (Z.of_nat (offset + 0)) with (Z.of_nat offset) by lia. done.
      * intros j Hj. lia.
    + rename Hle into Hgt. specialize (IH (S offset) n p).
      replace (Z.of_nat offset + 1) with (Z.of_nat (S offset)) by lia.
      assert (upper_bound n (offset + 0) < p) as H0.
      { unfold upper_bound.
        replace (Z.of_nat (offset + 0)) with (Z.of_nat offset) by lia. lia. }
      destruct (scan_upper_bounds rest (Z.of_nat (S offset)) n p) as [x|].
      * destruct IH as (k & Hk & Hle & Hlt). exists (S k).
        split; [done|]. split.
        -- replace (offset + S k)%nat with (S offset + k)%nat by lia. done.
        -- intros [|j] Hj; [done|].
           replace (offset + S j)%nat with (S offset + j)%nat by lia.
           apply Hlt. lia.
      * intros [|j] Hj; [done|].
        replace (offset + S j)%nat with (S offset + j)%nat by lia.
        apply IH. lia.
Qed.

Lemma upper_bound_last (n : nat) :
  (0 < n)%nat -> upper_bound (Z.of_nat n) (n - 1) = 100.
Proof.
  intros Hn. unfold upper_bound.
  replace (Z.of_nat (n - 1) + 1) with (Z.of_nat n) by lia.
  rewrite Z.mul_comm. apply Z.div_mul. lia.
Qed.

Lemma upper_bound_mono (n : Z) (i j : nat) :
  0 < n -> (i <= j)%nat -> upper_bound n i <= upper_bound n j.
Proof.
  intros Hn Hij. unfold upper_bound. apply Z.div_le_mono; lia.
Qed.

Lemma upper_bound_range (n : nat) (i : nat) :
  (i < n)%nat -> 0 <= upper_bound (Z.of_nat n) i <= 100.
Proof.
  intros Hi. split.
  - unfold upper_bound. apply Z.div_pos; lia.
  - rewrite <- (upper_bound_last n) by lia. apply upper_bound_mono; lia.
Qed.

(** The position that the decoding picks. *)
Lemma percentage_to_item_position l p :
  l <> [] ->
  exists (i : nat) x,
    percentage_to_ordered_list_item l p = Ok x
    /\ l !! i = Some x
    /\ (forall j : nat, (j < i)%nat ->
                        upper_bound (Z.of_nat (List.length l)) j < p)
    /\ (p <= upper_bound (Z.of_nat (List.length l)) i
        \/ (i = (List.length l - 1)%nat /\ 100 < p)).
Proof.
  intros Hne. unfold percentage_to_ordered_list_item.
  assert (0 < List.length l)%nat as Hlen by (destruct l; [done|simpl; lia]).
  rewrite decide_False by lia.
  pose proof (scan_upper_bounds_spec l O (Z.of_nat (List.length l)) p) as Hs.
  change (Z.of_nat 0) with 0 in Hs.
  destruct (scan_upper_bounds l 0 (Z.of_nat (List.length l)) p) as [x|].
  - destruct Hs as (k & Hk & Hle & Hlt). exists k, x. eauto.
  - destruct (last l) as [x|] eqn:El.
    + exists (List.length l - 1)%nat, x. split; [done|].
      split.
      { rewrite last_lookup in El. rewrite <- El. f_equal.
        destruct (List.length l); simpl; lia. }
      split; [intros j Hj; apply Hs; lia|].
      right. split; [done|].
      rewrite <- (upper_bound_last (List.length l)) by lia.
      apply (Hs (List.length l - 1)%nat). lia.
    + apply last_None in El. done.
Qed.

Lemma upper_bound_reached (n p : Z) (i : nat) :
  0 < n -> (p <= upper_bound n i <-> p * n <= (Z.of_nat i + 1) * 100).
Proof.
  intros Hn. unfold upper_bound. split; intros Hp.
  - pose proof (Z.mul_div_le ((Z.of_nat i + 1) * 100) n Hn). nia.
  - apply Z.div_le_lower_bound; lia.
Qed.

Lemma upper_bound_exceeded (n p : Z) (i : nat) :
  0 < n -> (upper_bound n i < p <-> (Z.of_nat i + 1) * 100 < p * n).
Proof.
  intros Hn. pose proof (upper_bound_reached n p i Hn). lia.
Qed.

Lemma bucket_position (n : nat) (p : Z) (i : nat) :
  (i < n)%nat ->
  (forall j : nat, (j < i)%nat -> upper_bound (Z.of_nat n) j < p) ->
  (p <= upper_bound (Z.of_nat n) i \/ (i = (n - 1)%nat /\ 100 < p)) ->
  bucket (Z.of_nat n) p = i.
Proof.
  intros Hi Hlt Hle. unfold bucket.
  assert (0 < Z.of_nat n) as Hn by lia.
  assert (i = O \/ Z.of_nat i * 100 < p * Z.of_nat n) as Hlow.
  { destruct i as [|i]; [by left|right].
    specialize (Hlt i ltac:(lia)).
    apply upper_bound_exceeded in Hlt; lia. }
  destruct Hle as [Hle|[-> Hp]].
  - apply upper_bound_reached in Hle; [|done].
    assert ((p * Z.of_nat n + 99) `div` 100 - 1 <= Z.of_nat i) as Hup.
    { assert ((p * Z.of_nat n + 99) `div` 100 < Z.of_nat i + 2); [|lia].
      apply Z.div_lt_upper_bound; lia. }
    destruct Hlow as [->|Hlow]; [lia|].
    assert (Z.of_nat i <= (p * Z.of_nat n + 99) `div` 100 - 1) as Hdown.
    { assert (Z.of_nat i + 1 <= (p * Z.of_nat n + 99) `div` 100); [|lia].
      apply Z.div_le_lower_bound; lia. }
    lia.
  - assert (Z.of_nat n <= (p * Z.of_nat n + 99) `div` 100) as Hdown.
    { apply Z.div_le_lower_bound; nia. }
    lia.
Qed.

(** X1: decoding a percentage raises [ValueError] exactly on the empty
    list; on every other list it returns, for every integer, an item of
    the list. *)
Theorem percentage_to_item_returns_member l p :
  match percentage_to_ordered_list_item l p with
  | Ok x => x ∈ l
  | Raise e => e = ValueError /\ l = []
  end.
Proof.
  destruct l as [|y l]; [done|].
  destruct (percentage_to_item_position (y :: l) p) as (i & x & -> & Hi & _);
    [done|].
  by eapply list_elem_of_lookup_2.
Qed.

(** X2: on a list of [n > 0] items the decoding returns the item at
    position [min (n - 1) (ceil (p * n / 100) - 1)], and the first item
    when that is negative. *)
Theorem percentage_to_item_closed_form l p :
  l <> [] ->
  exists x,
    l !! bucket (Z.of_nat (List.length l)) p = Some x
    /\ percentage_to_ordered_list_item l p = Ok x.
Proof.
  intros Hne.
  destruct (percentage_to_item_position l p Hne) as (i & x & Hx & Hi & Hlt & Hle).
  exists x. split; [|done].
  rewrite (bucket_position _ p i); [done| |done|done].
  by eapply lookup_lt_Some.
Qed.

(** X3: a larger percentage never decodes to an earlier position. *)
Theorem percentage_to_item_monotone l p q x y :
  p <= q ->
  percentage_to_ordered_list_item l p = Ok x ->
  percentage_to_ordered_list_item l q = Ok y ->
  exists i j : nat, l !! i = Some x /\ l !! j = Some y /\ (i <= j)%nat.
Proof.
  intros Hpq Hp Hq.
  assert (l <> []) as Hne by (intros ->; done).
  destruct (percentage_to_item_position l p Hne) as (i & x' & Hx & Hi & Hlti & Hlei).
  destruct (percentage_to_item_position l q Hne) as (j & y' & Hy & Hj & Hltj & Hlej).
  rewrite Hp in Hx. rewrite Hq in Hy. injection Hx as <-. injection Hy as <-.
  exists i, j. split; [done|]. split; [done|].
  destruct (decide (i <= j)%nat) as [|Hji]; [done|]. exfalso.
  specialize (Hlti j ltac:(lia)).
  destruct Hlej as [Hlej|[-> Hq100]]; [lia|].
  apply lookup_lt_Some in Hi. lia.
Qed.

(** X4: on a list without repetition, decoding a percentage of at most
    100 and encoding the item again rounds the percentage up to the
    bound of its bucket: the result is at least the percentage, at most
    100, and decodes to the same item. *)
Theorem percentage_rounds_up l p :
  NoDup l -> l <> [] -> p <= 100 ->
  exists x q,
    percentage_to_ordered_list_item l p = Ok x
    /\ ordered_list_item_to_percentage l x = Ok q
    /\ p <= q <= 100
    /\ percentage_to_ordered_list_item l q = Ok x.
Proof.
  intros Hnd Hne Hp.
  destruct (percentage_to_item_position l p Hne) as (i & x & Hx & Hi & Hlt & Hle).
  pose proof (lookup_lt_Some _ _ _ Hi) as Hlen.
  assert (x ∈ l) as Hin by (by eapply list_elem_of_lookup_2).
  destruct (to_percentage_returns l x Hin) as (i' & Hi' & Hq).
  apply index_first in Hi' as [Hi' _].
  assert (i' = i) as -> by (eapply NoDup_lookup; eauto).
  destruct Hle as [Hle|[_ Hbig]]; [|lia].
  exists x, (upper_bound (Z.of_nat (List.length l)) i).
  split; [done|]. split; [exact Hq|]. split.
  - split; [done|]. by apply upper_bound_range.
  - destruct (percentage_to_item_position l
                (upper_bound (Z.of_nat (List.length l)) i) Hne)
      as (j & y & Hy & Hj & Hltj & Hlej).
    rewrite Hy. f_equal.
    assert (j = i) as ->; [|congruence].
    pose proof (lookup_lt_Some _ _ _ Hj) as Hlenj.
    destruct (decide (j < i)%nat) as [Hji|Hji].
    + specialize (Hlt j Hji).
      destruct Hlej as [Hlej|[-> ?]]; lia.
    + destruct (decide (i < j)%nat) as [Hij|]; [|lia].
      specialize (Hltj i Hij). lia.
Qed.

(** X5: the percentage of an item lies between 0 and 100, is positive
    when the list has at most 100 items, is 100 for an item whose first
    occurrence is the last position, and grows with the position. *)
Theorem item_percentage_bounds l x :
  x ∈ l ->
  exists q,
    ordered_list_item_to_percentage l x = Ok q
    /\ 0 <= q <= 100
    /\ ((List.length l <= 100)%nat -> 1 <= q)
    /\ (index l x = Some (List.length l - 1)%nat -> q = 100)
    /\ (forall y r (i j : nat),
          index l x = Some i -> index l y = Some j -> (i <= j)%nat ->
          ordered_list_item_to_percentage l y = Ok r -> q <= r).
Proof.
  intros Hin.
  destruct (to_percentage_returns l x Hin) as (i & Hi & Hq).
  destruct (index_first l x i Hi) as [Hl _].
  pose proof (lookup_lt_Some _ _ _ Hl) as Hlen.
  eexists. split; [exact Hq|].
  fold (upper_bound (Z.of_nat (List.length l)) i).
  split; [by apply upper_bound_range|]. split; [|split].
  - intros H100. unfold upper_bound.
    apply Z.div_le_lower_bound; lia.
  - intros Hlast. rewrite Hi in Hlast. injection Hlast as ->.
    apply upper_bound_last. lia.
  - intros y r i' j Hi' Hj Hij Hr. rewrite Hi in Hi'. injection Hi' as <-.
    assert (y ∈ l) as Hy.
    { apply index_first in Hj as [Hj _]. by eapply list_elem_of_lookup_2. }
    destruct (to_percentage_returns l y Hy) as (j' & Hj' & Hr').
    rewrite Hj in Hj'. injection Hj' as <-.
    rewrite Hr in Hr'. injection Hr' as ->.
    fold (upper_bound (Z.of_nat (List.length l)) j).
    apply upper_bound_mono; lia.
Qed.

End PercentageFacts.

Lemma percentage_to_item_closed_form_witness :
  ["low"; "medium"; "high"; "very_high"] <> []
  /\ exists x : string,
       ["low"; "medium"; "high"; "very_high"] !! Util.bucket 4 26 = Some x
       /\ Util.percentage_to_ordered_list_item
            ["low"; "medium"; "high"; "very_high"] 26 = Py.Ok x.
Proof.
  assert (Hne : ["low"; "medium"; "high"; "very_high"] <> []) by discriminate.
  split; [exact Hne|].
  exact (percentage_to_item_closed_form _ 26 Hne).
Defined.

Lemma percentage_to_item_monotone_witness :
  25 <= 26
  /\ Util.percentage_to_ordered_list_item
       ["low"; "medium"; "high"; "very_high"] 25 = Py.Ok "low"
  /\ Util.percentage_to_ordered_list_item
       ["low"; "medium"; "high"; "very_high"] 26 = Py.Ok "medium"
  /\ exists i j : nat,
       ["low"; "medium"; "high"; "very_high"] !! i = Some "low"
       /\ ["low"; "medium"; "high"; "very_high"] !! j = Some "medium"
       /\ (i <= j)%nat.
Proof.
  assert (Hpq : 25 <= 26) by lia.
  assert (Hp : Util.percentage_to_ordered_list_item
                 ["low"; "medium"; "high"; "very_high"] 25 = Py.Ok "low")
    by reflexivity.
  assert (Hq : Util.percentage_to_ordered_list_item
                 ["low"; "medium"; "high"; "very_high"] 26 = Py.Ok "medium")
    by reflexivity.
  split; [exact Hpq|]. split; [exact Hp|]. split; [exact Hq|].
  exact (percentage_to_item_monotone _ _ _ _ _ Hpq Hp Hq).
Defined.

Lemma percentage_rounds_up_witness :
  NoDup ["low"; "medium"; "high"; "very_high"]
  /\ ["low"; "medium"; "high"; "very_high"] <> []
  /\ 30 <= 100
  /\ exists (x : string) (q : Z),
       Util.percentage_to_ordered_list_item
         ["low"; "medium"; "high"; "very_high"] 30 = Py.Ok x
       /\ Util.ordered_list_item_to_percentage
            ["low"; "medium"; "high"; "very_high"] x = Py.Ok q
       /\ 30 <= q <= 100
       /\ Util.percentage_to_ordered_list_item
            ["low"; "medium"; "high"; "very_high"] q = Py.Ok x.
Proof.
  assert (Hnd : NoDup ["low"; "medium"; "high"; "very_high"])
    by (apply (bool_decide_unpack _); vm_compute; exact I).
  assert (Hne : ["low"; "medium"; "high"; "very_high"] <> []) by discriminate.
  assert (Hp : 30 <= 100) by lia.
  split; [exact Hnd|]. split; [exact Hne|]. split; [exact Hp|].
  exact (percentage_rounds_up _ 30 Hnd Hne Hp).
Defined.

Lemma item_percentage_bounds_witness :
  "very_high" ∈ ["low"; "medium"; "high"; "very_high"]
  /\ exists q : Z,
       Util.ordered_list_item_to_percentage
         ["low"; "medium"; "high"; "very_high"] "very_high" = Py.Ok q
       /\ q = 100.
Proof.
  assert (Hin : "very_high" ∈ ["low"; "medium"; "high"; "very_high"])
    by (apply (bool_decide_unpack _); vm_compute; exact I).
  split; [exact Hin|].
  destruct (item_percentage_bounds _ _ Hin) as (q & Hq & _ & _ & Hlast & _).
  exists q. split; [exact Hq|]. apply Hlast. reflexivity.
Defined.

(** ** util.py: process_range *)

Section RangeFacts.
Import Py Util.

(** The items of an arithmetic progression. *)
Lemma elem_of_progression (start step : Z) (a n : nat) (v : Z) :
  v ∈ map (fun i : nat => start + Z.of_nat i * step) (seq a n)
  <-> exists i : nat, (a <= i < a + n)%nat /\ v = start + Z.of_nat i * step.
Proof.
  change (map ?f ?l) with (f <$> l).
  rewrite list_elem_of_fmap. split.
  - intros (i & -> & Hi). apply elem_of_seq in Hi. eauto.
  - intros (i & Hi & ->). exists i. split; [done|]. by apply elem_of_seq.
Qed.

Lemma progression_sorted (start step : Z) (n a : nat) :
  0 < step ->
  StronglySorted Z.lt
    (map (fun i : nat => start + Z.of_nat i * step) (seq a n)).
Proof.
  intros Hstep. revert a. induction n as [|n IH]; intros a; simpl.
  - constructor.
  - constructor; [apply IH|].
    apply Forall_forall. intros v Hv.
    apply elem_of_progression in Hv as (i & Hi & ->). nia.
Qed.

(** [range] stops before [stop], whichever way it runs. *)
Lemma range_length_spec (start stop step : Z) (i : nat) :
  step <> 0 ->
  (i < Z.to_nat (range_length start stop step))%nat
  <-> (if Z.ltb 0 step then start + Z.of_nat i * step < stop
       else stop < start + Z.of_nat i * step).
Proof.
  intros Hstep. unfold range_length.
  destruct (Z.ltb_spec 0 step) as [Hpos|Hneg].
  - destruct (Z.ltb_spec start stop) as [Hlt|Hge].
    + assert (0 <= (stop - start - 1) `div` step) by (apply Z.div_pos; lia).
      split; intros Hi.
      * assert (Z.of_nat i <= (stop - start - 1) `div` step) as Hle by lia.
        pose proof (Z.mul_div_le (stop - start - 1) step Hpos). nia.
      * assert (Z.of_nat i <= (stop - start - 1) `div` step); [|lia].
        apply Z.div_le_lower_bound; lia.
    + split; intros Hi; [simpl in Hi; lia|]. nia.
  - assert (0 < - step) as Hpos by lia.
    destruct (Z.ltb_spec stop start) as [Hlt|Hge].
    + assert (0 <= (start - stop - 1) `div` (- step))
        by (apply Z.div_pos; lia).
      split; intros Hi.
      * assert (Z.of_nat i <= (start - stop - 1) `div` (- step)) as Hle by lia.
        pose proof (Z.mul_div_le (start - stop - 1) (- step) Hpos). nia.
      * assert (Z.of_nat i <= (start - stop - 1) `div` (- step)); [|lia].
        apply Z.div_le_lower_bound; lia.
    + split; intros Hi; [simpl in Hi; lia|]. nia.
Qed.

Lemma range_returns (start stop step : Z) :
  step <> 0 ->
  exists l,
    range start stop step = Ok l
    /\ l = map (fun i : nat => start + Z.of_nat i * step)
               (seq 0 (Z.to_nat (range_length start stop step)))
    /\ stop ∉ l.
Proof.
  intros Hstep. unfold range.
  destruct (Z.eqb_spec step 0) as [|_]; [done|].
  eexists. split; [done|]. split; [done|].
  intros Hin. apply elem_of_progression in Hin as (i & Hi & Hv).
  assert (i < Z.to_nat (range_length start stop step))%nat as Hlt by lia.
  apply range_length_spec in Hlt; [|done].
  destruct (Z.ltb 0 step); lia.
Qed.

(** X6: [process_range] raises only [ValueError], and does so exactly
    when the step is 0 and the two ends differ; whenever it returns,
    the list ends with the maximum.  With a positive step and a
    maximum that is not above the minimum, the list is the maximum
    alone. *)
Theorem process_range_result (rv : RangeVals) :
  match process_range rv with
  | Ok l => last l = Some (range_max rv)
            /\ ~ (range_step rv = 0 /\ range_min rv <> range_max rv)
            /\ (0 < range_step rv -> range_max rv <= range_min rv ->
                l = [range_max rv])
  | Raise e => e = ValueError
               /\ range_step rv = 0 /\ range_min rv <> range_max rv
  end.
Proof.
  unfold process_range. destruct rv as [lo hi step]; simpl.
  destruct (Z.eqb_spec lo hi) as [->|Hne]; simpl.
  - rewrite decide_False by (intros Hn; apply Hn; apply list_elem_of_here).
    split; [done|]. split; [lia|done].
  - destruct (decide (step = 0)) as [->|Hstep]; [done|].
    destruct (range_returns lo hi step Hstep) as (l & -> & Hl & Hnot); simpl.
    rewrite decide_True by done.
    split; [apply last_snoc|]. split; [lia|].
    intros Hpos Hle. rewrite Hl. unfold range_length.
    destruct (Z.ltb_spec 0 step); [|lia].
    destruct (Z.ltb_spec lo hi); [lia|]. done.
Qed.

(** X7: with a positive step and a minimum below the maximum,
    [process_range] returns a strictly increasing list that starts with
    the minimum and ends with the maximum; besides the maximum it holds
    exactly the values below it that are a whole number of steps above
    the minimum. *)
Theorem process_range_ascending (rv : RangeVals) :
  0 < range_step rv -> range_min rv < range_max rv ->
  exists l,
    process_range rv = Ok l
    /\ head l = Some (range_min rv)
    /\ last l = Some (range_max rv)
    /\ StronglySorted Z.lt l
    /\ forall v,
         v ∈ l <->
         v = range_max rv
         \/ (range_min rv <= v < range_max rv
             /\ (v - range_min rv) `mod` range_step rv = 0).
Proof.
  destruct rv as [lo hi step]; simpl. intros Hstep Hlt.
  unfold process_range; simpl.
  destruct (Z.eqb_spec lo hi) as [|_]; [lia|].
  destruct (range_returns lo hi step ltac:(lia)) as (l & -> & Hl & Hnot); simpl.
  rewrite decide_True by done.
  assert (forall v, v ∈ l <->
            lo <= v < hi /\ (v - lo) `mod` step = 0) as Hmem.
  { intros v. rewrite Hl, elem_of_progression. split.
    - intros (i & Hi & ->).
      assert (i < Z.to_nat (range_length lo hi step))%nat as Hi' by lia.
      apply range_length_spec in Hi'; [|lia].
      destruct (Z.ltb_spec 0 step); [|lia].
      split; [nia|].
      replace (lo + Z.of_nat i * step - lo) with (Z.of_nat i * step) by lia.
      apply Z.mod_mul. lia.
    - intros [Hv Hmod].
      apply Z.mod_divide in Hmod as [k Hk]; [|lia].
      assert (0 <= k) by nia.
      exists (Z.to_nat k). split; [|lia].
      split; [lia|]. simpl.
      apply range_length_spec; [lia|].
      destruct (Z.ltb_spec 0 step); [|lia]. nia. }
  eexists. split; [done|]. split; [|split; [|split]].
  - assert (lo ∈ l) as Hlo.
    { apply Hmem. split; [lia|]. by rewrite Z.sub_diag. }
    rewrite Hl in *. unfold range_length in *.
    destruct (Z.ltb_spec 0 step); [|lia].
    destruct (Z.ltb_spec lo hi); [|lia].
    assert (0 <= (hi - lo - 1) `div` step) by (apply Z.div_pos; lia).
    destruct (Z.to_nat ((hi - lo - 1) `div` step + 1)) as [|n] eqn:En; [lia|].
    simpl. f_equal. lia.
  - apply last_snoc.
  - apply StronglySorted_app. split; [|split].
    + intros x1 x2 Hx1 Hx2. apply list_elem_of_singleton in Hx2 as ->.
      apply Hmem in Hx1. lia.
    + rewrite Hl. by apply progression_sorted.
    + repeat constructor.
  - intros v. rewrite elem_of_app, list_elem_of_singleton, Hmem. tauto.
Qed.

End RangeFacts.

Lemma process_range_ascending_witness :
  let rv := {| Util.range_min := 2700; Util.range_max := 6500;
               Util.range_step := 500 |} in
  0 < Util.range_step rv
  /\ Util.range_min rv < Util.range_max rv
  /\ exists l,
       Util.process_range rv = Py.Ok l
       /\ head l = Some 2700
       /\ last l = Some 6500
       /\ (6400 ∈ l <-> False).
Proof.
  intros rv.
  assert (Hstep : 0 < Util.range_step rv) by (simpl; lia).
  assert (Hlt : Util.range_min rv < Util.range_max rv) by (simpl; lia).
  split; [exact Hstep|]. split; [exact Hlt|].
  destruct (process_range_ascending rv Hstep Hlt)
    as (l & Hl & Hhead & Hlast & _ & Hmem).
  exists l. split; [exact Hl|]. split; [exact Hhead|]. split; [exact Hlast|].
  rewrite Hmem. simpl. split; [|intros []].
  intros [Hv|[_ Hv]]; [lia|]. vm_compute in Hv. discriminate Hv.
Defined.

(** ** device.py *)

Section DeviceFacts.
Import Py Device.

(** X8: [get_function_from_device] returns the first function of the
    device whose class and instance both match, and [None] exactly when
    no function matches. *)
Theorem get_function_from_device_first_match (hs_device : HubspaceDevice)
    (function_class : string) (function_instance : option string) :
  match get_function_from_device hs_device function_class function_instance with
  | Some func =>
      exists k : nat,
        functions hs_device !! k = Some func
        /\ function_matches function_class function_instance func
        /\ forall (j : nat) other,
             (j < k)%nat -> functions hs_device !! j = Some other ->
             ~ function_matches function_class function_instance other
  | None =>
      forall other, other ∈ functions hs_device ->
        ~ function_matches function_class function_instance other
  end.
Proof.
  unfold get_function_from_device.
  induction (functions hs_device) as [|func rest IH]; simpl.
  - intros other Hin. by apply elem_of_nil in Hin.
  - destruct (bool_decide_reflect (fn_functionClass func = Some function_class))
      as [Hc|Hc]; simpl.
    + destruct (bool_decide_reflect
                  (fn_functionInstance func = function_instance))
        as [Hi|Hi]; simpl.
      * exists O. split; [done|]. split; [done|]. intros j other Hj. lia.
      * destruct (find_function rest function_class function_instance) as [f|].
        -- destruct IH as (k & Hk & Hm & Hfirst). exists (S k).
           split; [done|]. split; [done|].
           intros [|j] other Hj Hl; simpl in Hl.
           ++ injection Hl as <-. intros [_ ?]. done.
           ++ apply (Hfirst j); [lia|done].
        -- intros other Hin. apply elem_of_cons in Hin as [->|Hin].
           ++ intros [_ ?]. done.
           ++ by apply IH.
    + destruct (find_function rest function_class function_instance) as [f|].
      * destruct IH as (k & Hk & Hm & Hfirst). exists (S k).
        split; [done|]. split; [done|].
        intros [|j] other Hj Hl; simpl in Hl.
        -- injection Hl as <-. intros [? _]. done.
        -- apply (Hfirst j); [lia|done].
      * intros other Hin. apply elem_of_cons in Hin as [->|Hin].
        -- intros [? _]. done.
        -- by apply IH.
Qed.

Ltac eqb_hyps :=
  repeat match goal with
         | H : String.eqb _ _ = true |- _ => apply String.eqb_eq in H
         | H : String.eqb _ _ = false |- _ => apply String.eqb_neq in H
         | H : _ && _ = true |- _ => apply andb_true_iff in H as [? ?]
         | H : _ || _ = true |- _ => apply orb_true_iff in H as [?|?]
         | H : _ || _ = false |- _ => apply orb_false_iff in H as [? ?]
         end.

Ltac post_init_cases :=
  repeat (case_match; simpl in *; eqb_hyps; simplify_eq; simpl in * ).

(** X9: [__post_init__] rewrites only the model, the device class and
    the manufacturer.  The class becomes [light] for a switch that
    reports a brightness state and [switch] for a glass door, and is
    kept otherwise; the manufacturer is set for a glass door only. *)
Theorem post_init_keeps_identity (d : HubspaceDevice) :
  let d' := __post_init__ d in
  id d' = id d /\ device_id d' = device_id d
  /\ default_name d' = default_name d /\ default_image d' = default_image d
  /\ friendly_name d' = friendly_name d /\ functions d' = functions d
  /\ states d' = states d /\ children d' = children d
  /\ device_class d'
     = (if String.eqb (device_class d) "switch" && has_brightness d
        then "light"
        else if String.eqb (device_class d) "glass-door" then "switch"
        else device_class d)
  /\ manufacturerName d'
     = (if String.eqb (device_class d) "glass-door"
        then Some "Feather River Doors" else manufacturerName d).
Proof.
  unfold __post_init__, has_brightness.
  destruct d as [i di m c dn dimg fn fs sts ch mn]; simpl.
  destruct (existsb _ sts); simpl; rewrite ?andb_true_r, ?andb_false_r;
    post_init_cases; repeat split; try done.
Qed.

(** X10: the fixes of [__post_init__] are stable: on a device that is
    not a glass door, running them a second time changes nothing.  (A
    glass door becomes a switch, which the second run may treat as a
    dimmer or as a smart switch.) *)
Theorem post_init_idempotent (d : HubspaceDevice) :
  device_class d <> "glass-door" ->
  __post_init__ (__post_init__ d) = __post_init__ d.
Proof.
  intros Hgd.
  destruct d as [i di m c dn dimg fn fs sts ch mn]; simpl in Hgd.
  unfold __post_init__ at 2. unfold no_model, model_is. simpl.
  destruct (existsb _ sts) eqn:Hb; simpl; rewrite ?andb_true_r, ?andb_false_r;
    post_init_cases; try done;
    unfold __post_init__, no_model, model_is; simpl; rewrite ?Hb; simpl;
    rewrite ?andb_true_r, ?andb_false_r;
    post_init_cases; try done.
Qed.

End DeviceFacts.

Lemma post_init_idempotent_witness :
  let dimmer :=
    {| Device.id := "d-1"; Device.device_id := "parent-of-d-1";
       Device.model := None; Device.device_class := "switch";
       Device.default_name := "Dimmer";
       Device.default_image := "slide-dimmer-icon";
       Device.friendly_name := "Hall"; Device.functions := [];
       Device.states :=
         [ {| Device.functionClass := "brightness";
              Device.value := Py.VInt 40;
              Device.lastUpdateTime := None;
              Device.functionInstance := None |} ];
       Device.children := []; Device.manufacturerName := None |} in
  Device.device_class dimmer <> "glass-door"
  /\ Device.device_class (Device.__post_init__ dimmer) = "light"
  /\ Device.__post_init__ (Device.__post_init__ dimmer)
     = Device.__post_init__ dimmer.
Proof.
  intros dimmer.
  assert (Hgd : Device.device_class dimmer <> "glass-door") by discriminate.
  split; [exact Hgd|]. split; [reflexivity|].
  exact (post_init_idempotent dimmer Hgd).
Defined.

(** ** fan.py: the store across calls *)

Section FanStoreFacts.
Import Py Device Models FanCtl.
Implicit Types (cur : Fan) (st : HubspaceState) (keys : gset string)
         (sts : list HubspaceState) (d : HubspaceDevice).

(** An update leaves what identifies and describes the model. *)
Lemma update_state_identity cur keys st cur' keys' :
  update_state cur keys st = Ok (cur', keys') ->
  fan_id cur' = fan_id cur /\ fan_functions cur' = fan_functions cur
  /\ fan_device_information cur' = fan_device_information cur.
Proof.
  unfold update_state, mbind, result_bind, Py.bind. intros H.
  repeat case_match; simplify_eq; simpl; done.
Qed.

Lemma update_states_identity sts : forall cur keys cur' r,
  update_states cur keys sts = (cur', r) ->
  fan_id cur' = fan_id cur /\ fan_functions cur' = fan_functions cur
  /\ fan_device_information cur' = fan_device_information cur.
Proof.
  induction sts as [|st sts IH]; intros cur keys cur' r; simpl.
  - by intros [= <- _].
  - destruct (update_state cur keys st) as [[cur1 keys1]|e] eqn:E.
    + intros H. destruct (IH _ _ _ _ H) as (-> & -> & ->).
      by eapply update_state_identity.
    + by intros [= <- _].
Qed.

(** X11: [update_elem] touches one entry of the store at most: every
    other entry and the set of ids are as before, whether it returns or
    raises.  An unknown id raises and leaves the store alone.  The model
    under the id keeps its id, its functions, its description and its
    speed names, and a store keyed by id stays keyed by id. *)
Theorem update_elem_frame (_items : gmap string Fan) d :
  let _items' := (update_elem _items d).1 in
  (forall k, k <> id d -> _items' !! k = _items !! k)
  /\ dom _items' = dom _items
  /\ (_items !! id d = None ->
      update_elem _items d = (_items, Raise (OtherException "DeviceNotFound")))
  /\ (forall cur, _items !! id d = Some cur ->
      exists cur',
        _items' !! id d = Some cur'
        /\ fan_id cur' = fan_id cur
        /\ fan_functions cur' = fan_functions cur
        /\ fan_device_information cur' = fan_device_information cur
        /\ speeds <$> fan_speed cur' = speeds <$> fan_speed cur)
  /\ (keyed_by_id _items -> keyed_by_id _items').
Proof.
  unfold update_elem, get_device.
  destruct (_items !! id d) as [cur|] eqn:Hcur; simpl.
  - destruct (update_states cur ∅ (states d)) as [cur' r] eqn:Hrun. simpl.
    destruct (update_states_identity _ _ _ _ _ Hrun) as (Hid & Hfn & Hdi).
    pose proof (update_states_speeds _ _ _ _ _ Hrun) as Hsp.
    split_and!.
    + intros k Hk. by rewrite lookup_insert_ne.
    + rewrite dom_insert_L. apply subseteq_union_1_L.
      apply singleton_subseteq_l. apply elem_of_dom. eauto.
    + done.
    + intros cur0 [= <-]. exists cur'. by rewrite lookup_insert_eq.
    + intros Hkeyed k m. destruct (decide (k = id d)) as [->|Hk].
      * rewrite lookup_insert_eq. intros [= <-]. rewrite Hid. by apply Hkeyed.
      * rewrite lookup_insert_ne by done. apply Hkeyed.
  - split_and!; try done.
Qed.

(** X12: when the model takes every state of a snapshot and the states
    agree on every feature they address, [update_elem] returns, and a
    second [update_elem] with the same snapshot reports no change and
    leaves the store as the first one left it. *)
Theorem update_elem_settles (_items : gmap string Fan) d cur :
  _items !! id d = Some cur ->
  (forall st, st ∈ states d -> accepts cur st) ->
  agree_for cur (states d) ->
  exists keys,
    update_elem _items d = ((update_elem _items d).1, Ok keys)
    /\ update_elem (update_elem _items d).1 d
       = ((update_elem _items d).1, Ok ∅).
Proof.
  intros Hcur Hacc Hagree.
  destruct (update_states_spec (states d) cur ∅ Hacc)
    as (cur' & Hrun & Hdec & Hother & Hsome & Hsame).
  assert (update_elem _items d
          = (<[id d := cur']> _items, Ok (∅ ∪ changed_keys cur (states d))))
    as Hfirst.
  { unfold update_elem, get_device. by rewrite Hcur, Hrun. }
  rewrite Hfirst. simpl. eexists. split; [done|].
  assert (forall st, st ∈ states d -> accepts cur' st) as Hacc'.
  { intros st Hst. apply (accepts_after cur); auto. }
  destruct (update_states_spec (states d) cur' ∅ Hacc')
    as (cur'' & Hrun' & _ & _ & _ & Hsame').
  assert (changed_keys cur' (states d) = ∅) as Hnone.
  { apply set_eq. intros k. rewrite elem_of_changed_keys. split.
    - intros (st & Hst & Hch). exfalso.
      destruct (changed_decoded _ _ _ Hch) as (v & Hv).
      destruct (update_states_target (states d) k v cur ∅ cur' _ Hacc Hrun)
        as (w & Hw & Heq).
      + intros st0 v0 Hst0 Hd0. rewrite Hdec in Hv.
        by apply (Hagree st0 st k v0 v).
      + left. exists st, v. by rewrite <- Hdec.
      + unfold changed in Hch. rewrite Hv, Hw, Heq in Hch. done.
    - by intros ?%not_elem_of_empty. }
  unfold update_elem, get_device. rewrite lookup_insert_eq, Hrun'.
  rewrite (Hsame' Hnone), Hnone, insert_insert_eq.
  by rewrite (left_id_L ∅ (∪)).
Qed.

Lemma decoded_feature_of cur st k v :
  decoded cur st = Some (k, v) -> feature_of st = Some k.
Proof.
  unfold decoded, feature_of.
  destruct (String.eqb (functionClass st) "power"); [by intros [= <- _]|].
  destruct (String.eqb (functionClass st) "fan-speed").
  { destruct (fan_speed cur); [|done].
    destruct (Util.ordered_list_item_to_percentage _ _); [|done].
    by intros [= <- _]. }
  destruct (String.eqb (functionClass st) "fan-reverse"); [by intros [= <- _]|].
  destruct (String.eqb (functionClass st) "toggle"
            && in_known_presets (functionInstance st)); [by intros [= <- _]|].
  destruct (String.eqb (functionClass st) "available"); [by intros [= <- _]|].
  done.
Qed.

Lemma reported_once_agree cur sts : reported_once sts -> agree_for cur sts.
Proof.
  intros Honce st st' k v v' Hst Hst' Hd Hd'.
  assert (st = st') as <-; [|congruence].
  apply Honce; [done|done| |].
  - rewrite (decoded_feature_of _ _ _ _ Hd). eauto.
  - by rewrite (decoded_feature_of _ _ _ _ Hd),
               (decoded_feature_of _ _ _ _ Hd').
Qed.

Lemma last_state_unique (P : HubspaceState -> bool) sts st :
  st ∈ sts -> P st = true ->
  (forall st', st' ∈ sts -> P st' = true -> st' = st) ->
  last_state P sts = Some st.
Proof.
  intros Hin HP Huniq. unfold last_state.
  destruct (last (filter (fun st0 => P st0 = true) sts)) as [y|] eqn:El.
  - f_equal. apply last_Some in El as [l' El].
    assert (y ∈ filter (fun st0 => P st0 = true) sts) as Hy.
    { rewrite El. apply elem_of_app. right. apply list_elem_of_singleton. done. }
    apply list_elem_of_filter in Hy as [HPy Hy]. by apply Huniq.
  - apply last_None in El.
    assert (st ∈ filter (fun st0 => P st0 = true) sts) as Hst
      by (by apply list_elem_of_filter).
    rewrite El in Hst. by apply elem_of_nil in Hst.
Qed.

(** The model that [initialize_elem] builds from a snapshot that
    reports every feature once agrees with every state of the
    snapshot. *)
Lemma built_model_agrees d v st :
  initializable d -> reported_once (states d) ->
  init_states d locals0 (states d) = Ok v ->
  st ∈ states d ->
  accepts (build_fan d v) st /\ changed (build_fan d v) st = None.
Proof.
  intros Hinit Honce Hv Hst.
  assert (forall (P : HubspaceState -> bool) k,
            P st = true -> feature_of st = Some k ->
            (forall st', P st' = true -> feature_of st' = Some k) ->
            last_state P (states d) = Some st) as Hlast.
  { intros P k HP Hk HPk. apply last_state_unique; [done|done|].
    intros st' Hst' HP'. symmetry. apply Honce; [done|done|by rewrite Hk|].
    rewrite Hk. symmetry. by apply HPk. }
  pose proof (fold_pick (is_class "power")
                (fun st => Some {| on := eq_str (value st) "on" |})
                l_on d (states d) locals0 v) as Hon.
  pose proof (fold_pick (is_class "fan-speed") (speed_of d)
                l_speed d (states d) locals0 v) as Hspeed.
  pose proof (fold_pick (is_class "fan-reverse")
                (fun st => Some {| forward := eq_str (value st) "forward" |})
                l_direction d (states d) locals0 v) as Hdir.
  pose proof (fold_pick is_preset
                (fun st => Some {| enabled := eq_str (value st) "enabled";
                                   func_class := functionClass st;
                                   func_instance := functionInstance st |})
                l_preset d (states d) locals0 v) as Hpre.
  pose proof (fold_pick (is_class "available") value
                l_available d (states d) locals0 v) as Hav.
  assert (forall v0 st0 v1, init_state d v0 st0 = Ok v1 ->
            l_on v1 = pick (is_class "power")
                        (fun st => Some {| on := eq_str (value st) "on" |})
                        st0 (l_on v0)) as H1
    by (intros v0 st0 v1 H; apply (init_state_fields d v0 st0 v1 H)).
  assert (forall v0 st0 v1, init_state d v0 st0 = Ok v1 ->
            l_speed v1 = pick (is_class "fan-speed") (speed_of d)
                           st0 (l_speed v0)) as H2
    by (intros v0 st0 v1 H; apply (init_state_fields d v0 st0 v1 H)).
  assert (forall v0 st0 v1, init_state d v0 st0 = Ok v1 ->
            l_direction v1
            = pick (is_class "fan-reverse")
                (fun st => Some {| forward := eq_str (value st) "forward" |})
                st0 (l_direction v0)) as H3
    by (intros v0 st0 v1 H; apply (init_state_fields d v0 st0 v1 H)).
  assert (forall v0 st0 v1, init_state d v0 st0 = Ok v1 ->
            l_preset v1
            = pick is_preset
                (fun st => Some {| enabled := eq_str (value st) "enabled";
                                   func_class := functionClass st;
                                   func_instance := functionInstance st |})
                st0 (l_preset v0)) as H4
    by (intros v0 st0 v1 H; apply (init_state_fields d v0 st0 v1 H)).
  assert (forall v0 st0 v1, init_state d v0 st0 = Ok v1 ->
            l_available v1
            = pick (is_class "available") value st0 (l_available v0)) as H5
    by (intros v0 st0 v1 H; apply (init_state_fields d v0 st0 v1 H)).
  specialize (Hon H1 Hv). specialize (Hspeed H2 Hv). specialize (Hdir H3 Hv).
  specialize (Hpre H4 Hv). specialize (Hav H5 Hv).
  clear H1 H2 H3 H4 H5.
  assert (forall k val w,
            decoded (build_fan d v) st = Some (k, val) ->
            current (build_fan d v) k = Some w -> eqv w val = true ->
            accepts (build_fan d v) st /\ changed (build_fan d v) st = None)
    as Hfinish.
  { intros k val w Hd Hc He. split.
    - intros _. exists k, val. rewrite Hc. eauto.
    - unfold changed. by rewrite Hd, Hc, He. }
  destruct (String.eqb (functionClass st) "power") eqn:Epower.
  { rewrite (Hlast (is_class "power") "on") in Hon.
    - apply (Hfinish "on" (VBool (eq_str (value st) "on"))
                     (VBool (eq_str (value st) "on"))).
      + unfold decoded. by rewrite Epower.
      + unfold current. simpl. by rewrite Hon.
      + apply eqv_refl.
    - done.
    - unfold feature_of. by rewrite Epower.
    - intros st'. unfold is_class, feature_of. by intros ->. }
  destruct (String.eqb (functionClass st) "fan-speed") eqn:Espeed.
  { rewrite (Hlast (is_class "fan-speed") "speed") in Hspeed.
    - simpl in Hspeed.
      destruct (Hinit st Hst) as (func & Hfunc & Hval);
        [by apply String.eqb_eq|].
      destruct (to_percentage_returns _ _ Hval) as (i & _ & Hp).
      unfold speed_of in Hspeed. rewrite Hfunc, Hp in Hspeed.
      eapply (Hfinish "speed").
      + unfold decoded. rewrite Epower, Espeed. simpl. rewrite Hspeed.
        simpl. by rewrite Hp.
      + unfold current. simpl. rewrite Hspeed. done.
      + apply eqv_refl.
    - done.
    - unfold feature_of. by rewrite Epower, Espeed.
    - intros st'. unfold is_class, feature_of. intros E.
      destruct (String.eqb_spec (functionClass st') "power") as [Hp|_].
      + rewrite Hp in E. done.
      + by rewrite E. }
  destruct (String.eqb (functionClass st) "fan-reverse") eqn:Ereverse.
  { rewrite (Hlast (is_class "fan-reverse") "direction") in Hdir.
    - apply (Hfinish "direction" (VBool (eq_str (value st) "forward"))
                     (VBool (eq_str (value st) "forward"))).
      + unfold decoded. by rewrite Epower, Espeed, Ereverse.
      + unfold current. simpl. by rewrite Hdir.
      + apply eqv_refl.
    - done.
    - unfold feature_of. by rewrite Epower, Espeed, Ereverse.
    - intros st'. unfold is_class, feature_of. intros E.
      destruct (String.eqb_spec (functionClass st') "power") as [Hp|_].
      { rewrite Hp in E. done. }
      destruct (String.eqb_spec (functionClass st') "fan-speed") as [Hp|_].
      { rewrite Hp in E. done. }
      by rewrite E. }
  destruct (String.eqb (functionClass st) "toggle"
            && in_known_presets (functionInstance st)) eqn:Etoggle.
  { rewrite (Hlast is_preset "preset") in Hpre.
    - apply (Hfinish "preset" (VBool (eq_str (value st) "enabled"))
                     (VBool (eq_str (value st) "enabled"))).
      + unfold decoded. by rewrite Epower, Espeed, Ereverse, Etoggle.
      + unfold current. simpl. by rewrite Hpre.
      + apply eqv_refl.
    - done.
    - unfold feature_of. by rewrite Epower, Espeed, Ereverse, Etoggle.
    - intros st'. unfold is_preset, feature_of. intros E. rewrite E.
      apply andb_true_iff in E as [E _]. apply String.eqb_eq in E.
      by rewrite E. }
  destruct (String.eqb (functionClass st) "available") eqn:Eavail.
  { rewrite (Hlast (is_class "available") "available") in Hav.
    - apply (Hfinish "available" (value st) (value st)).
      + unfold decoded. by rewrite Epower, Espeed, Ereverse, Etoggle, Eavail.
      + unfold current. simpl. by rewrite Hav.
      + apply eqv_refl.
    - done.
    - unfold feature_of.
      by rewrite Epower, Espeed, Ereverse, Etoggle, Eavail.
    - intros st'. unfold is_class, feature_of. intros E.
      apply String.eqb_eq in E. by rewrite E. }
  split.
  - unfold accepts, tracked.
    rewrite Epower, Espeed, Ereverse, Etoggle, Eavail. done.
  - unfold changed, decoded.
    by rewrite Epower, Espeed, Ereverse, Etoggle, Eavail.
Qed.

(** X13: the two decoders agree: after [initialize_elem] on a snapshot
    that it can take and that reports every feature at most once,
    [update_elem] with the same snapshot returns the empty set and
    leaves the store unchanged. *)
Theorem update_after_initialize (_items : gmap string Fan) d :
  initializable d -> reported_once (states d) ->
  let _items' := (initialize_elem _items d).1 in
  update_elem _items' d = (_items', Ok ∅).
Proof.
  intros Hinit Honce.
  destruct (initialize_elem_returns d Hinit) as (v & Hv & Hstore).
  rewrite Hstore. simpl.
  assert (forall st, st ∈ states d -> accepts (build_fan d v) st) as Hacc.
  { intros st Hst. by apply built_model_agrees. }
  destruct (update_states_spec (states d) (build_fan d v) ∅ Hacc)
    as (cur' & Hrun & _ & _ & _ & Hsame).
  assert (changed_keys (build_fan d v) (states d) = ∅) as Hnone.
  { apply set_eq. intros k. rewrite elem_of_changed_keys. split.
    - intros (st & Hst & Hch).
      destruct (built_model_agrees d v st Hinit Honce Hv Hst) as [_ Hno].
      congruence.
    - by intros ?%not_elem_of_empty. }
  unfold update_elem, get_device. rewrite lookup_insert_eq, Hrun.
  rewrite (Hsame Hnone), Hnone, insert_insert_eq.
  by rewrite (left_id_L ∅ (∪)).
Qed.

End FanStoreFacts.


Lemma sample_fan_states (speed_value : string) :
  Device.states (Sample.fan_snapshot speed_value)
  = [ {| Device.functionClass := "power"; Device.value := Py.VStr "on";
         Device.lastUpdateTime := None;
         Device.functionInstance := Some "fan-power" |};
      {| Device.functionClass := "fan-speed";
         Device.value := Py.VStr speed_value;
         Device.lastUpdateTime := None;
         Device.functionInstance := Some "fan-speed" |} ].
Proof. reflexivity. Qed.

Lemma sample_fan_reported_once (speed_value : string) :
  FanCtl.reported_once (Device.states (Sample.fan_snapshot speed_value)).
Proof.
  rewrite sample_fan_states. intros st st' Hst Hst' _.
  apply elem_of_cons in Hst as [->|Hst];
    [|apply list_elem_of_singleton in Hst as ->];
    (apply elem_of_cons in Hst' as [->|Hst'];
     [|apply list_elem_of_singleton in Hst' as ->]);
    done.
Qed.

Lemma sample_fan_accepts (speed_value : string) (cur : Models.Fan) :
  Py.VStr speed_value ∈ Py.VStr <$> FanCtl.speed_names Sample.speed_function ->
  Sample.fan_store !! "fan-1" = Some cur ->
  forall st, st ∈ Device.states (Sample.fan_snapshot speed_value) ->
             FanCtl.accepts cur st.
Proof.
  intros Hin Hcur st Hst. rewrite sample_fan_states in Hst.
  vm_compute in Hcur. injection Hcur as <-.
  apply elem_of_cons in Hst as [->|Hst];
    [|apply list_elem_of_singleton in Hst as ->]; intros _.
  - exists "on", (Py.VBool true). split; [reflexivity|]. by eexists.
  - destruct (to_percentage_returns _ _ Hin) as (i & _ & Hp).
    exists "speed", (Py.VInt (((Z.of_nat i + 1) * 100)
                    `div` Z.of_nat (List.length
                            (Py.VStr <$> FanCtl.speed_names Sample.speed_function)))).
    split; [|by eexists].
    transitivity
      (match Util.ordered_list_item_to_percentage
               (Py.VStr <$> FanCtl.speed_names Sample.speed_function)
               (Py.VStr speed_value) with
       | Py.Ok p => Some ("speed", Py.VInt p)
       | Py.Raise _ => None
       end); [reflexivity|].
    by rewrite Hp.
Qed.

Lemma update_elem_settles_witness :
  let snapshot := Sample.fan_snapshot "speed-4-75" in
  exists cur,
    Sample.fan_store !! Device.id snapshot = Some cur
    /\ (forall st, st ∈ Device.states snapshot -> FanCtl.accepts cur st)
    /\ FanCtl.agree_for cur (Device.states snapshot)
    /\ FanCtl.update_elem Sample.fan_store snapshot
       = ((FanCtl.update_elem Sample.fan_store snapshot).1, Py.Ok {[ "speed" ]})
    /\ FanCtl.update_elem (FanCtl.update_elem Sample.fan_store snapshot).1
                          snapshot
       = ((FanCtl.update_elem Sample.fan_store snapshot).1, Py.Ok ∅).
Proof.
  intros snapshot.
  destruct (Sample.fan_store !! Device.id snapshot) as [cur|] eqn:Hcur;
    [|by vm_compute in Hcur].
  assert (Hacc : forall st, st ∈ Device.states snapshot -> FanCtl.accepts cur st).
  { apply (sample_fan_accepts "speed-4-75" cur); [|exact Hcur].
    apply (bool_decide_unpack _). vm_compute. exact I. }
  assert (Hagree : FanCtl.agree_for cur (Device.states snapshot)).
  { apply reported_once_agree. apply sample_fan_reported_once. }
  exists cur. split; [reflexivity|]. split; [exact Hacc|].
  split; [exact Hagree|].
  destruct (update_elem_settles Sample.fan_store snapshot cur Hcur Hacc Hagree)
    as (keys & Hfirst & Hsecond).
  split; [|exact Hsecond].
  assert ((FanCtl.update_elem Sample.fan_store snapshot).2
          = Py.Ok {[ "speed" ]}) as H2 by (vm_compute; reflexivity).
  rewrite Hfirst in H2. simpl in H2. rewrite Hfirst. simpl. by rewrite H2.
Defined.

Lemma update_after_initialize_witness :
  let snapshot := Sample.fan_snapshot "speed-4-50" in
  FanCtl.initializable snapshot
  /\ FanCtl.reported_once (Device.states snapshot)
  /\ FanCtl.update_elem (FanCtl.initialize_elem ∅ snapshot).1 snapshot
     = ((FanCtl.initialize_elem ∅ snapshot).1, Py.Ok ∅).
Proof.
  intros snapshot.
  assert (Hinit : FanCtl.initializable snapshot).
  { apply sample_fan_initializable.
    apply (bool_decide_unpack _). vm_compute. exact I. }
  assert (Honce : FanCtl.reported_once (Device.states snapshot))
    by apply sample_fan_reported_once.
  split; [exact Hinit|]. split; [exact Honce|].
  exact (update_after_initialize ∅ snapshot Hinit Honce).
Defined.

(** ** fan.py: set_state *)

Section FanPutFacts.
Import Py Device Models FanController.

(** X14: [set_state] raises only for an unknown id.  Otherwise the
    object it hands to [update] carries a speed, a preset or a direction
    only when the caller gave one and the model has that feature; a
    speed it carries is not 0 and comes with the model's speed names, a
    preset with the model's function class and instance.  A speed of 0
    on a model with a speed feature sends [on = False], whatever [on]
    the caller gave; in every other case [on] is sent as given. *)
Theorem set_state_sends_supported_features (_items : gmap string Fan)
    (device_id : string) (on : option bool) (speed : option Z)
    (forward preset : option bool) :
  match set_state _items device_id on speed forward preset with
  | Raise e => _items !! device_id = None
  | Ok update_obj =>
      exists cur_item,
        _items !! device_id = Some cur_item
        /\ (forall f, put_speed update_obj = Some f ->
              Models.speed f <> 0 /\ speed = Some (Models.speed f)
              /\ speeds <$> fan_speed cur_item = Some (speeds f))
        /\ (forall f, put_preset update_obj = Some f ->
              preset = Some (enabled f)
              /\ (fun p => (func_class p, func_instance p)) <$> fan_preset cur_item
                 = Some (func_class f, func_instance f))
        /\ (forall f, put_direction update_obj = Some f ->
              forward = Some (Models.forward f)
              /\ is_Some (fan_direction cur_item))
        /\ put_on update_obj
           = (if bool_decide (speed = Some 0 /\ is_Some (fan_speed cur_item))
              then Some {| Models.on := false |}
              else (fun b => {| Models.on := b |}) <$> on)
  end.
Proof.
  unfold set_state, FanCtl.get_device.
  destruct (_items !! device_id) as [cur|]; simpl; [|done].
  exists cur. split; [done|]. split_and!.
  - intros f.
    destruct speed as [speed|], (fan_speed cur) as [cs|],
      preset as [preset|], (fan_preset cur) as [cp|],
      forward as [forward|], (fan_direction cur) as [cd|], on as [on|];
      simpl; try destruct (Z.eqb_spec speed 0) as [->|Hz]; simpl;
      intros Hf; simplify_eq; simpl; done.
  - intros f.
    destruct speed as [speed|], (fan_speed cur) as [cs|],
      preset as [preset|], (fan_preset cur) as [cp|],
      forward as [forward|], (fan_direction cur) as [cd|], on as [on|];
      simpl; try destruct (Z.eqb_spec speed 0) as [->|Hz]; simpl;
      intros Hf; simplify_eq; simpl; done.
  - intros f.
    destruct speed as [speed|], (fan_speed cur) as [cs|],
      preset as [preset|], (fan_preset cur) as [cp|],
      forward as [forward|], (fan_direction cur) as [cd|], on as [on|];
      simpl; try destruct (Z.eqb_spec speed 0) as [->|Hz]; simpl;
      intros Hf; simplify_eq; simpl; eauto.
  - destruct (bool_decide_reflect (speed = Some 0 /\ is_Some (fan_speed cur)))
      as [[-> [cs Hcs]]|Hno].
    + rewrite Hcs. simpl.
      destruct preset as [preset|], (fan_preset cur) as [cp|],
        forward as [forward|], (fan_direction cur) as [cd|], on as [on|];
        done.
    + destruct speed as [speed|], (fan_speed cur) as [cs|],
        preset as [preset|], (fan_preset cur) as [cp|],
        forward as [forward|], (fan_direction cur) as [cd|], on as [on|];
        simpl; try destruct (Z.eqb_spec speed 0) as [->|Hz]; simpl;
        try done; exfalso; apply Hno; eauto.
Qed.

(** [set_speed] asks for [on = True] together with the speed, and
    the speed wins: on a model with a speed feature a speed of 0 sends
    [on = False] alone, any other speed sends [on = True] and the speed
    with the model's names; on a model without a speed feature only
    [on = True] is sent.  Neither preset nor direction is ever sent. *)
Theorem set_speed_zero_turns_off (_items : gmap string Fan)
    (device_id : string) (speed : Z) cur_item :
  _items !! device_id = Some cur_item ->
  set_speed _items device_id speed
  = Ok (match fan_speed cur_item with
        | None => with_on {| Models.on := true |} FanPut0
        | Some cur_speed =>
            if Z.eqb speed 0
            then with_on {| Models.on := false |} FanPut0
            else with_speed {| Models.speed := speed;
                               speeds := speeds cur_speed |}
                   (with_on {| Models.on := true |} FanPut0)
        end).
Proof.
  intros Hcur. unfold set_speed, set_state, FanCtl.get_device.
  rewrite Hcur. simpl. destruct (fan_speed cur_item) as [cs|]; [|done].
  by destruct (Z.eqb speed 0).
Qed.

End FanPutFacts.

Lemma set_speed_zero_turns_off_witness :
  exists cur_item,
    Sample.fan_store !! "fan-1" = Some cur_item
    /\ FanController.set_speed Sample.fan_store "fan-1" 0
       = Py.Ok {| FanController.put_on := Some {| Models.on := false |};
                  FanController.put_speed := None;
                  FanController.put_direction := None;
                  FanController.put_preset := None |}.
Proof.
  destruct (Sample.fan_store !! "fan-1") as [cur_item|] eqn:Hcur;
    [|by vm_compute in Hcur].
  exists cur_item. split; [reflexivity|].
  rewrite (set_speed_zero_turns_off Sample.fan_store "fan-1" 0 cur_item Hcur).
  vm_compute in Hcur. injection Hcur as <-. reflexivity.
Defined.

(** ** v1/__init__.py: the tracking tables *)

Section BridgeTables.
Import Py Bridge.
Implicit Types (b : HubSpaceBridgeV1) (s : gset string).

Lemma elem_of_controllers b controller :
  controller ∈ controllers b
  <-> controller ∈ _controllers b /\ initialized controller = true.
Proof. unfold controllers. rewrite list_elem_of_filter. tauto. Qed.

(** The ids gathered from a list of controllers. *)
Lemma elem_of_gathered (l : list Controller) : forall s (i : string),
  i ∈ foldl (fun acc controller => acc ∪ list_to_set (items controller)) s l
  <-> (i ∈ s \/ exists controller, controller ∈ l /\ i ∈ items controller).
Proof.
  induction l as [|c l IH]; intros s i; simpl.
  - split; [by left|]. intros [?|(c & Hc & _)]; [done|].
    by apply elem_of_nil in Hc.
  - rewrite IH, elem_of_union, elem_of_list_to_set. split.
    + intros [[?|?]|(c' & Hc' & Hi)]; [by left| |].
      * right. exists c. split; [left|done].
      * right. exists c'. split; [by right|done].
    + intros [?|(c' & Hc' & Hi)]; [by left; left|].
      apply elem_of_cons in Hc' as [->|Hc']; [by left; right|].
      right. eauto.
Qed.

(** X15: [remove_device] raises [KeyError] exactly when the id is not
    in [_known_devs]; otherwise the id is gone afterwards and adding it
    again restores the bridge.  Removing an id right after adding it to
    a bridge that did not know it restores the bridge, and adding an id
    twice is the same as adding it once. *)
Theorem remove_device_undoes_add_device (device_id : string) b :
  match remove_device device_id b with
  | Ok b' => device_id ∈ _known_devs b /\ (device_id ∉ _known_devs b')
             /\ add_device device_id b' = b
  | Raise e => e = KeyError /\ device_id ∉ _known_devs b
  end
  /\ (device_id ∉ _known_devs b ->
      remove_device device_id (add_device device_id b) = Ok b)
  /\ add_device device_id (add_device device_id b) = add_device device_id b.
Proof.
  unfold remove_device, add_device. destruct b as [known classes ctls]; simpl.
  split_and!.
  - destruct (decide (device_id ∈ known)) as [Hin|Hout]; simpl; [|done].
    split; [done|]. split.
    { intros [_ Hn]%elem_of_difference. apply Hn. by apply elem_of_singleton. }
    unfold set_known_devs. simpl. f_equal.
    apply set_eq. intros x. rewrite elem_of_union, elem_of_difference,
      elem_of_singleton.
    destruct (decide (x = device_id)) as [->|]; tauto.
  - intros Hout.
    rewrite decide_True
      by (apply elem_of_union; right; by apply elem_of_singleton).
    unfold set_known_devs. simpl. f_equal. f_equal.
    apply set_eq. intros x.
    rewrite elem_of_difference, elem_of_union, elem_of_singleton.
    split; [tauto|]. intros Hx. split; [by left|]. by intros ->.
  - unfold set_known_devs. simpl. f_equal.
    by rewrite <- (assoc_L (∪)), (idemp_L (∪)).
Qed.

(** X16: [_known_devs] does not stay empty: when the only known id is
    removed, the next read of [tracked_devices] fills the set again
    with every id that an initialized controller holds, and with
    nothing else. *)
Theorem registry_refills_when_empty (device_id : string) b :
  _known_devs b = {[ device_id ]} ->
  exists b',
    remove_device device_id b = Ok b'
    /\ _known_devs b' = ∅
    /\ forall i, i ∈ registry b' <->
         exists controller,
           controller ∈ _controllers b /\ initialized controller = true
           /\ i ∈ items controller.
Proof.
  intros Hknown. unfold remove_device.
  rewrite decide_True by (rewrite Hknown; by apply elem_of_singleton).
  eexists. split; [done|]. simpl.
  assert (_known_devs b ∖ {[device_id]} = ∅) as ->
    by (rewrite Hknown; apply difference_diag_L).
  split; [done|]. intros i. unfold registry, tracked_devices. simpl.
  rewrite decide_True by done. simpl.
  rewrite elem_of_gathered. unfold controllers. simpl. fold (controllers b).
  split.
  - intros [Hi|(c & Hc & Hi)]; [by apply not_elem_of_empty in Hi|].
    apply elem_of_controllers in Hc as [? ?]. eauto.
  - intros (c & Hc & Hinit & Hi). right. exists c.
    split; [by apply elem_of_controllers|done].
Qed.

(** The classes gathered from the table. *)
Lemma elem_of_table_classes (m : gmap string (list string)) (c : string) :
  c ∈ map_fold (fun (_ : string) (tracked_dc : list string)
                    (dev_classes : gset string) =>
                  dev_classes ∪ list_to_set tracked_dc) ∅ m
  <-> exists k v, m !! k = Some v /\ c ∈ v.
Proof.
  revert c.
  apply (map_fold_weak_ind
           (fun (r : gset string) (m : gmap string (list string)) =>
              forall c, c ∈ r <-> exists k v, m !! k = Some v /\ c ∈ v)).
  - intros c. split; [by intros ?%not_elem_of_empty|].
    intros (k & v & Hk & _). by rewrite lookup_empty in Hk.
  - intros i x m0 r Hi IH c.
    rewrite elem_of_union, elem_of_list_to_set, IH. split.
    + intros [(k & v & Hk & Hc)|Hc].
      * exists k, v. split; [|done]. rewrite lookup_insert_ne; [done|].
        intros ->. by rewrite Hi in Hk.
      * exists i, x. by rewrite lookup_insert_eq.
    + intros (k & v & Hk & Hc).
      destruct (decide (k = i)) as [->|Hne].
      * rewrite lookup_insert_eq in Hk. injection Hk as ->. by right.
      * rewrite lookup_insert_ne in Hk by done. left. eauto.
Qed.

(** The table built from a list of controllers: a later controller
    with the same [ITEM_CLS] replaces the entry of an earlier one. *)
Lemma lookup_table (l : list Controller) :
  forall (m : gmap string (list string)) k v,
    NoDup (ITEM_CLS <$> l) ->
    (foldl (fun acc controller =>
              <[ITEM_CLS controller := ITEM_TYPES controller]> acc) m l)
      !! k = Some v
    <-> (exists controller,
           controller ∈ l /\ ITEM_CLS controller = k
           /\ ITEM_TYPES controller = v)
        \/ ((k ∉ ITEM_CLS <$> l) /\ m !! k = Some v).
Proof.
  induction l as [|c l IH]; intros m k v Hnd; simpl.
  - split.
    + intros Hk. right. split; [apply not_elem_of_nil|done].
    + intros [(c & Hc & _)|[_ Hk]]; [by apply elem_of_nil in Hc|done].
  - apply NoDup_cons in Hnd as [Hc Hnd]. rewrite (IH _ k v Hnd). split.
    + intros [(c' & Hc' & Hk & Hv)|[Hk Hm]].
      * left. exists c'. split; [by right|done].
      * destruct (decide (k = ITEM_CLS c)) as [->|Hne].
        -- rewrite lookup_insert_eq in Hm. injection Hm as <-.
           left. exists c. split; [left|done].
        -- rewrite lookup_insert_ne in Hm by done. right.
           split; [|done]. rewrite not_elem_of_cons. done.
    + intros [(c' & Hc' & Hk & Hv)|[Hk Hm]].
      * apply elem_of_cons in Hc' as [->|Hc'].
        -- right. subst k. split; [done|]. rewrite lookup_insert_eq.
           by rewrite Hv.
        -- left. eauto.
      * rewrite not_elem_of_cons in Hk. destruct Hk as [Hne Hk].
        right. split; [done|]. by rewrite lookup_insert_ne.
Qed.

(** X17: on first use, with initialized controllers of distinct
    [ITEM_CLS], the tracked device classes are exactly the [ITEM_TYPES]
    of the initialized controllers; a controller that is not
    initialized contributes nothing. *)
Theorem tracked_classes_of_controllers b (c : string) :
  _known_dev_classes b = ∅ ->
  NoDup (ITEM_CLS <$> controllers b) ->
  c ∈ tracked_classes b
  <-> exists controller,
        controller ∈ _controllers b /\ initialized controller = true
        /\ c ∈ ITEM_TYPES controller.
Proof.
  intros Hempty Hnd. unfold tracked_classes, tracked_device_classes,
    device_classes.
  rewrite decide_True by done. simpl. rewrite elem_of_table_classes. split.
  - intros (k & v & Hk & Hc).
    apply (proj1 (lookup_table (controllers b) _ k v Hnd)) in Hk
      as [(ctl & Hctl & _ & <-)|[_ Hk]].
    + apply elem_of_controllers in Hctl as [? ?]. eauto.
    + rewrite Hempty, lookup_empty in Hk. done.
  - intros (ctl & Hctl & Hinit & Hc).
    exists (ITEM_CLS ctl), (ITEM_TYPES ctl). split; [|done].
    apply lookup_table; [done|]. left. exists ctl.
    split; [by apply elem_of_controllers|done].
Qed.

End BridgeTables.

Lemma registry_refills_when_empty_witness :
  let fans :=
    {| Bridge.ITEM_CLS := "Fan"; Bridge.ITEM_TYPES := ["fan"];
       Bridge.initialized := true; Bridge.items := ["x"; "y"] |} in
  let b :=
    {| Bridge._known_devs := {[ "x" ]}; Bridge._known_dev_classes := ∅;
       Bridge._controllers := [fans] |} in
  Bridge._known_devs b = {[ "x" ]}
  /\ exists b',
       Bridge.remove_device "x" b = Py.Ok b'
       /\ Bridge._known_devs b' = ∅
       /\ "x" ∈ Bridge.registry b'.
Proof.
  intros fans b.
  assert (Hknown : Bridge._known_devs b = {[ "x" ]}) by reflexivity.
  split; [exact Hknown|].
  destruct (registry_refills_when_empty "x" b Hknown)
    as (b' & Hrm & Hempty & Hreg).
  exists b'. split; [exact Hrm|]. split; [exact Hempty|].
  apply Hreg. exists fans. split; [left|]. split; [reflexivity|left].
Defined.

Lemma tracked_classes_of_controllers_witness :
  Bridge._known_dev_classes (Sample.bridge ∅) = ∅
  /\ NoDup (Bridge.ITEM_CLS <$> Bridge.controllers (Sample.bridge ∅))
  /\ ("light" ∈ Bridge.tracked_classes (Sample.bridge ∅)
      <-> exists controller,
            controller ∈ Bridge._controllers (Sample.bridge ∅)
            /\ Bridge.initialized controller = true
            /\ "light" ∈ Bridge.ITEM_TYPES controller).
Proof.
  assert (Hempty : Bridge._known_dev_classes (Sample.bridge ∅) = ∅)
    by reflexivity.
  assert (Hnd : NoDup (Bridge.ITEM_CLS <$> Bridge.controllers (Sample.bridge ∅)))
    by (apply (bool_decide_unpack _); vm_compute; exact I).
  split; [exact Hempty|]. split; [exact Hnd|].
  exact (tracked_classes_of_controllers (Sample.bridge ∅) "light" Hempty Hnd).
Defined.

(** ** v1/__init__.py: request *)

Section RequestFacts.
Import Py Bridge.

Lemma request_loop_spec (status : nat -> Z) (remaining : nat) :
  forall a : Attempts,
    let a' := (request_loop status remaining a).1 in
    let r := (request_loop status remaining a).2 in
    (retries a <= retries a' <= retries a + remaining)%nat
    /\ (forall k : nat, (retries a < k < retries a')%nat -> retried (status k))
    /\ 2 * slept a' + Z.of_nat (retries a) * (Z.of_nat (retries a) + 1)
         + (if decide (retries a = O /\ retries a' <> O) then 2 else 0)
       = 2 * slept a + Z.of_nat (retries a') * (Z.of_nat (retries a') + 1)
    /\ match r with
       | Ok resp =>
           (retries a < retries a')%nat /\ resp = status (retries a')
           /\ ~ retried resp /\ resp <> 403
       | Raise e =>
           (e = HTTPForbidden /\ (retries a < retries a')%nat
            /\ status (retries a') = 403)
           \/ (e = ExceededMaximumRetries
               /\ retries a' = (retries a + remaining)%nat
               /\ ((retries a < retries a')%nat -> retried (status (retries a'))))
       end.
Proof.
  induction remaining as [|n IH]; intros a; simpl.
  - split; [lia|]. split; [intros k Hk; lia|]. split.
    + rewrite decide_False by (intros [? ?]; done). lia.
    + right. split; [done|]. split; [lia|]. lia.
  - set (a1 := {| retries := S (retries a);
                  slept := if (1 <? S (retries a))%nat
                           then slept a + Z.of_nat (S (retries a))
                           else slept a |}).
    destruct (bool_decide_reflect (status (S (retries a)) ∈ [429; 503]))
      as [Hretry|Hfinal].
    + destruct (IH a1) as (Hle & Hbetween & Hslept & Hres).
      change (retries a1) with (S (retries a)) in *.
      split; [lia|]. split; [|split].
      * intros k Hk. destruct (decide (k = S (retries a))) as [->|Hne];
          [done|]. apply Hbetween. lia.
      * rewrite decide_False in Hslept by (intros [? ?]; done).
        unfold a1 in Hslept at 2. simpl slept in Hslept.
        destruct (Nat.ltb_spec 1 (S (retries a))) as [H1|H1].
        -- rewrite decide_False by (intros [? ?]; lia). lia.
        -- rewrite decide_True by lia. lia.
      * destruct ((request_loop status n a1).2) as [resp|e].
        -- destruct Hres as (? & ? & ? & ?). split_and!; try done. lia.
        -- destruct Hres as [(-> & ? & ?)|(-> & ? & Hlast)].
           ++ left. split_and!; try done. lia.
           ++ right. split; [done|]. split; [lia|]. intros _.
              destruct (decide (retries (request_loop status n a1).1
                                = S (retries a))) as [->|Hne]; [done|].
              apply Hlast. lia.
    + assert (2 * slept a1 + Z.of_nat (retries a) * (Z.of_nat (retries a) + 1)
              + (if decide (retries a = O /\ S (retries a) <> O) then 2 else 0)
              = 2 * slept a
                + Z.of_nat (S (retries a)) * (Z.of_nat (S (retries a)) + 1))
        as Hslept.
      { unfold a1. simpl slept.
        destruct (Nat.ltb_spec 1 (S (retries a))) as [H1|H1].
        - rewrite decide_False by (intros [? ?]; lia). lia.
        - rewrite decide_True by lia. lia. }
      destruct (Z.eqb_spec (status (S (retries a))) 403) as [H403|H403]; simpl.
      * split; [lia|]. split; [intros k Hk; lia|]. split; [exact Hslept|].
        left. split; [done|]. split; [lia|done].
      * split; [lia|]. split; [intros k Hk; lia|]. split; [exact Hslept|].
        split; [lia|]. split; [done|]. split; done.
Qed.

(** X18: [request] sends at most [MAX_RETRIES] requests; every response
    before the last one had status 429 or 503; before the n-th request
    (n > 1) it sleeps n quarters of a second, so after n requests it has
    slept n(n+1)/2 - 1 quarters.  It returns a response whose status is
    none of 429, 503, 403; it raises [HTTPForbidden] on a 403, and
    [ExceededMaximumRetries] exactly when all [MAX_RETRIES] responses
    were 429 or 503 (at once when [MAX_RETRIES] is 0). *)
Theorem request_retries (MAX_RETRIES : nat) (status : nat -> Z) :
  let a := (request MAX_RETRIES status).1 in
  let r := (request MAX_RETRIES status).2 in
  (retries a <= MAX_RETRIES)%nat
  /\ (forall k : nat, (0 < k < retries a)%nat -> retried (status k))
  /\ 2 * slept a
     = (if decide (retries a = O) then 0
        else Z.of_nat (retries a) * (Z.of_nat (retries a) + 1) - 2)
  /\ match r with
     | Ok resp =>
         (0 < retries a)%nat /\ resp = status (retries a)
         /\ ~ retried resp /\ resp <> 403
     | Raise e =>
         (e = HTTPForbidden /\ (0 < retries a)%nat /\ status (retries a) = 403)
         \/ (e = ExceededMaximumRetries /\ retries a = MAX_RETRIES
             /\ forall k : nat, (0 < k <= MAX_RETRIES)%nat -> retried (status k))
     end.
Proof.
  unfold request.
  pose proof (request_loop_spec status MAX_RETRIES
                {| retries := 0; slept := 0 |}) as Hspec.
  destruct (request_loop status MAX_RETRIES {| retries := 0; slept := 0 |})
    as [a r].
  simpl in Hspec. destruct Hspec as (Hle & Hbetween & Hslept & Hres). simpl.
  split; [lia|]. split; [exact Hbetween|]. split.
  - destruct (decide (retries a = O)) as [Hz|Hne].
    + rewrite decide_False in Hslept by (intros [? ?]; done).
      rewrite Hz in Hslept. lia.
    + rewrite decide_True in Hslept by done. lia.
  - destruct r as [resp|e]; [done|].
    destruct Hres as [?|(-> & Hn & Hlast)]; [by left|right].
    split; [done|]. split; [done|]. intros k Hk.
    destruct (decide (k = MAX_RETRIES)) as [->|Hne].
    + rewrite <- Hn. apply Hlast. lia.
    + apply Hbetween. lia.
Qed.

(** X19: the first response that is neither 429 nor 503 decides: when
    it is the n-th and n is at most [MAX_RETRIES], [request] ends after
    n requests, with [HTTPForbidden] if its status is 403 and with that
    response otherwise. *)
Theorem request_first_answer (MAX_RETRIES : nat) (status : nat -> Z) (n : nat) :
  (0 < n <= MAX_RETRIES)%nat ->
  (forall k : nat, (0 < k < n)%nat -> retried (status k)) ->
  ~ retried (status n) ->
  request MAX_RETRIES status
  = ({| retries := n;
        slept := (Z.of_nat n * (Z.of_nat n + 1) - 2) `div` 2 |},
     if Z.eqb (status n) 403 then Raise HTTPForbidden else Ok (status n)).
Proof.
  intros Hn Hbefore Hnot. unfold request.
  pose proof (request_loop_spec status MAX_RETRIES
                {| retries := 0; slept := 0 |}) as Hspec.
  destruct (request_loop status MAX_RETRIES {| retries := 0; slept := 0 |})
    as [[m s] r].
  simpl in Hspec. destruct Hspec as (Hle & Hbetween & Hslept & Hres).
  assert (m = n) as ->.
  { destruct (decide (m < n)%nat) as [Hlt|Hge].
    - exfalso. destruct r as [resp|e].
      + destruct Hres as (? & -> & Hno & _). apply Hno. apply Hbefore. lia.
      + destruct Hres as [(_ & ? & H403)|(_ & -> & Hall)]; [|lia].
        specialize (Hbefore m ltac:(lia)). rewrite H403 in Hbefore.
        unfold retried in Hbefore.
        apply (bool_decide_pack _) in Hbefore. by vm_compute in Hbefore.
    - destruct (decide (n < m)%nat) as [Hlt|]; [|lia].
      exfalso. apply Hnot. apply Hbetween. lia. }
  rewrite decide_True in Hslept by (split; lia).
  f_equal.
  - f_equal. replace (Z.of_nat n * (Z.of_nat n + 1) - 2) with (s * 2) by lia.
    by rewrite Z.div_mul.
  - destruct r as [resp|e].
    + destruct Hres as (_ & -> & _ & H403).
      by destruct (Z.eqb_spec (status n) 403).
    + destruct Hres as [(-> & _ & ->)|(_ & _ & Hall)]; [done|].
      exfalso. apply Hnot. apply Hall. lia.
Qed.

End RequestFacts.

Lemma request_first_answer_witness :
  let status := fun k : nat => if (k <? 3)%nat then 429 else 200 in
  (0 < 3 <= 3)%nat
  /\ (forall k : nat, (0 < k < 3)%nat -> Bridge.retried (status k))
  /\ ~ Bridge.retried (status 3%nat)
  /\ Bridge.request 3 status
     = ({| Bridge.retries := 3; Bridge.slept := 5 |}, Py.Ok 200).
Proof.
  intros status.
  assert (Hn : (0 < 3 <= 3)%nat) by lia.
  assert (Hbefore : forall k : nat, (0 < k < 3)%nat -> Bridge.retried (status k)).
  { intros k Hk. unfold status.
    destruct (Nat.ltb_spec k 3) as [_|Hge]; [left|lia]. }
  assert (Hnot : ~ Bridge.retried (status 3%nat)).
  { unfold Bridge.retried, status. simpl. intros Hin.
    apply (bool_decide_pack _) in Hin. vm_compute in Hin. exact Hin. }
  split; [exact Hn|]. split; [exact Hbefore|]. split; [exact Hnot|].
  exact (request_first_answer 3 status 3 Hn Hbefore Hnot).
Defined.

(** ** event.py: subscribing and unsubscribing *)

Section SubscriptionFacts.
Import Py Device Bridge Event.
Implicit Types (self : EventStream) (sub : Subscription)
         (l : list Subscription).

Lemma same_subscription_refl sub : same_subscription sub sub = true.
Proof.
  unfold same_subscription. rewrite Nat.eqb_refl.
  by rewrite !bool_decide_true.
Qed.

Lemma set_subscribers_same self : set_subscribers (_subscribers self) self = self.
Proof. by destruct self. Qed.

Lemma remove_first_fresh sub l :
  (forall s, s ∈ l -> same_subscription s sub = false) ->
  remove_first sub (l ++ [sub]) = Some l /\ remove_first sub l = None.
Proof.
  induction l as [|x l IH]; intros Hfresh; simpl.
  - by rewrite same_subscription_refl.
  - rewrite (Hfresh x) by left.
    destruct IH as [-> ->]; [|done]. intros s Hs. apply Hfresh. by right.
Qed.

Lemma remove_first_length sub l l' :
  remove_first sub l = Some l' -> List.length l = S (List.length l').
Proof.
  revert l'. induction l as [|x l IH]; intros l'; simpl; [done|].
  destruct (same_subscription x sub).
  - by intros [= <-].
  - destruct (remove_first sub l) as [l0|]; simpl; [|done].
    intros [= <-]. simpl. by rewrite (IH l0).
Qed.

Lemma remove_first_some sub l :
  is_Some (remove_first sub l)
  <-> exists s, s ∈ l /\ same_subscription s sub = true.
Proof.
  induction l as [|x l IH]; simpl.
  - split; [by intros [? ?]|]. intros (s & Hs & _). by apply elem_of_nil in Hs.
  - destruct (same_subscription x sub) eqn:E.
    + split; [|eauto]. intros _. exists x. split; [left|done].
    + rewrite fmap_is_Some, IH. split.
      * intros (s & Hs & Hsame). exists s. split; [by right|done].
      * intros (s & Hs & Hsame). apply elem_of_cons in Hs as [->|Hs];
          [congruence|eauto].
Qed.

(** X20: the function that [subscribe] returns undoes it: when the
    stream held no equal subscription, calling it restores the stream,
    and calling it a second time raises [ValueError]. *)
Theorem unsubscribe_undoes_subscribe self (cb : Callback)
    (event_filter_arg : EventFilterArg)
    (resource_filter_arg : option (list string)) :
  let self' := (subscribe self cb event_filter_arg resource_filter_arg).1 in
  let sub := (subscribe self cb event_filter_arg resource_filter_arg).2 in
  (forall s, s ∈ _subscribers self -> same_subscription s sub = false) ->
  unsubscribe sub self' = Ok self
  /\ unsubscribe sub self = Raise ValueError.
Proof.
  intros self' sub Hfresh. unfold unsubscribe. subst self'.
  unfold subscribe in *. simpl in *.
  destruct (remove_first_fresh sub (_subscribers self) Hfresh) as [H1 H2].
  subst sub. rewrite H1, H2.
  split; [|done]. f_equal. by destruct self.
Qed.

(** X21: [unsubscribe] raises [ValueError] exactly when the stream holds
    no equal subscription; otherwise it drops one subscription and
    leaves the bridge and the queue alone. *)
Theorem unsubscribe_removes_one self sub :
  match unsubscribe sub self with
  | Ok self' =>
      List.length (_subscribers self) = S (List.length (_subscribers self'))
      /\ _bridge self' = _bridge self
      /\ _event_queue self' = _event_queue self
      /\ exists s, s ∈ _subscribers self /\ same_subscription s sub = true
  | Raise e =>
      e = ValueError
      /\ forall s, s ∈ _subscribers self -> same_subscription s sub = false
  end.
Proof.
  unfold unsubscribe.
  destruct (remove_first sub (_subscribers self)) as [l|] eqn:E; simpl.
  - split; [by apply (remove_first_length sub)|]. split; [done|].
    split; [done|]. apply remove_first_some. eauto.
  - split; [done|]. intros s Hs.
    destruct (same_subscription s sub) eqn:Hsame; [|done].
    assert (is_Some (remove_first sub (_subscribers self))) as [? ?]
      by (apply remove_first_some; eauto).
    congruence.
Qed.

End SubscriptionFacts.

Section EmitStops.
Import Py Device Bridge Event.

(** X22: an exception leaves the loop of [emit] exactly when some
    matching synchronous callback raises it and every matching
    synchronous callback before that one returned; the invocations made
    are then those of the matching subscriptions up to and including
    that one.  Coroutine callbacks never make [emit] raise. *)
Theorem emit_stops_at_first_raise (subs : list Subscription)
    (event_type : EventType.t) (data : option HubSpaceEvent) (err : exn) :
  (emit_loop subs event_type data).2 = Some err
  <-> exists pre sub post,
        subs = pre ++ sub :: post
        /\ matches event_type data sub = true
        /\ is_coroutine (callback sub) = false
        /\ cb_call (callback sub) event_type data = Some err
        /\ (forall s, s ∈ pre -> matches event_type data s = true ->
                      is_coroutine (callback s) = false ->
                      cb_call (callback s) event_type data = None)
        /\ (emit_loop subs event_type data).1
           = invocation event_type data
               <$> filter (fun s => matches event_type data s = true)
                          (pre ++ [sub]).
Proof.
  induction subs as [|s subs IH]; simpl.
  - split; [done|]. intros (pre & sub & post & Heq & _).
    by destruct pre.
  - unfold matches at 1 2 3.
    destruct (skipped_by_event_filter s event_type) eqn:Hef; simpl.
    { rewrite IH. split.
      - intros (pre & sub & post & -> & Hm & Hsync & Hcall & Hpre & Hcalls).
        exists (s :: pre), sub, post. split; [done|]. split; [done|].
        split; [done|]. split; [done|]. split.
        + intros s' Hs' Hm'. apply elem_of_cons in Hs' as [->|Hs'].
          * unfold matches in Hm'. by rewrite Hef in Hm'.
          * by apply Hpre.
        + simpl. rewrite filter_cons, decide_False; [done|].
          unfold matches. by rewrite Hef.
      - intros (pre & sub & post & Heq & Hm & Hsync & Hcall & Hpre & Hcalls).
        destruct pre as [|s' pre]; simpl in Heq; injection Heq as <- ->.
        { unfold matches in Hm. by rewrite Hef in Hm. }
        exists pre, sub, post. split; [done|]. split; [done|].
        split; [done|]. split; [done|]. split.
        + intros s0 Hs0. apply Hpre. by right.
        + simpl in Hcalls. rewrite filter_cons, decide_False in Hcalls; [done|].
          unfold matches. by rewrite Hef. }
    destruct (skipped_by_resource_filter s data) eqn:Hrf; simpl.
    { rewrite IH. split.
      - intros (pre & sub & post & -> & Hm & Hsync & Hcall & Hpre & Hcalls).
        exists (s :: pre), sub, post. split; [done|]. split; [done|].
        split; [done|]. split; [done|]. split.
        + intros s' Hs' Hm'. apply elem_of_cons in Hs' as [->|Hs'].
          * unfold matches in Hm'. by rewrite Hef, Hrf in Hm'.
          * by apply Hpre.
        + simpl. rewrite filter_cons, decide_False; [done|].
          unfold matches. by rewrite Hef, Hrf.
      - intros (pre & sub & post & Heq & Hm & Hsync & Hcall & Hpre & Hcalls).
        destruct pre as [|s' pre]; simpl in Heq; injection Heq as <- ->.
        { unfold matches in Hm. by rewrite Hef, Hrf in Hm. }
        exists pre, sub, post. split; [done|]. split; [done|].
        split; [done|]. split; [done|]. split.
        + intros s0 Hs0. apply Hpre. by right.
        + simpl in Hcalls. rewrite filter_cons, decide_False in Hcalls; [done|].
          unfold matches. by rewrite Hef, Hrf. }
    assert (matches event_type data s = true) as Hms
      by (unfold matches; by rewrite Hef, Hrf).
    destruct (is_coroutine (callback s)) eqn:Hco.
    { destruct (emit_loop subs event_type data) as [calls r] eqn:Hloop.
      simpl in *. rewrite IH. split.
      - intros (pre & sub & post & -> & Hm & Hsync & Hcall & Hpre & Hcalls).
        exists (s :: pre), sub, post. split; [done|]. split; [done|].
        split; [done|]. split; [done|]. split.
        + intros s' Hs' Hm' Hsync'. apply elem_of_cons in Hs' as [->|Hs'].
          * congruence.
          * by apply Hpre.
        + simpl. rewrite filter_cons, decide_True by done.
          rewrite fmap_cons. unfold invocation at 1. rewrite Hco.
          by rewrite Hcalls.
      - intros (pre & sub & post & Heq & Hm & Hsync & Hcall & Hpre & Hcalls).
        destruct pre as [|s' pre]; simpl in Heq;
          injection Heq as <- ->; [congruence|].
        exists pre, sub, post. split; [done|]. split; [done|].
        split; [done|]. split; [done|]. split.
        + intros s0 Hs0. apply Hpre. by right.
        + simpl in Hcalls. rewrite filter_cons, decide_True in Hcalls by done.
          rewrite fmap_cons in Hcalls. unfold invocation at 1 in Hcalls.
          rewrite Hco in Hcalls. by injection Hcalls. }
    destruct (cb_call (callback s) event_type data) as [e|] eqn:Hcall; simpl.
    { split.
      - intros [= ->]. exists [], s, subs. split; [done|]. split; [done|].
        split; [done|]. split; [done|]. split.
        + intros s' Hs'. by apply elem_of_nil in Hs'.
        + simpl. rewrite filter_cons, decide_True by done. simpl.
          unfold invocation. by rewrite Hco.
      - intros (pre & sub & post & Heq & Hm & Hsync & Hcall' & Hpre & Hcalls).
        destruct pre as [|s' pre]; simpl in Heq.
        + injection Heq as <- _. congruence.
        + injection Heq as <- _.
          rewrite (Hpre s) in Hcall; [done|left|done|done]. }
    destruct (emit_loop subs event_type data) as [calls r] eqn:Hloop.
    simpl in *. rewrite IH. split.
    { intros (pre & sub & post & -> & Hm & Hsync & Hcall' & Hpre & Hcalls).
      exists (s :: pre), sub, post. split; [done|]. split; [done|].
      split; [done|]. split; [done|]. split.
      + intros s' Hs' Hm' Hsync'. apply elem_of_cons in Hs' as [->|Hs'].
        * done.
        * by apply Hpre.
      + simpl. rewrite filter_cons, decide_True by done.
        rewrite fmap_cons. unfold invocation at 1. rewrite Hco.
        by rewrite Hcalls. }
    intros (pre & sub & post & Heq & Hm & Hsync & Hcall' & Hpre & Hcalls).
    destruct pre as [|s' pre]; simpl in Heq;
      injection Heq as <- ->; [congruence|].
    exists pre, sub, post. split; [done|]. split; [done|].
    split; [done|]. split; [done|]. split.
    + intros s0 Hs0. apply Hpre. by right.
    + simpl in Hcalls. rewrite filter_cons, decide_True in Hcalls by done.
      rewrite fmap_cons in Hcalls. unfold invocation at 1 in Hcalls.
      rewrite Hco in Hcalls. by injection Hcalls.
Qed.

End EmitStops.

(** ** event.py: one pass of the reader, again *)

Section ReaderFacts.
Import Py Device Bridge Event.
Implicit Types (self : EventStream) (data : list RawDevice).

Lemma classify_one_controllers acc dev :
  _controllers (_bridge (c_stream (classify_one acc dev)))
  = _controllers (_bridge (c_stream acc)).
Proof.
  unfold classify_one. rewrite tracked_devices_eq.
  destruct (decide (id (get_hs_device dev) ∉ registry (_bridge (c_stream acc))));
    rewrite tracked_device_classes_eq;
    destruct (decide (device_class (get_hs_device dev) ∉ _)); done.
Qed.

Lemma classify_controllers data : forall acc,
  _controllers (_bridge (c_stream (foldl classify_one acc data)))
  = _controllers (_bridge (c_stream acc)).
Proof.
  induction data as [|dev data IH]; intros acc; simpl; [done|].
  by rewrite IH, classify_one_controllers.
Qed.

Lemma find_missing_frame order : forall used seen self,
  let self' := (find_missing order used seen self).1 in
  _controllers (_bridge self') = _controllers (_bridge self)
  /\ tracked_classes (_bridge self') = tracked_classes (_bridge self).
Proof.
  induction order as [|d order IH]; intros used seen self; simpl.
  - by destruct (decide (size (_known_devs (_bridge self)) <> used)).
  - destruct (decide (size (_known_devs (_bridge self)) <> used)); [done|].
    destruct (decide (d ∉ seen)); [|apply IH].
    unfold remove_device. simpl.
    destruct (decide (d ∈ _known_devs (_bridge self))); [|done].
    destruct (IH used seen
                (set_bridge
                   (set_known_devs (_known_devs (_bridge self) ∖ {[d]})
                                   (_bridge self))
                   (put_nowait {| type := EventType.RESOURCE_DELETED;
                                  ev_device_id := d; device := None |} self)))
      as [-> ->].
    simpl. by rewrite tracked_classes_set_known_devs.
Qed.

(** A pass leaves the controllers and the tracked classes. *)
Lemma poll_pass_frame fetch self :
  let self' := (poll_pass fetch self).1 in
  _controllers (_bridge self') = _controllers (_bridge self)
  /\ tracked_classes (_bridge self') = tracked_classes (_bridge self).
Proof.
  destruct fetch as [data|err]; simpl.
  - destruct (classify_spec data
                {| c_stream := self; processed_ids := []; skipped_ids := [] |})
      as (_ & _ & Hc & _).
    pose proof (classify_controllers data
                  {| c_stream := self; processed_ids := []; skipped_ids := [] |})
      as Hctl.
    simpl in Hc, Hctl. fold (classify self data) in Hc, Hctl.
    rewrite tracked_devices_eq.
    set (self1 := set_bridge _ (c_stream (classify self data))).
    destruct (find_missing_frame
                (elements (registry (_bridge (c_stream (classify self data)))))
                (size (registry (_bridge (c_stream (classify self data)))))
                (processed_ids (classify self data)
                 ++ skipped_ids (classify self data)) self1) as [H1 H2].
    destruct (find_missing _ _ _ self1) as [self2 [e|]]; simpl in *.
    + rewrite H1, H2. unfold self1. simpl.
      by rewrite tracked_classes_set_known_devs.
    + rewrite H1, H2. unfold self1. simpl.
      by rewrite tracked_classes_set_known_devs.
  - by destruct (caught_as_transient err).
Qed.

(** The registry is what [_known_devs] holds once a read has filled
    it. *)
Lemma registry_of_filled (b b' : HubSpaceBridgeV1) (s : gset string) :
  _controllers b' = _controllers b ->
  _known_devs b' = registry b ∪ s ->
  registry b' = registry b ∪ s.
Proof.
  intros Hctl Hknown. unfold registry at 1. unfold tracked_devices.
  destruct (decide (_known_devs b' = ∅)) as [He|Hne]; simpl; [|done].
  rewrite He in Hknown. symmetry in Hknown.
  apply empty_union_L in Hknown as [Hr Hs]. rewrite Hr, Hs.
  rewrite (left_id_L ∅ (∪)). rewrite He.
  unfold controllers. rewrite Hctl. fold (controllers b).
  unfold registry, tracked_devices in Hr.
  destruct (decide (_known_devs b = ∅)) as [Hb|Hb]; simpl in Hr; [|done].
  by rewrite Hb in Hr.
Qed.

(** X23: a successful fetch ends the pass without exception exactly
    when every id of the registry is among the fetched ids, and then no
    [RESOURCE_DELETED] is queued.  Otherwise the pass queues
    [RESOURCE_DELETED] for exactly one missing id, removes that id from
    the registry, and ends the reader with [RuntimeError]: the [else]
    clause removes from the set it iterates over. *)
Theorem missing_device_ends_reader self data :
  let R := registry (_bridge self) in
  let ids := id <$> (get_hs_device <$> data) in
  let self' := (poll_pass (Fetched data) self).1 in
  let deleted :=
    filter (fun e => type e = EventType.RESOURCE_DELETED)
           (new_events self self') in
  ((poll_pass (Fetched data) self).2 = None
   \/ (poll_pass (Fetched data) self).2 = Some RuntimeError)
  /\ ((poll_pass (Fetched data) self).2 = None <-> forall d, d ∈ R -> d ∈ ids)
  /\ ((poll_pass (Fetched data) self).2 = None -> deleted = [])
  /\ ((poll_pass (Fetched data) self).2 = Some RuntimeError ->
      exists d, deleted = [deleted_event d] /\ d ∈ R /\ (d ∉ ids)
                /\ _known_devs (_bridge self')
                   = (R ∪ list_to_set ids) ∖ {[ d ]}).
Proof.
  intros R ids self' deleted.
  destruct (poll_pass_fetched self data) as (_ & _ & Hpass).
  fold R in Hpass. fold self' in Hpass.
  change (id <$> (get_hs_device <$> data)) with ids in Hpass.
  assert (filter (fun e => type e = EventType.RESOURCE_DELETED)
                 (expected_events R (tracked_classes (_bridge self))
                                  (get_hs_device <$> data)) = []) as Hnone.
  { apply filter_none. intros e He Hty.
    apply expected_events_elem in He as (_ & _ & _ & _ & _ & [H|H]);
      rewrite Hty in H; done. }
  destruct (missing_ids self data) as [|d rest] eqn:Hmiss.
  - destruct Hpass as (Hr & Hq & Hk & Hst).
    split; [by left|]. split; [|split].
    + split; [|done]. intros _ d Hd.
      destruct (decide (d ∈ ids)) as [|Hout]; [done|].
      assert (d ∈ missing_ids self data) as Hin
        by (apply missing_ids_spec; done).
      rewrite Hmiss in Hin. by apply elem_of_nil in Hin.
    + intros _. unfold deleted. by rewrite (new_events_app _ _ _ Hq).
    + rewrite Hr. done.
  - destruct Hpass as (Hr & Hq & Hk & Hst).
    assert (d ∈ R /\ d ∉ ids) as [HdR Hdids].
    { apply missing_ids_spec. rewrite Hmiss. left. }
    split; [by right|]. split; [|split].
    + rewrite Hr. split; [done|]. intros Hall. exfalso. by apply Hdids, Hall.
    + rewrite Hr. done.
    + intros _. exists d. split; [|done].
      unfold deleted. rewrite (new_events_app _ _ _ Hq).
      rewrite filter_app, Hnone. simpl.
      rewrite filter_cons, decide_True by done. done.
Qed.

(** X24: polling twice with the same answer: when the first pass finds
    no registry id missing, the second pass ends normally too, leaves
    the registry as the first one left it, and queues, for the same
    devices in the same order, only [RESOURCE_UPDATED] events. *)
Theorem repeated_poll_only_updates self data :
  (forall d, d ∈ registry (_bridge self) ->
             d ∈ id <$> (get_hs_device <$> data)) ->
  let self1 := (poll_pass (Fetched data) self).1 in
  let self2 := (poll_pass (Fetched data) self1).1 in
  (poll_pass (Fetched data) self).2 = None
  /\ (poll_pass (Fetched data) self1).2 = None
  /\ _known_devs (_bridge self2) = _known_devs (_bridge self1)
  /\ (forall e, e ∈ new_events self1 self2 ->
                type e = EventType.RESOURCE_UPDATED)
  /\ (fun e => (ev_device_id e, device e)) <$> new_events self1 self2
     = (fun e => (ev_device_id e, device e)) <$> new_events self self1.
Proof.
  intros Hall self1 self2.
  set (R := registry (_bridge self)).
  set (C := tracked_classes (_bridge self)).
  set (devs := get_hs_device <$> data).
  set (R' := R ∪ list_to_set (id <$> devs)).
  assert (forall s d, d ∈ missing_ids s data
                      -> d ∈ registry (_bridge s) /\ d ∉ id <$> devs) as Hm
    by (intros s d; apply missing_ids_spec).
  assert (missing_ids self data = []) as Hmiss.
  { destruct (missing_ids self data) as [|d rest] eqn:E; [done|].
    destruct (Hm self d) as [HdR Hd]; [rewrite E; left|].
    exfalso. by apply Hd, Hall. }
  destruct (poll_pass_fetched self data) as (_ & _ & Hpass).
  rewrite Hmiss in Hpass. destruct Hpass as (Hr & Hq & Hk & _).
  fold self1 in Hq, Hk. fold R C devs in Hq. fold R devs R' in Hk.
  destruct (poll_pass_frame (Fetched data) self) as [Hctl Hcls].
  fold self1 in Hctl, Hcls. fold C in Hcls.
  assert (registry (_bridge self1) = R') as Hreg
    by (by apply registry_of_filled).
  assert (missing_ids self1 data = []) as Hmiss1.
  { destruct (missing_ids self1 data) as [|d rest] eqn:E; [done|].
    destruct (Hm self1 d) as [HdR Hd]; [rewrite E; left|].
    exfalso. rewrite Hreg in HdR. apply elem_of_union in HdR as [HdR|HdR].
    - by apply Hd, Hall.
    - by apply elem_of_list_to_set in HdR. }
  destruct (poll_pass_fetched self1 data) as (_ & _ & Hpass).
  rewrite Hmiss1 in Hpass. destruct Hpass as (Hr1 & Hq1 & Hk1 & _).
  fold self2 in Hq1, Hk1. rewrite Hreg, Hcls in Hq1. rewrite Hreg in Hk1.
  fold devs in Hq1, Hk1.
  split; [done|]. split; [done|]. split; [|split].
  - rewrite Hk1, Hk. unfold R'.
    by rewrite <- (assoc_L (∪)), (idemp_L (∪)).
  - intros e He. rewrite (new_events_app _ _ _ Hq1) in He.
    apply (expected_events_known_updated R' C devs); [done|].
    apply expected_events_elem in He as (d & Hd & _ & -> & _).
    apply elem_of_union. right. apply elem_of_list_to_set.
    by apply list_elem_of_fmap_2.
  - rewrite (new_events_app _ _ _ Hq1), (new_events_app _ _ _ Hq).
    clear. generalize R R'. induction devs as [|d devs IH]; intros R1 R2;
      simpl; [done|].
    rewrite !fmap_app. f_equal; [|apply IH].
    by destruct (decide (device_class d ∈ C)).
Qed.

End ReaderFacts.

(** ** event.py: the consumer *)

Section ConsumerFacts.
Import Py Device Bridge Event.

Lemma consume_one g event queue :
  processor_ended g = None ->
  never_raise (_subscribers (stream g)) ->
  _event_queue (stream g) = event :: queue ->
  turn g Consume
  = {| stream := set_event_queue queue (stream g);
       seen := seen g ++ deliveries (_subscribers (stream g)) event;
       reader_ended := reader_ended g;
       processor_ended := None |}.
Proof.
  intros Hp Hquiet Hq. unfold turn, process_next. rewrite Hp, Hq.
  unfold emit. simpl.
  rewrite emit_loop_matching; [done|].
  intros sub Hsub _ Hsync. by apply Hquiet.
Qed.

(** X25: the consumer is first in, first out: with subscribers whose
    synchronous callbacks return, n turns of [__event_processor] take
    the first n events off the queue and hand each, in queue order, to
    every matching subscriber in subscription order; they touch neither
    the bridge nor the status nor the subscriber list, and the task
    stays alive. *)
Theorem consumer_is_fifo (n : nat) : forall g,
  processor_ended g = None ->
  never_raise (_subscribers (stream g)) ->
  let g' := run g (replicate n Consume) in
  _event_queue (stream g') = drop n (_event_queue (stream g))
  /\ seen g'
     = seen g
       ++ concat (deliveries (_subscribers (stream g))
                    <$> take n (_event_queue (stream g)))
  /\ processor_ended g' = None
  /\ reader_ended g' = reader_ended g
  /\ _bridge (stream g') = _bridge (stream g)
  /\ _status (stream g') = _status (stream g)
  /\ _subscribers (stream g') = _subscribers (stream g).
Proof.
  induction n as [|n IH]; intros g Hp Hquiet.
  - simpl. rewrite drop_0. rewrite (right_id_L [] (++)). done.
  - change (run g (replicate (S n) Consume))
      with (run (turn g Consume) (replicate n Consume)).
    destruct (_event_queue (stream g)) as [|event queue] eqn:Hq.
    + assert (turn g Consume = g) as ->.
      { unfold turn, process_next. by rewrite Hp, Hq. }
      destruct (IH g Hp Hquiet) as (H1 & H2 & H3 & H4 & H5 & H6 & H7).
      rewrite Hq in H1, H2. rewrite drop_nil in H1. rewrite take_nil in H2.
      done.
    + rewrite (consume_one g event queue Hp Hquiet Hq).
      set (g1 := {| stream := set_event_queue queue (stream g) |}).
      destruct (IH g1 eq_refl Hquiet) as (H1 & H2 & H3 & H4 & H5 & H6 & H7).
      cbv zeta. rewrite H1, H2, H3, H4, H5, H6, H7. simpl.
      by rewrite <- (assoc_L (++)).
Qed.

(** Emptying a queue: one turn per event. *)
Lemma consume_queue (evs : list HubSpaceEvent) : forall g,
  processor_ended g = None ->
  never_raise (_subscribers (stream g)) ->
  _event_queue (stream g) = evs ->
  let g' := run g (replicate (List.length evs) Consume) in
  _event_queue (stream g') = []
  /\ seen g' = seen g ++ concat (deliveries (_subscribers (stream g)) <$> evs)
  /\ processor_ended g' = None
  /\ reader_ended g' = reader_ended g.
Proof.
  induction evs as [|event evs IH]; intros g Hp Hquiet Hq.
  - simpl. by rewrite (right_id_L [] (++)).
  - change (run g (replicate (List.length (event :: evs)) Consume))
      with (run (turn g Consume) (replicate (List.length evs) Consume)).
    rewrite (consume_one g event evs Hp Hquiet Hq).
    set (g1 := {| stream := set_event_queue evs (stream g) |}).
    destruct (IH g1 eq_refl Hquiet eq_refl) as (H1 & H2 & H3 & H4).
    cbv zeta. rewrite H1, H2, H3, H4. simpl.
    by rewrite <- (assoc_L (++)).
Qed.

End ConsumerFacts.

(** ** event.py: the reader and the consumer together *)

Section EndToEnd.
Import Py Device Bridge Event.

(** X26: from the fetch to the subscribers: with an empty queue, both
    tasks alive and callbacks that return, one pass of the reader that
    finds no registry id missing, followed by one turn of the consumer
    per queued event, hands the subscribers exactly the classification
    of the fetched list, in fetch order, and leaves the queue empty. *)
Theorem polled_events_are_delivered_in_order g (data : list RawDevice) :
  reader_ended g = None -> processor_ended g = None ->
  never_raise (_subscribers (stream g)) ->
  _event_queue (stream g) = [] ->
  (forall d, d ∈ registry (_bridge (stream g)) ->
             d ∈ id <$> (get_hs_device <$> data)) ->
  let evs :=
    expected_events (registry (_bridge (stream g)))
                    (tracked_classes (_bridge (stream g)))
                    (get_hs_device <$> data) in
  let g' := run g (Poll (Fetched data) :: replicate (List.length evs) Consume) in
  seen g' = seen g ++ concat (deliveries (_subscribers (stream g)) <$> evs)
  /\ _event_queue (stream g') = []
  /\ reader_ended g' = None /\ processor_ended g' = None.
Proof.
  intros Hr Hp Hquiet Hempty Hall evs g'.
  destruct (poll_pass_fetched (stream g) data) as (Hsubs & _ & Hpass).
  destruct (missing_ids (stream g) data) as [|d rest] eqn:Hmiss.
  2: { exfalso.
       assert (d ∈ missing_ids (stream g) data) as Hd by (rewrite Hmiss; left).
       apply missing_ids_spec in Hd as [HdR Hd]. by apply Hd, Hall. }
  destruct Hpass as (Hnone & Hpass). destruct Hpass as (Hq & Hpass).
  rewrite Hempty, app_nil_l in Hq.
  fold evs in Hq.
  set (g1 := turn g (Poll (Fetched data))).
  assert (stream g1 = (poll_pass (Fetched data) (stream g)).1
          /\ seen g1 = seen g /\ reader_ended g1 = None
          /\ processor_ended g1 = None) as (Hs1 & Hseen1 & Hr1 & Hp1).
  { unfold g1, turn. rewrite Hr.
    destruct (poll_pass (Fetched data) (stream g)) as [self' r] eqn:E.
    simpl in *. by subst r. }
  assert (never_raise (_subscribers (stream g1))) as Hquiet1
    by (by rewrite Hs1, Hsubs).
  assert (_event_queue (stream g1) = evs) as Hq1 by (by rewrite Hs1).
  destruct (consume_queue evs g1 Hp1 Hquiet1 Hq1) as (H1 & H2 & H3 & H4).
  change (run g (Poll (Fetched data) :: replicate (List.length evs) Consume))
    with (run g1 (replicate (List.length evs) Consume)) in g'.
  fold g' in H1, H2, H3, H4.
  rewrite Hs1, Hsubs in H2. rewrite Hseen1 in H2. rewrite Hr1 in H4. done.
Qed.

End EndToEnd.

Lemma quiet_never_raises (n : nat) :
  Event.never_raise [Sample.unfiltered (Sample.quiet n)].
Proof.
  intros sub event_type data Hsub _.
  apply list_elem_of_singleton in Hsub as ->. reflexivity.
Qed.

Lemma unsubscribe_undoes_subscribe_witness :
  let self := Sample.stream ∅ in
  let self' := (Event.subscribe self (Sample.quiet 1)
                  (Event.OneType EventType.RESOURCE_ADDED) None).1 in
  let sub := (Event.subscribe self (Sample.quiet 1)
                (Event.OneType EventType.RESOURCE_ADDED) None).2 in
  (forall s, s ∈ Event._subscribers self -> Event.same_subscription s sub = false)
  /\ Event.event_filter sub = Some [EventType.RESOURCE_ADDED]
  /\ Event.unsubscribe sub self' = Py.Ok self
  /\ Event.unsubscribe sub self = Py.Raise Py.ValueError.
Proof.
  intros self self' sub.
  assert (Hfresh : forall s, s ∈ Event._subscribers self ->
                             Event.same_subscription s sub = false).
  { intros s Hs. by apply elem_of_nil in Hs. }
  split; [exact Hfresh|]. split; [reflexivity|].
  exact (unsubscribe_undoes_subscribe self (Sample.quiet 1)
           (Event.OneType EventType.RESOURCE_ADDED) None Hfresh).
Defined.

Lemma repeated_poll_only_updates_witness :
  let self := Sample.stream {[ "x" ]} in
  let data := [Sample.raw "x" "light"; Sample.raw "y" "light"] in
  let self1 := (Event.poll_pass (Event.Fetched data) self).1 in
  let self2 := (Event.poll_pass (Event.Fetched data) self1).1 in
  (forall d, d ∈ Bridge.registry (Event._bridge self) ->
             d ∈ Device.id <$> (Device.get_hs_device <$> data))
  /\ Event.type <$> Event.new_events self self1
     = [EventType.RESOURCE_UPDATED; EventType.RESOURCE_ADDED]
  /\ (forall e, e ∈ Event.new_events self1 self2 ->
                Event.type e = EventType.RESOURCE_UPDATED)
  /\ Event.ev_device_id <$> Event.new_events self1 self2 = ["x"; "y"].
Proof.
  intros self data self1 self2.
  assert (Hall : forall d, d ∈ Bridge.registry (Event._bridge self) ->
                           d ∈ Device.id <$> (Device.get_hs_device <$> data)).
  { intros d Hd.
    change (Bridge.registry (Event._bridge self)) with ({[ "x" ]} : gset string)
      in Hd.
    apply elem_of_singleton in Hd as ->. left. }
  split; [exact Hall|].
  destruct (repeated_poll_only_updates self data Hall)
    as (_ & _ & _ & Hupd & Hsame).
  split; [vm_compute; reflexivity|]. split; [exact Hupd|].
  transitivity (fst <$> ((fun e => (Event.ev_device_id e, Event.device e))
                           <$> Event.new_events self1 self2)).
  - rewrite <- list_fmap_compose. reflexivity.
  - fold self1 self2 in Hsame. rewrite Hsame. vm_compute. reflexivity.
Defined.

Lemma consumer_is_fifo_witness :
  let subs := [Sample.unfiltered (Sample.quiet 1)] in
  let g := Event.initialize
             (Event.set_event_queue [Sample.bare "a"; Sample.bare "b";
                                     Sample.bare "c"]
                (Event.set_subscribers subs (Sample.stream ∅))) in
  Event.processor_ended g = None
  /\ Event.never_raise (Event._subscribers (Event.stream g))
  /\ Event._event_queue (Event.stream (Event.run g [Event.Consume; Event.Consume]))
     = [Sample.bare "c"]
  /\ Event.seen (Event.run g [Event.Consume; Event.Consume])
     = [Event.Called 1 EventType.RESOURCE_UPDATED (Some (Sample.bare "a"));
        Event.Called 1 EventType.RESOURCE_UPDATED (Some (Sample.bare "b"))].
Proof.
  intros subs g.
  assert (Hp : Event.processor_ended g = None) by reflexivity.
  assert (Hquiet : Event.never_raise (Event._subscribers (Event.stream g)))
    by apply quiet_never_raises.
  split; [exact Hp|]. split; [exact Hquiet|].
  destruct (consumer_is_fifo 2 g Hp Hquiet) as (Hq & Hseen & _).
  split; [exact Hq|exact Hseen].
Defined.

Lemma polled_events_are_delivered_in_order_witness :
  let subs := [Sample.unfiltered (Sample.quiet 1)] in
  let g := Event.initialize
             (Event.set_subscribers subs (Sample.stream {[ "x" ]})) in
  let data := [Sample.raw "y" "light"; Sample.raw "x" "light"] in
  Event.reader_ended g = None /\ Event.processor_ended g = None
  /\ Event.never_raise (Event._subscribers (Event.stream g))
  /\ Event._event_queue (Event.stream g) = []
  /\ (forall d, d ∈ Bridge.registry (Event._bridge (Event.stream g)) ->
                d ∈ Device.id <$> (Device.get_hs_device <$> data))
  /\ (fun c => (Event.invoked_callback c, Event.invoked_event_type c))
       <$> Event.seen (Event.run g [Event.Poll (Event.Fetched data);
                                    Event.Consume; Event.Consume])
     = [(1%nat, EventType.RESOURCE_ADDED); (1%nat, EventType.RESOURCE_UPDATED)].
Proof.
  intros subs g data.
  assert (Hr : Event.reader_ended g = None) by reflexivity.
  assert (Hp : Event.processor_ended g = None) by reflexivity.
  assert (Hquiet : Event.never_raise (Event._subscribers (Event.stream g)))
    by apply quiet_never_raises.
  assert (Hq : Event._event_queue (Event.stream g) = []) by reflexivity.
  assert (Hall : forall d, d ∈ Bridge.registry (Event._bridge (Event.stream g)) ->
                           d ∈ Device.id <$> (Device.get_hs_device <$> data)).
  { intros d Hd.
    change (Bridge.registry (Event._bridge (Event.stream g)))
      with ({[ "x" ]} : gset string) in Hd.
    apply elem_of_singleton in Hd as ->. right. left. }
  split; [exact Hr|]. split; [exact Hp|]. split; [exact Hquiet|].
  split; [exact Hq|]. split; [exact Hall|].
  destruct (polled_events_are_delivered_in_order g data Hr Hp Hquiet Hq Hall)
    as (Hseen & _).
  assert (Event.expected_events
            (Bridge.registry (Event._bridge (Event.stream g)))
            (Bridge.tracked_classes (Event._bridge (Event.stream g)))
            (Device.get_hs_device <$> data)
          = [ {| Event.type := EventType.RESOURCE_ADDED;
                 Event.ev_device_id := "y";
                 Event.device := Some (Device.get_hs_device (Sample.raw "y" "light")) |};
              {| Event.type := EventType.RESOURCE_UPDATED;
                 Event.ev_device_id := "x";
                 Event.device := Some (Device.get_hs_device (Sample.raw "x" "light")) |} ])
    as Hevs by (vm_compute; reflexivity).
  rewrite Hevs in Hseen. simpl length in Hseen.
  change [Event.Poll (Event.Fetched data); Event.Consume; Event.Consume]
    with (Event.Poll (Event.Fetched data) :: replicate 2 Event.Consume).
  rewrite Hseen. reflexivity.
Defined.

(** ** light.py: set_state *)

Section LightFacts.
Import Py LightController.

(** [min] returns the first item with the least key. *)
Lemma min_from_spec (key : Z -> Z) (rest : list Z) : forall best,
  exists pre post,
    best :: rest = pre ++ min_from key best rest :: post
    /\ (forall x, x ∈ pre -> key (min_from key best rest) < key x)
    /\ (forall x, x ∈ post -> key (min_from key best rest) <= key x).
Proof.
  induction rest as [|y rest IH]; intros best; simpl.
  - exists [], []. split; [done|].
    split; intros x Hx; by apply elem_of_nil in Hx.
  - destruct (Z.ltb_spec (key y) (key best)) as [Hlt|Hge].
    + destruct (IH y) as (pre & post & Heq & Hpre & Hpost).
      exists (best :: pre), post. split; [by rewrite Heq|]. split; [|done].
      intros x Hx. apply elem_of_cons in Hx as [->|Hx]; [|by apply Hpre].
      destruct pre as [|z pre]; simpl in Heq.
      * injection Heq as Hy _. rewrite <- Hy. done.
      * injection Heq as <- _. specialize (Hpre y ltac:(left)). lia.
    + destruct (IH best) as (pre & post & Heq & Hpre & Hpost).
      destruct pre as [|z pre]; simpl in Heq.
      * injection Heq as Hb Hrest. exists [], (y :: post).
        split; [simpl; congruence|]. split.
        -- intros x Hx. by apply elem_of_nil in Hx.
        -- intros x Hx. apply elem_of_cons in Hx as [->|Hx];
             [rewrite <- Hb; lia|by apply Hpost].
      * injection Heq as <- Hrest. exists (best :: y :: pre), post.
        split; [simpl; congruence|]. split; [|done].
        intros x Hx. pose proof (Hpre best ltac:(left)) as Hb.
        apply elem_of_cons in Hx as [->|Hx]; [done|].
        apply elem_of_cons in Hx as [->|Hx]; [lia|].
        apply Hpre. by right.
Qed.

Lemma min_by_spec (key : Z -> Z) (l : list Z) :
  match min_by key l with
  | Ok m =>
      exists pre post,
        l = pre ++ m :: post
        /\ (forall x, x ∈ pre -> key m < key x)
        /\ (forall x, x ∈ post -> key m <= key x)
  | Raise e => e = ValueError /\ l = []
  end.
Proof.
  destruct l as [|x rest]; simpl; [done|]. apply min_from_spec.
Qed.

(** X27: [set_state] with a temperature, for a known id and a light
    that has the colour-temperature feature.  It raises
    [AttributeError] exactly when [on] is given and the light has no
    [on] feature; otherwise it raises [ValueError] exactly when the
    model's list of supported temperatures is empty; otherwise it sends
    the supported temperature nearest to the one asked for, the first
    such in the model's list on a tie, and the asked one itself when it
    is supported, with the list and the prefix of the model. *)
Theorem set_state_picks_nearest_temperature (_items : gmap string Light)
    (device_id : string) (on : option bool) (temperature : Z)
    (brightness : option Z) (color_mode : option string)
    (color : option (Z * Z * Z)) (effect : option string)
    (cur_item : Light) (cur_temp : ColorTemperatureFeature) :
  _items !! device_id = Some cur_item ->
  light_color_temperature cur_item = Some cur_temp ->
  match set_state _items device_id on (Some temperature) brightness
                  color_mode color effect with
  | Ok update_obj =>
      (on = None \/ is_Some (light_on cur_item))
      /\ exists sent pre post,
        put_color_temperature update_obj = Some sent
        /\ supported sent = supported cur_temp
        /\ prefix sent = prefix cur_temp
        /\ supported cur_temp = pre ++ LightController.temperature sent :: post
        /\ (forall t, t ∈ pre ->
              Z.abs (LightController.temperature sent - temperature)
              < Z.abs (t - temperature))
        /\ (forall t, t ∈ post ->
              Z.abs (LightController.temperature sent - temperature)
              <= Z.abs (t - temperature))
        /\ (temperature ∈ supported cur_temp ->
            LightController.temperature sent = temperature)
  | Raise e =>
      (e = AttributeError /\ is_Some on /\ light_on cur_item = None)
      \/ (e = ValueError /\ supported cur_temp = []
          /\ (on = None \/ is_Some (light_on cur_item)))
  end.
Proof.
  intros Hcur Htemp. unfold set_state, get_device. rewrite Hcur. simpl.
  rewrite Htemp.
  assert ((is_Some on /\ light_on cur_item = None)
          \/ (on = None \/ is_Some (light_on cur_item))) as [[Hon Hno]|Hon].
  { destruct on as [b|]; [|by right; left].
    destruct (light_on cur_item); [right; right; eauto|left; eauto]. }
  { destruct Hon as [b ->]. rewrite Hno. simpl. left. eauto. }
  assert (exists o,
            match on with
            | Some on0 =>
                match light_on cur_item with
                | Some cur_on =>
                    Ok (Some {| LightController.on := on0;
                                func_class := func_class cur_on;
                                func_instance := func_instance cur_on |})
                | None => Raise AttributeError
                end
            | None => Ok None
            end = Ok o) as [o ->].
  { destruct Hon as [->|[cur_on ->]]; [eauto|]. destruct on; eauto. }
  simpl.
  pose proof (min_by_spec (fun x => Z.abs (x - temperature))
                          (supported cur_temp)) as Hmin.
  destruct (min_by _ (supported cur_temp)) as [m|e]; simpl.
  2: { right. destruct Hmin as [-> ->]. done. }
  destruct Hmin as (pre & post & Heq & Hpre & Hpost).
  split; [exact Hon|].
  eexists _, pre, post. simpl. split; [done|]. split; [done|]. split; [done|].
  split; [done|]. split; [done|]. split; [done|].
  intros Hin. rewrite Heq in Hin.
  apply elem_of_app in Hin as [Hin|Hin].
  - specialize (Hpre _ Hin). cbv beta in Hpre. lia.
  - apply elem_of_cons in Hin as [->|Hin]; [done|].
    specialize (Hpost _ Hin). cbv beta in Hpost. simpl. lia.
Qed.

End LightFacts.

Lemma set_state_picks_nearest_temperature_witness :
  let cur_temp :=
    {| LightController.temperature := 2700;
       LightController.supported := [2700; 3000; 5000; 6500];
       LightController.prefix := "K" |} in
  let cur_item :=
    {| LightController.light_on :=
         Some {| LightController.on := false;
                 LightController.func_class := Some "power";
                 LightController.func_instance := Some "light-power" |};
       LightController.light_color_temperature := Some cur_temp;
       LightController.light_dimming := None;
       LightController.light_color := None;
       LightController.light_color_mode := None;
       LightController.light_effect := None |} in
  let _items : gmap string LightController.Light := {[ "l-1" := cur_item ]} in
  _items !! "l-1" = Some cur_item
  /\ LightController.light_color_temperature cur_item = Some cur_temp
  /\ exists update_obj sent,
       LightController.set_state _items "l-1" (Some true) (Some 4000) None
                                 (Some "white") None None
       = Py.Ok update_obj
       /\ LightController.put_color_temperature update_obj = Some sent
       /\ LightController.temperature sent = 3000.
Proof.
  intros cur_temp cur_item _items.
  assert (Hcur : _items !! "l-1" = Some cur_item) by reflexivity.
  assert (Htemp : LightController.light_color_temperature cur_item
                  = Some cur_temp) by reflexivity.
  split; [exact Hcur|]. split; [exact Htemp|].
  pose proof (set_state_picks_nearest_temperature _items "l-1" (Some true)
                4000 None (Some "white") None None cur_item cur_temp
                Hcur Htemp) as Hsent.
  destruct (LightController.set_state _items "l-1" (Some true) (Some 4000)
              None (Some "white") None None) as [update_obj|e] eqn:Hrun.
  - destruct Hsent as (_ & sent & pre & post & Hs & _).
    exists update_obj, sent. split; [reflexivity|]. split; [exact Hs|].
    vm_compute in Hrun. injection Hrun as <-. simpl in Hs.
    injection Hs as <-. reflexivity.
  - exfalso. vm_compute in Hrun. discriminate Hrun.
Defined.

(** ** models/resource.py *)

Section ResourceTypeFacts.
Import ResourceTypes.

(** X28: [ResourceTypes(value)] never raises: it gives back the member
    for a member's value, and [UNKNOWN] for every string that is no
    member's value. *)
Theorem resource_type_of_value :
  (forall m : t, of_value (value m) = m)
  /\ (forall v : string, value (of_value v) = v \/ of_value v = UNKNOWN)
  /\ (forall v : string, (forall m : t, value m <> v) -> of_value v = UNKNOWN).
Proof.
  split; [|split].
  - intros m. by destruct m.
  - intros v. unfold of_value.
    destruct (List.find _ members) as [m|] eqn:E; [|by right].
    apply List.find_some in E as [_ E]. apply String.eqb_eq in E. by left.
  - intros v Hv. unfold of_value.
    destruct (List.find _ members) as [m|] eqn:E; [|done].
    apply List.find_some in E as [_ E]. apply String.eqb_eq in E.
    by destruct (Hv m).
Qed.

End ResourceTypeFacts.
